(** * cache_db.py: the SQLite-backed cache of works and SDG classifications

    A shallow embedding of [src/cache_db.py], in four layers:

    - [Py]: the Python values the module handles and the library functions
      it calls on them ([str.strip], [dict.get], [int], truthiness,
      [json.dumps(..., ensure_ascii=False)], [datetime.isoformat]);
    - [Sqlite]: the part of SQLite (and of the [sqlite3] binding) reached by
      the SQL statements of the module: tables with named columns, column
      affinity, primary keys, [CREATE TABLE IF NOT EXISTS],
      [ALTER TABLE ADD COLUMN], [INSERT ... ON CONFLICT DO UPDATE] and
      point [SELECT]s;
    - [CacheDb]: the functions of [cache_db.py] themselves, written in a
      state-and-exception monad over the process state (the global
      [_CONN] and the database file);
    - [Threads]: several calls of these functions interleaved under
      [_LOCK].

    The properties follow the definitions; then come the claims made about
    the module, and a last part with further properties of its functions.

    Conventions.  A Python [str] is a [string] whose characters are code
    points below 256.  Floats are outside the model.  Integers are
    unbounded ([Z]); CPython's optional cap on the number of digits of an
    integer converted from or to text is not modelled. *)

From Stdlib Require Import String Ascii ZArith List Bool Lia DecimalString.
Import ListNotations.
Open Scope string_scope.
Open Scope Z_scope.


Set Warnings "-register-all".

(** ** Exceptions and results *)

(** The exception classes that can leave the module.  [Sqlite3Error] stands
    for [sqlite3.Error] and its subclasses. *)
Inductive exn : Type :=
| TypeError
| ValueError
| OverflowError
| Sqlite3Error.

Inductive result (A : Type) : Type :=
| Ok (a : A)
| Raise (e : exn).

Arguments Ok {A} a.
Arguments Raise {A} e.

Fixpoint rmap {A B : Type} (f : A -> result B) (l : list A) : result (list B) :=
  match l with
  | [] => Ok []
  | a :: l' =>
      match f a with
      | Ok b => match rmap f l' with
                | Ok bs => Ok (b :: bs)
                | Raise e => Raise e
                end
      | Raise e => Raise e
      end
  end.

(** ** Python values and library functions *)

Module Py.

(** [str.isspace] on one character, for code points below 256. *)
Definition isspace (c : ascii) : bool :=
  let n := N_of_ascii c in
  (((9 <=? n) && (n <=? 13)) || ((28 <=? n) && (n <=? 32))
   || (n =? 133) || (n =? 160))%N.

Fixpoint lstrip (s : string) : string :=
  match s with
  | EmptyString => EmptyString
  | String c s' => if isspace c then lstrip s' else s
  end.

Fixpoint rstrip (s : string) : string :=
  match s with
  | EmptyString => EmptyString
  | String c s' =>
      match rstrip s' with
      | EmptyString => if isspace c then EmptyString else String c EmptyString
      | r => String c r
      end
  end.

(** [s.strip()] *)
Definition strip (s : string) : string := rstrip (lstrip s).

(** The values of type [Any] that the module can be handed.  [PyObject] is
    an instance of [object]: truthy, with no conversion to [int], to JSON
    or to an SQLite value. *)
Inductive PyVal : Type :=
| PyNone
| PyBool (b : bool)
| PyInt (z : Z)
| PyStr (s : string)
| PyList (xs : list PyVal)
| PyDict (kvs : list (string * PyVal))
| PyObject.

(** A [Dict[str, Any]], in insertion order. *)
Definition pydict : Type := list (string * PyVal).

(** [d.get(k)]: the value under [k], or [None]. *)
Fixpoint dict_get (d : pydict) (k : string) : PyVal :=
  match d with
  | [] => PyNone
  | (k', v) :: d' => if String.eqb k' k then v else dict_get d' k
  end.

(** Truth value of [v], as tested by [if v]. *)
Definition truthy (v : PyVal) : bool :=
  match v with
  | PyNone => false
  | PyBool b => b
  | PyInt z => negb (z =? 0)
  | PyStr s => negb (String.eqb s EmptyString)
  | PyList xs => match xs with [] => false | _ => true end
  | PyDict kvs => match kvs with [] => false | _ => true end
  | PyObject => true
  end.

(** [v is not None] *)
Definition is_not_None (v : PyVal) : bool :=
  match v with
  | PyNone => false
  | _ => true
  end.

(** *** [int(v)] *)

Definition digit_of (c : ascii) : option Z :=
  let n := N_of_ascii c in
  if ((48 <=? n) && (n <=? 57))%N then Some (Z.of_N (n - 48)) else None.

(** Digits of a decimal literal, with single underscores allowed between
    digits.  [acc] is the value read so far; [after_digit] tells whether the
    previous character was a digit. *)
Fixpoint parse_digits (s : string) (acc : Z) (after_digit : bool) : option Z :=
  match s with
  | EmptyString => if after_digit then Some acc else None
  | String c s' =>
      match digit_of c with
      | Some d => parse_digits s' (10 * acc + d) true
      | None =>
          if (Ascii.eqb c "_" && after_digit)%bool
          then parse_digits s' acc false
          else None
      end
  end.

(** The characters that [int] skips around a literal: the ASCII ones that
    C's [isspace] accepts and, of the others, those that [str.isspace]
    accepts.  The separators 28 to 31, which [str.strip] removes, are not
    among them. *)
Definition int_space (c : ascii) : bool :=
  let n := N_of_ascii c in
  (((9 <=? n) && (n <=? 13)) || (n =? 32) || (n =? 133) || (n =? 160))%N.

Fixpoint int_lstrip (s : string) : string :=
  match s with
  | EmptyString => EmptyString
  | String c s' => if int_space c then int_lstrip s' else s
  end.

Fixpoint int_rstrip (s : string) : string :=
  match s with
  | EmptyString => EmptyString
  | String c s' =>
      match int_rstrip s' with
      | EmptyString => if int_space c then EmptyString else String c EmptyString
      | r => String c r
      end
  end.

(** [int(s)] for a [str] in base ten: surrounding whitespace, an optional
    sign, digits. *)
Definition int_of_str (s : string) : result Z :=
  let body := int_rstrip (int_lstrip s) in
  let signed :=
    match body with
    | String "-" rest => (true, rest)
    | String "+" rest => (false, rest)
    | _ => (false, body)
    end in
  match parse_digits (snd signed) 0 false with
  | Some n => Ok (if fst signed then - n else n)
  | None => Raise ValueError
  end.

Definition int (v : PyVal) : result Z :=
  match v with
  | PyBool b => Ok (if b then 1 else 0)
  | PyInt z => Ok z
  | PyStr s => int_of_str s
  | PyNone | PyList _ | PyDict _ | PyObject => Raise TypeError
  end.

(** *** [json.dumps(v, ensure_ascii=False)] *)

Definition dquote : ascii := ascii_of_nat 34.
Definition backslash : ascii := ascii_of_nat 92.

Definition hex_digit (n : N) : ascii :=
  if (n <? 10)%N then ascii_of_N (48 + n) else ascii_of_N (87 + n).

(** One character of a string literal: the two-character escapes, [\u00XX]
    for the other control characters, everything else as it is. *)
Definition json_escape_char (c : ascii) : string :=
  let n := N_of_ascii c in
  if Ascii.eqb c dquote then String backslash (String dquote EmptyString)
  else if Ascii.eqb c backslash then String backslash (String backslash EmptyString)
  else if (n =? 10)%N then String backslash "n"
  else if (n =? 13)%N then String backslash "r"
  else if (n =? 9)%N then String backslash "t"
  else if (n =? 8)%N then String backslash "b"
  else if (n =? 12)%N then String backslash "f"
  else if (n <? 32)%N then
    String backslash
      ("u00" ++ String (hex_digit (n / 16)) (String (hex_digit (n mod 16)) EmptyString))
  else String c EmptyString.

Fixpoint json_escape (s : string) : string :=
  match s with
  | EmptyString => EmptyString
  | String c s' => json_escape_char c ++ json_escape s'
  end.

Definition json_string (s : string) : string :=
  String dquote (json_escape s ++ String dquote EmptyString).

Definition str_of_int (z : Z) : string :=
  NilZero.string_of_int (Z.to_int z).

(** [", ".join(items)] *)
Fixpoint join_comma (items : list string) : string :=
  match items with
  | [] => EmptyString
  | [x] => x
  | x :: rest => x ++ ", " ++ join_comma rest
  end.

(** The encoder raises [TypeError] on the first value, in document order,
    that is not JSON serializable. *)
Fixpoint json_dumps (v : PyVal) : result string :=
  match v with
  | PyNone => Ok "null"
  | PyBool true => Ok "true"
  | PyBool false => Ok "false"
  | PyInt z => Ok (str_of_int z)
  | PyStr s => Ok (json_string s)
  | PyList xs =>
      match rmap json_dumps xs with
      | Ok items => Ok ("[" ++ join_comma items ++ "]")
      | Raise e => Raise e
      end
  | PyDict kvs =>
      match rmap (fun kv : string * PyVal =>
                    match json_dumps (snd kv) with
                    | Ok t => Ok (json_string (fst kv) ++ ": " ++ t)
                    | Raise e => Raise e
                    end) kvs with
      | Ok items => Ok ("{" ++ join_comma items ++ "}")
      | Raise e => Raise e
      end
  | PyObject => Raise TypeError
  end.

(** *** [datetime.utcnow().isoformat(timespec="seconds")] *)

Record datetime : Type := {
  year : N; month : N; day : N;
  hour : N; minute : N; second : N
}.

Definition str_of_N (n : N) : string := NilZero.string_of_uint (N.to_uint n).

(** [n] in decimal, padded with zeros on the left to [width] digits. *)
Definition zero_pad (width : nat) (n : N) : string :=
  let s := str_of_N n in
  string_of_list_ascii (repeat "0"%char (width - String.length s)) ++ s.

Definition isoformat_seconds (d : datetime) : string :=
  zero_pad 4 (year d) ++ "-" ++ zero_pad 2 (month d) ++ "-" ++ zero_pad 2 (day d)
  ++ "T" ++ zero_pad 2 (hour d) ++ ":" ++ zero_pad 2 (minute d)
  ++ ":" ++ zero_pad 2 (second d).

End Py.

(** ** SQLite *)

Module Sqlite.

(** Stored values.  (REAL and BLOB values cannot arise from the Python
    values of the model.) *)
Inductive SqlVal : Type :=
| SqlNull
| SqlInt (z : Z)
| SqlText (s : string).

Definition is_null (v : SqlVal) : bool :=
  match v with
  | SqlNull => true
  | _ => false
  end.

(** The comparison [a = b] of a [WHERE] clause or of a uniqueness check,
    under the BINARY collation: true only for two non-NULL values of the
    same storage class with the same content. *)
Definition sql_eq (a b : SqlVal) : bool :=
  match a, b with
  | SqlInt x, SqlInt y => x =? y
  | SqlText s, SqlText t => String.eqb s t
  | _, _ => false
  end.

Definition int64_min : Z := -9223372036854775808.
Definition int64_max : Z := 9223372036854775807.

(** How the [sqlite3] module binds a Python value to a [?] or [:name]
    placeholder. *)
Definition bind_param (v : Py.PyVal) : result SqlVal :=
  match v with
  | Py.PyNone => Ok SqlNull
  | Py.PyBool b => Ok (SqlInt (if b then 1 else 0))
  | Py.PyInt z =>
      if (int64_min <=? z) && (z <=? int64_max) then Ok (SqlInt z)
      else Raise OverflowError
  | Py.PyStr s => Ok (SqlText s)
  | Py.PyList _ | Py.PyDict _ | Py.PyObject => Raise Sqlite3Error
  end.

(** The declared types of the module's columns give one of two affinities. *)
Inductive affinity : Type :=
| TEXT
| INTEGER.

(** Conversion of a value stored into (or compared with) a column.  TEXT
    affinity turns an integer into its decimal text.  INTEGER affinity
    leaves NULL and integers as they are; it would convert numeric-looking
    text, but the module only ever binds [int(...)] or [None] to its one
    INTEGER column ([is_oa]) and never compares it, so that conversion is
    left out. *)
Definition apply_affinity (a : affinity) (v : SqlVal) : SqlVal :=
  match a, v with
  | TEXT, SqlInt z => SqlText (Py.str_of_int z)
  | _, _ => v
  end.

Record column : Type := {
  c_name : string;
  c_affinity : affinity;
  c_notnull : bool
}.

(** A row gives a value to each column of its table, in column order. *)
Definition row : Type := list (string * SqlVal).

Record table : Type := {
  t_cols : list column;
  t_pk : list string;
  t_rows : list row
}.

Fixpoint assoc {A : Type} (l : list (string * A)) (k : string) : option A :=
  match l with
  | [] => None
  | (k', a) :: l' => if String.eqb k' k then Some a else assoc l' k
  end.

(** Value of column [c] in row [r]. *)
Definition cell (r : row) (c : string) : SqlVal :=
  match assoc r c with
  | Some v => v
  | None => SqlNull
  end.

Definition mem (c : string) (l : list string) : bool :=
  existsb (String.eqb c) l.

Definition col_names (t : table) : list string := map c_name (t_cols t).

(** The statements of the module name their columns in lower case, and the
    model looks a name up as it is written.  SQLite itself ignores the case
    of ASCII letters in a column name and keeps the names of a table
    distinct under that comparison, so the two agree on every table that
    declares the name as written, which the tables of the properties below
    do.  On a table that has a named column in another case only, the
    model's [INSERT] and [SELECT] raise where SQLite would find the column;
    [ALTER TABLE] below, which the module runs on such tables, compares as
    SQLite does. *)
Definition has_column (t : table) (c : string) : bool := mem c (col_names t).

Definition same_columns (a b : list string) : bool :=
  forallb (fun x => mem x b) a && forallb (fun x => mem x a) b.

Definition column_affinity (t : table) (c : string) : affinity :=
  match find (fun col => String.eqb (c_name col) c) (t_cols t) with
  | Some col => c_affinity col
  | None => TEXT
  end.

(** [CREATE TABLE IF NOT EXISTS]: an existing table is left alone, whatever
    its columns. *)
Definition create_table_if_not_exists
    (cols : list column) (pk : list string) (existing : option table) : table :=
  match existing with
  | Some t => t
  | None => {| t_cols := cols; t_pk := pk; t_rows := [] |}
  end.

(** [PRAGMA table_info(t)], projected on ["name"]: the names as they were
    declared, in their declared case. *)
Definition table_info_names (t : table) : list string := col_names t.

(** SQLite compares column names without regard to the case of the ASCII
    letters. *)
Definition lower (c : ascii) : ascii :=
  let n := N_of_ascii c in
  if ((65 <=? n) && (n <=? 90))%N then ascii_of_N (n + 32) else c.

Fixpoint nocase_eqb (a b : string) : bool :=
  match a, b with
  | EmptyString, EmptyString => true
  | String x a', String y b' => Ascii.eqb (lower x) (lower y) && nocase_eqb a' b'
  | _, _ => false
  end.

(** Whether [t] has a column that SQLite takes [c] to name.  [has_column]
    above is the exact comparison, which is what Python's [in] does on the
    names that [table_info] reports. *)
Definition names_column (t : table) (c : string) : bool :=
  existsb (nocase_eqb c) (col_names t).

(** [ALTER TABLE ... ADD COLUMN c]: the column is appended and every
    existing row reads NULL in it.  SQLite refuses a name that the table
    already has in any case ("duplicate column name"). *)
Definition add_column (c : column) (t : table) : result table :=
  if names_column t (c_name c) || c_notnull c then Raise Sqlite3Error
  else Ok {| t_cols := (t_cols t ++ [c])%list;
             t_pk := t_pk t;
             t_rows := map (fun r => (r ++ [(c_name c, SqlNull)])%list) (t_rows t) |}.

(** The row that [INSERT INTO t (cells...) VALUES (...)] proposes: each
    named column takes its bound value under the column's affinity, the
    others NULL. *)
Definition inserted_row (t : table) (cells : list (string * SqlVal)) : row :=
  map (fun c =>
         (c_name c,
          match assoc cells (c_name c) with
          | Some v => apply_affinity (c_affinity c) v
          | None => SqlNull
          end)) (t_cols t).

Definition violates_not_null (t : table) (r : row) : bool :=
  existsb (fun c => c_notnull c && is_null (cell r (c_name c))) (t_cols t).

Definition key_of (pk : list string) (r : row) : list SqlVal :=
  map (cell r) pk.

(** Two rows collide on the primary key when they agree, by [sql_eq], on
    every key column; a NULL in a key never collides. *)
Fixpoint keys_equal (k1 k2 : list SqlVal) : bool :=
  match k1, k2 with
  | [], [] => true
  | a :: k1', b :: k2' => sql_eq a b && keys_equal k1' k2'
  | _, _ => false
  end.

Definition conflicts (pk : list string) (r1 r2 : row) : bool :=
  keys_equal (key_of pk r1) (key_of pk r2).

(** [DO UPDATE SET c = excluded.c] for the columns [set_cols]. *)
Definition updated_row (set_cols : list string) (excluded old : row) : row :=
  map (fun cv : string * SqlVal =>
         (fst cv, if mem (fst cv) set_cols then cell excluded (fst cv) else snd cv))
      old.

Fixpoint update_conflicting
    (pk set_cols : list string) (excluded : row) (rows : list row)
    : option (list row) :=
  match rows with
  | [] => None
  | r :: rs =>
      if conflicts pk r excluded
      then Some (updated_row set_cols excluded r :: rs)
      else match update_conflicting pk set_cols excluded rs with
           | Some rs' => Some (r :: rs')
           | None => None
           end
  end.

(** Whether [INSERT INTO t (columns) ... ON CONFLICT(target) DO UPDATE SET
    set_cols = ...] can be prepared: it must name columns of the table and
    [target] must be the table's primary key. *)
Definition prepared (target set_cols columns : list string) (t : table) : bool :=
  forallb (has_column t) columns
  && forallb (has_column t) set_cols
  && same_columns target (t_pk t).

(** [INSERT INTO t (cells) VALUES (...) ON CONFLICT(target) DO UPDATE SET
    set_cols = excluded.set_cols], with the values already bound.  A NULL
    in a NOT NULL column aborts the statement. *)
Definition upsert
    (target set_cols : list string) (cells : list (string * SqlVal)) (t : table)
    : result table :=
  if negb (prepared target set_cols (map fst cells) t)
  then Raise Sqlite3Error
  else
    let new := inserted_row t cells in
    if violates_not_null t new then Raise Sqlite3Error
    else
      match update_conflicting (t_pk t) set_cols new (t_rows t) with
      | Some rows' =>
          Ok {| t_cols := t_cols t; t_pk := t_pk t; t_rows := rows' |}
      | None =>
          Ok {| t_cols := t_cols t; t_pk := t_pk t; t_rows := (t_rows t ++ [new])%list |}
      end.

Definition matches (t : table) (conds : list (string * SqlVal)) (r : row) : bool :=
  forallb (fun cv : string * SqlVal =>
             sql_eq (cell r (fst cv))
                    (apply_affinity (column_affinity t (fst cv)) (snd cv)))
          conds.

(** [SELECT * FROM t WHERE c1 = ? AND c2 = ? ...] *)
Definition select_where (conds : list (string * SqlVal)) (t : table)
    : result (list row) :=
  if forallb (has_column t) (map fst conds)
  then Ok (filter (matches t conds) (t_rows t))
  else Raise Sqlite3Error.

(** [SELECT cols FROM t WHERE ...] *)
Definition select_cols_where
    (cols : list string) (conds : list (string * SqlVal)) (t : table)
    : result (list row) :=
  if forallb (has_column t) cols
  then match select_where conds t with
       | Ok rs => Ok (map (fun r => map (fun c => (c, cell r c)) cols) rs)
       | Raise e => Raise e
       end
  else Raise Sqlite3Error.

(** [cursor.fetchone()] *)
Definition fetchone (rs : list row) : option row := hd_error rs.

(** The Python object that [sqlite3] returns for a column value. *)
Definition py_of_sql (v : SqlVal) : Py.PyVal :=
  match v with
  | SqlNull => Py.PyNone
  | SqlInt z => Py.PyInt z
  | SqlText s => Py.PyStr s
  end.

(** [dict(row)] for a [sqlite3.Row]. *)
Definition dict_of_row (r : row) : Py.pydict :=
  map (fun cv : string * SqlVal => (fst cv, py_of_sql (snd cv))) r.

(** *** Well-formed tables *)

(** Every row gives a value to exactly the columns of the table. *)
Definition rows_aligned (t : table) : Prop :=
  Forall (fun r => map fst r = col_names t) (t_rows t).

(** The primary key is unique: no key is held by two rows. *)
Definition keys_unique (t : table) : Prop :=
  forall r0 : row,
    (length (filter (fun r => conflicts (t_pk t) r r0) (t_rows t)) <= 1)%nat.

(** A table that offers the columns [decl] with primary key [pk].  It may
    have further columns, as long as they accept NULL. *)
Record table_ok (decl : list column) (pk : list string) (t : table) : Prop := {
  ok_names : NoDup (col_names t);
  ok_decl : incl decl (t_cols t);
  ok_notnull : forall c, In c (t_cols t) -> c_notnull c = true -> In c decl;
  ok_pk : t_pk t = pk;
  ok_rows : rows_aligned t;
  ok_keys : keys_unique t
}.

End Sqlite.

(** ** cache_db.py *)

Module CacheDb.

Import Py Sqlite.

(** The objects of the database file that the module names: its two tables
    and its index, each of which may be missing from the file. *)
Record Db : Type := {
  works : option table;
  sdg_results : option table;
  idx_sdg_results_model : bool
}.

(** A database file that does not exist yet, or holds none of the objects. *)
Definition empty_db : Db :=
  {| works := None; sdg_results := None; idx_sdg_results_model := false |}.

(** A handle on the file at [DB_PATH]. *)
Inductive connection : Type := Connection.

(** The state of the process: the global [_CONN] and the database behind
    [DB_PATH]. *)
Record process : Type := {
  _CONN : option connection;
  store : Db
}.

(** Computations that read and write the process state and may raise. *)
Definition M (A : Type) : Type := process -> result A * process.

Definition ret {A : Type} (a : A) : M A := fun st => (Ok a, st).

Definition bind {A B : Type} (m : M A) (k : A -> M B) : M B :=
  fun st =>
    match m st with
    | (Ok a, st') => k a st'
    | (Raise e, st') => (Raise e, st')
    end.

(** A pure computation that may raise. *)
Definition lift {A : Type} (r : result A) : M A := fun st => (r, st).

Declare Scope cache_scope.
Delimit Scope cache_scope with cache.
Notation "x <- m ;; k" := (bind m (fun x => k))
  (at level 61, m at next level, right associativity) : cache_scope.
Notation "m ;; k" := (bind m (fun _ => k))
  (at level 61, right associativity) : cache_scope.
Open Scope cache_scope.

Definition set_works (t : table) (db : Db) : Db :=
  {| works := Some t; sdg_results := sdg_results db;
     idx_sdg_results_model := idx_sdg_results_model db |}.

Definition set_sdg_results (t : table) (db : Db) : Db :=
  {| works := works db; sdg_results := Some t;
     idx_sdg_results_model := idx_sdg_results_model db |}.

Definition set_store (db : Db) : M unit :=
  fun st => (Ok tt, {| _CONN := _CONN st; store := db |}).

Definition get_store : M Db := fun st => (Ok (store st), st).

(** A statement that writes table [works]; it fails when the table is
    missing. *)
Definition execute_on_works (stmt : table -> result table) : M unit :=
  db <- get_store ;;
  match works db with
  | None => lift (Raise Sqlite3Error)
  | Some t => t' <- lift (stmt t) ;; set_store (set_works t' db)
  end.

Definition execute_on_sdg_results (stmt : table -> result table) : M unit :=
  db <- get_store ;;
  match sdg_results db with
  | None => lift (Raise Sqlite3Error)
  | Some t => t' <- lift (stmt t) ;; set_store (set_sdg_results t' db)
  end.

Definition query_works {A : Type} (q : table -> result A) : M A :=
  db <- get_store ;;
  match works db with
  | None => lift (Raise Sqlite3Error)
  | Some t => lift (q t)
  end.

Definition query_sdg_results {A : Type} (q : table -> result A) : M A :=
  db <- get_store ;;
  match sdg_results db with
  | None => lift (Raise Sqlite3Error)
  | Some t => lift (q t)
  end.

Definition text_column (name : string) : column :=
  {| c_name := name; c_affinity := TEXT; c_notnull := false |}.

(** The columns of [CREATE TABLE IF NOT EXISTS works]. *)
Definition works_columns : list column :=
  [ text_column "openalex_id";
    text_column "title";
    text_column "publication_date";
    text_column "doi";
    text_column "type";
    text_column "language";
    {| c_name := "is_oa"; c_affinity := INTEGER; c_notnull := false |};
    text_column "oa_status";
    text_column "authors";
    text_column "institutions";
    text_column "institution_affiliations_json";
    text_column "abstract";
    text_column "raw_json";
    text_column "updated_at" ].

(** The columns of [CREATE TABLE IF NOT EXISTS sdg_results]. *)
Definition sdg_results_columns : list column :=
  [ {| c_name := "openalex_id"; c_affinity := TEXT; c_notnull := true |};
    {| c_name := "model"; c_affinity := TEXT; c_notnull := true |};
    text_column "sdg_response";
    text_column "sdg_formatted";
    text_column "sdg_note";
    text_column "classified_at" ].

(** [CREATE INDEX IF NOT EXISTS idx_sdg_results_model ON sdg_results(model)] *)
Definition create_index_if_not_exists : M unit :=
  db <- get_store ;;
  if idx_sdg_results_model db then ret tt
  else
    match sdg_results db with
    | None => lift (Raise Sqlite3Error)
    | Some t =>
        if has_column t "model"
        then set_store {| works := works db; sdg_results := sdg_results db;
                          idx_sdg_results_model := true |}
        else lift (Raise Sqlite3Error)
    end.

(** [ALTER TABLE works ADD COLUMN institution_affiliations_json TEXT] on one
    row. *)
Definition with_affiliations (r : row) : row :=
  (r ++ [("institution_affiliations_json", SqlNull)])%list.

(** [_init_schema(conn)] *)
Definition _init_schema (conn : connection) : M unit :=
  db <- get_store ;;
  set_store (set_works
               (create_table_if_not_exists works_columns ["openalex_id"] (works db))
               db) ;;
  db <- get_store ;;
  set_store (set_sdg_results
               (create_table_if_not_exists sdg_results_columns
                  ["openalex_id"; "model"] (sdg_results db))
               db) ;;
  create_index_if_not_exists ;;
  cols <- query_works (fun t => Ok (table_info_names t)) ;;
  if negb (mem "institution_affiliations_json" cols)
  then execute_on_works (add_column (text_column "institution_affiliations_json"))
  else ret tt.

(** [_get_conn()].  Creating the directory, opening the file and the two
    PRAGMAs leave the contents of the database as they are; the global is
    assigned before the schema is set up. *)
Definition _get_conn : M connection :=
  fun st =>
    match _CONN st with
    | Some conn => (Ok conn, st)
    | None =>
        (_init_schema Connection ;; ret Connection)
          {| _CONN := Some Connection; store := store st |}
    end.

(** [get_cached_work(openalex_id)] *)
Definition get_cached_work (openalex_id : string) : M (option pydict) :=
  conn <- _get_conn ;;
  cur <- query_works (select_where [("openalex_id", SqlText (strip openalex_id))]) ;;
  let row := fetchone cur in
  ret (option_map dict_of_row row).

(** The [payload] dictionary of [upsert_work]. *)
Definition work_payload (row : pydict) (raw_record : PyVal) (utcnow : datetime)
    : result pydict :=
  match (if is_not_None (dict_get row "is_oa")
         then match int (dict_get row "is_oa") with
              | Ok z => Ok (PyInt z)
              | Raise e => Raise e
              end
         else Ok PyNone) with
  | Raise e => Raise e
  | Ok is_oa =>
      match (if truthy raw_record
             then match json_dumps raw_record with
                  | Ok s => Ok (PyStr s)
                  | Raise e => Raise e
                  end
             else Ok PyNone) with
      | Raise e => Raise e
      | Ok raw_json =>
          Ok [ ("openalex_id", dict_get row "openalex_id");
               ("title", dict_get row "title");
               ("publication_date", dict_get row "publication_date");
               ("doi", dict_get row "doi");
               ("type", dict_get row "type");
               ("language", dict_get row "language");
               ("is_oa", is_oa);
               ("oa_status", dict_get row "oa_status");
               ("authors", dict_get row "authors");
               ("institutions", dict_get row "institutions");
               ("institution_affiliations_json",
                 dict_get row "institution_affiliations_json");
               ("abstract", dict_get row "abstract");
               ("raw_json", raw_json);
               ("updated_at", PyStr (isoformat_seconds utcnow)) ]
      end
  end.

(** Binding of the values of a payload to the placeholders of a statement. *)
Definition bind_payload (payload : pydict) : result (list (string * SqlVal)) :=
  rmap (fun kv : string * PyVal =>
          match bind_param (snd kv) with
          | Ok v => Ok (fst kv, v)
          | Raise e => Raise e
          end) payload.

(** [conn.execute] of an [INSERT ... ON CONFLICT DO UPDATE] whose columns
    and values are those of [payload]: the statement is prepared against
    the table, then the values are bound, then it runs. *)
Definition execute_upsert
    (target set_cols : list string) (payload : pydict) (t : table)
    : result table :=
  if prepared target set_cols (map fst payload) t
  then match bind_payload payload with
       | Ok values => upsert target set_cols values t
       | Raise e => Raise e
       end
  else Raise Sqlite3Error.

(** The body of [with _LOCK:] in [upsert_work]: the statement (and the
    commit, which changes nothing that the connection can see). *)
Definition work_statement (payload : pydict) : M unit :=
  let columns := map fst payload in
  execute_on_works (execute_upsert ["openalex_id"] columns payload).

(** [upsert_work(row, raw_record)], run when the clock reads [utcnow].  In a
    single thread taking and releasing [_LOCK] changes nothing; module
    [Threads] below interleaves several calls. *)
Definition upsert_work (row : pydict) (raw_record : PyVal) (utcnow : datetime)
    : M unit :=
  conn <- _get_conn ;;
  payload <- lift (work_payload row raw_record utcnow) ;;
  work_statement payload.

(** [get_cached_sdg_result(openalex_id, model)] *)
Definition get_cached_sdg_result (openalex_id model : string) : M (option pydict) :=
  conn <- _get_conn ;;
  cur <- query_sdg_results
           (select_cols_where
              ["sdg_response"; "sdg_formatted"; "sdg_note"; "classified_at"]
              [("openalex_id", SqlText (strip openalex_id));
               ("model", SqlText (strip model))]) ;;
  let row := fetchone cur in
  ret (option_map dict_of_row row).

(** The [payload] dictionary of [upsert_sdg_result]. *)
Definition sdg_payload
    (openalex_id model : string) (sdg_response sdg_formatted sdg_note : PyVal)
    (utcnow : datetime) : result pydict :=
  match (if is_not_None sdg_response
         then match json_dumps sdg_response with
              | Ok s => Ok (PyStr s)
              | Raise e => Raise e
              end
         else Ok PyNone) with
  | Raise e => Raise e
  | Ok response =>
      Ok [ ("openalex_id", PyStr (strip openalex_id));
           ("model", PyStr (strip model));
           ("sdg_response", response);
           ("sdg_formatted", sdg_formatted);
           ("sdg_note", sdg_note);
           ("classified_at", PyStr (isoformat_seconds utcnow)) ]
  end.

(** The body of [with _LOCK:] in [upsert_sdg_result]. *)
Definition sdg_statement (payload : pydict) : M unit :=
  execute_on_sdg_results
    (execute_upsert ["openalex_id"; "model"]
       ["sdg_response"; "sdg_formatted"; "sdg_note"; "classified_at"] payload).

(** [upsert_sdg_result(openalex_id, model, sdg_response, sdg_formatted,
    sdg_note)], run when the clock reads [utcnow]. *)
Definition upsert_sdg_result
    (openalex_id model : string) (sdg_response sdg_formatted sdg_note : PyVal)
    (utcnow : datetime) : M unit :=
  conn <- _get_conn ;;
  payload <- lift (sdg_payload openalex_id model sdg_response sdg_formatted
                     sdg_note utcnow) ;;
  sdg_statement payload.

(** A process that has not touched the cache yet, on a new database file. *)
Definition fresh : process := {| _CONN := None; store := empty_db |}.

(** *** Stores the module can work on *)

(** The columns of [works] before [institution_affiliations_json] was
    introduced. *)
Definition legacy_works_columns : list column :=
  filter (fun c => negb (String.eqb (c_name c) "institution_affiliations_json"))
         works_columns.

(** A database file as the module may find it when it connects: each of its
    two tables is either missing or was created by this module, possibly
    before the newer column existed. *)
Definition store_ok (db : Db) : Prop :=
  match works db with
  | Some t =>
      table_ok legacy_works_columns ["openalex_id"] t /\
      (has_column t "institution_affiliations_json" = true ->
       In (text_column "institution_affiliations_json") (t_cols t))
  | None => True
  end /\
  match sdg_results db with
  | Some t => table_ok sdg_results_columns ["openalex_id"; "model"] t
  | None => True
  end.

(** A database with the current schema. *)
Definition store_current (db : Db) : Prop :=
  exists tw ts,
    works db = Some tw /\ sdg_results db = Some ts /\
    idx_sdg_results_model db = true /\
    table_ok works_columns ["openalex_id"] tw /\
    table_ok sdg_results_columns ["openalex_id"; "model"] ts.

(** The invariant of the process state: once [_CONN] is set the schema has
    been brought up to date. *)
Definition process_ok (st : process) : Prop :=
  match _CONN st with
  | Some _ => store_current (store st)
  | None => store_ok (store st)
  end.

(** A database file that the first call can open.  [_init_schema] looks for
    the newer column among the names that [table_info] reports, as they are
    written, while [ALTER TABLE] compares names as SQLite does; on a [works]
    table that has the column under a name in another case the migration
    raises.  A store is ready when its [works] table, if it lacks the name
    as written, lacks it in every case. *)
Definition store_ready (db : Db) : Prop :=
  store_ok db /\
  match works db with
  | Some t =>
      names_column t "institution_affiliations_json" = true ->
      has_column t "institution_affiliations_json" = true
  | None => True
  end.

(** A process whose calls can get their connection: it holds one already,
    or its database file is ready to be opened. *)
Definition process_ready (st : process) : Prop :=
  match _CONN st with
  | Some _ => store_current (store st)
  | None => store_ready (store st)
  end.

(** A process that holds its connection. *)
Definition connected (st : process) : Prop :=
  _CONN st = Some Connection /\ store_current (store st).

Definition rows_of (o : option table) : list row :=
  match o with
  | Some t => t_rows t
  | None => []
  end.

(** The rows of [works] stored under the key [k]. *)
Definition works_rows_with (k : string) (db : Db) : list row :=
  filter (fun r => sql_eq (cell r "openalex_id") (SqlText k)) (rows_of (works db)).

(** The rows of [sdg_results] stored under the key [(k, m)]. *)
Definition sdg_rows_with (k m : string) (db : Db) : list row :=
  filter (fun r => sql_eq (cell r "openalex_id") (SqlText k)
                   && sql_eq (cell r "model") (SqlText m))
         (rows_of (sdg_results db)).

(** The value [upsert_work] gives to [is_oa]: [None] stays [None], anything
    else goes through [int]. *)
Inductive flag_value (v : PyVal) : PyVal -> Prop :=
| flag_none : v = PyNone -> flag_value v PyNone
| flag_int (z : Z) : v <> PyNone -> int v = Ok z -> flag_value v (PyInt z).

(** The value [upsert_work] gives to [raw_json]: the JSON text of a truthy
    payload, [None] for a falsy one. *)
Inductive raw_json_value (raw_record : PyVal) : PyVal -> Prop :=
| raw_falsy : truthy raw_record = false -> raw_json_value raw_record PyNone
| raw_dumped (j : string) :
    truthy raw_record = true -> json_dumps raw_record = Ok j ->
    raw_json_value raw_record (PyStr j).

(** The value [upsert_sdg_result] gives to [sdg_response]. *)
Inductive response_value (sdg_response : PyVal) : PyVal -> Prop :=
| response_none : sdg_response = PyNone -> response_value sdg_response PyNone
| response_dumped (j : string) :
    sdg_response <> PyNone -> json_dumps sdg_response = Ok j ->
    response_value sdg_response (PyStr j).

(** The value stored in column [c] by an insert of [values]. *)
Definition stored (values : list (string * SqlVal)) (c : column) : SqlVal :=
  match assoc values (c_name c) with
  | Some v => apply_affinity (c_affinity c) v
  | None => SqlNull
  end.

(** The row [r] holds the payload: each of the columns [decl] has the bound
    value of the payload entry of the same name, under the column's
    affinity. *)
Definition row_holds (decl : list column) (payload : pydict) (r : row) : Prop :=
  forall c v,
    In c decl -> assoc payload (c_name c) = Some v ->
    exists b, bind_param v = Ok b /\
              cell r (c_name c) = apply_affinity (c_affinity c) b.

(** *** Callers *)

(** The keys of [row] that [upsert_work] stores in TEXT columns other than
    the key. *)
Definition text_fields : list string :=
  [ "title"; "publication_date"; "doi"; "type"; "language"; "oa_status";
    "authors"; "institutions"; "institution_affiliations_json"; "abstract" ].




(** A call of one of the four public functions. *)
Inductive call : Type :=
| GetWork (openalex_id : string)
| PutWork (row : pydict) (raw_record : PyVal) (utcnow : datetime)
| GetSdg (openalex_id model : string)
| PutSdg (openalex_id model : string)
         (sdg_response sdg_formatted sdg_note : PyVal) (utcnow : datetime).

(** The state a call leaves, whether it returns or raises. *)
Definition run_call (c : call) (st : process) : process :=
  match c with
  | GetWork openalex_id => snd (get_cached_work openalex_id st)
  | PutWork row raw_record utcnow => snd (upsert_work row raw_record utcnow st)
  | GetSdg openalex_id model => snd (get_cached_sdg_result openalex_id model st)
  | PutSdg openalex_id model sdg_response sdg_formatted sdg_note utcnow =>
      snd (upsert_sdg_result openalex_id model sdg_response sdg_formatted
             sdg_note utcnow st)
  end.

Definition run (calls : list call) (st : process) : process :=
  fold_left (fun st c => run_call c st) calls st.


(** *** Sample data *)

Definition sample_time : datetime :=
  {| year := 2024; month := 3; day := 7; hour := 9; minute := 5; second := 0 |}.

Definition later_time : datetime :=
  {| year := 2024; month := 3; day := 7; hour := 9; minute := 6; second := 30 |}.

(** [{"openalex_id": "W1", "title": "Paper A", "is_oa": True,
      "authors": "Ada; Grace"}] *)
Definition paper_a : pydict :=
  [ ("openalex_id", PyStr "W1"); ("title", PyStr "Paper A");
    ("is_oa", PyBool true); ("authors", PyStr "Ada; Grace") ].

(** [{"openalex_id": "W1", "title": "Paper A revised"}] *)
Definition paper_a_revised : pydict :=
  [ ("openalex_id", PyStr "W1"); ("title", PyStr "Paper A revised") ].

(** The same work with its authors as a list. *)
Definition paper_a_listed : pydict :=
  [ ("openalex_id", PyStr "W1"); ("title", PyStr "Paper A");
    ("is_oa", PyBool true);
    ("authors", PyList [PyStr "Ada"; PyStr "Grace"]) ].

(** [{"id": "W1", "cited_by_count": 3}] *)
Definition raw_a : PyVal :=
  PyDict [ ("id", PyStr "W1"); ("cited_by_count", PyInt 3) ].


(** A payload that [json.dumps] rejects: [{"fetched": object()}]. *)
Definition raw_unserializable : PyVal :=
  PyDict [ ("id", PyStr "W1"); ("fetched", PyObject) ].

(** A work whose identifier came with surrounding whitespace. *)
Definition paper_padded : pydict :=
  [ ("openalex_id", PyStr " W1 "); ("title", PyStr "Paper A") ].

(** [{"sdgs": [3, 13]}] *)
Definition response_a : PyVal :=
  PyDict [ ("sdgs", PyList [PyInt 3; PyInt 13]) ].

(** [json.dumps(response_a, ensure_ascii=False)] *)
Definition response_a_json : string :=
  "{" ++ json_string "sdgs" ++ ": [3, 13]}".

(** A database written before [institution_affiliations_json] existed: a
    [works] table with the older columns and one row, and nothing else. *)
Definition legacy_row : row :=
  [ ("openalex_id", SqlText "W1"); ("title", SqlText "Paper A");
    ("publication_date", SqlText "2020-01-31"); ("doi", SqlNull);
    ("type", SqlText "article"); ("language", SqlText "en");
    ("is_oa", SqlInt 1); ("oa_status", SqlText "gold");
    ("authors", SqlText "Ada; Grace"); ("institutions", SqlNull);
    ("abstract", SqlNull); ("raw_json", SqlNull);
    ("updated_at", SqlText "2023-11-02T10:00:00") ].

Definition legacy_db : Db :=
  {| works := Some {| t_cols := legacy_works_columns;
                      t_pk := ["openalex_id"];
                      t_rows := [legacy_row] |};
     sdg_results := None;
     idx_sdg_results_model := false |}.

(** The projection of [get_cached_sdg_result]'s [SELECT]. *)
Definition sdg_projection (r : row) : row :=
  map (fun c => (c, cell r c))
      ["sdg_response"; "sdg_formatted"; "sdg_note"; "classified_at"].

(** *** Further notions and sample data *)

(** A computation that leaves the global [_CONN] as it finds it. *)
Definition keeps_conn {A : Type} (m : M A) : Prop :=
  forall st, _CONN (snd (m st)) = _CONN st.

(** An older database whose [works] table was given the newer column by
    hand, under a name in another case. *)
Definition cased_db : Db :=
  {| works :=
       Some {| t_cols := (legacy_works_columns
                          ++ [text_column "Institution_Affiliations_JSON"])%list;
               t_pk := ["openalex_id"];
               t_rows := [(legacy_row
                           ++ [("Institution_Affiliations_JSON", SqlNull)])%list] |};
     sdg_results := None;
     idx_sdg_results_model := false |}.

(** A database file in which some other program left a table named
    [sdg_results] that has no [model] column. *)
Definition foreign_db : Db :=
  {| works := None;
     sdg_results := Some {| t_cols := [text_column "openalex_id"; text_column "label"];
                            t_pk := [];
                            t_rows := [] |};
     idx_sdg_results_model := false |}.

(** A call that only reads. *)
Definition is_lookup (c : call) : bool :=
  match c with
  | GetWork _ | GetSdg _ _ => true
  | _ => false
  end.

(** [{"openalex_id": "W2", "title": "Paper B"}] *)
Definition paper_b : pydict :=
  [ ("openalex_id", PyStr "W2"); ("title", PyStr "Paper B") ].

(** A work that came without an identifier. *)
Definition paper_anonymous : pydict := [ ("title", PyStr "Untitled") ].

(** A work whose identifier came as a number. *)
Definition paper_numbered : pydict :=
  [ ("openalex_id", PyInt 42); ("title", PyStr "Paper 42") ].

(** Open-access flags given as text. *)
Definition paper_flag_text : pydict :=
  [ ("openalex_id", PyStr "W1"); ("is_oa", PyStr "1") ].


(** A database whose [works] table was given one more column by hand, with
    one row. *)
Definition annotated_row : row :=
  [ ("openalex_id", SqlText "W1"); ("title", SqlText "Paper A");
    ("publication_date", SqlNull); ("doi", SqlNull);
    ("type", SqlNull); ("language", SqlNull);
    ("is_oa", SqlInt 1); ("oa_status", SqlNull);
    ("authors", SqlText "Ada; Grace"); ("institutions", SqlNull);
    ("institution_affiliations_json", SqlNull);
    ("abstract", SqlNull); ("raw_json", SqlNull);
    ("updated_at", SqlText "2023-11-02T10:00:00");
    ("reviewer_note", SqlText "checked by hand") ].

Definition annotated_db : Db :=
  {| works := Some {| t_cols := (works_columns ++ [text_column "reviewer_note"])%list;
                      t_pk := ["openalex_id"];
                      t_rows := [annotated_row] |};
     sdg_results := None;
     idx_sdg_results_model := false |}.

(** A short session: a work is stored, classified, and stored again. *)
Definition session : list call :=
  [ PutWork paper_a raw_a sample_time;
    PutSdg "W1" "model-a" response_a (PyStr "SDG 3") PyNone sample_time;
    PutWork paper_a_revised PyNone later_time ].

End CacheDb.

(** ** Concurrent callers *)

(** Several threads of one process, each making one call, interleaved at the
    points where the code can be preempted.  All threads share the
    connection.  The model covers calls made once the process holds its
    connection; the first connection, which [_get_conn] makes under no
    lock, is outside it. *)
Module Threads.

Import Py Sqlite CacheDb.

(** Where a thread stands in its call. *)
Inductive pc : Type :=
| Called                       (* the function has been entered *)
| Waiting (payload : pydict)   (* payload built; waits at [with _LOCK:] *)
| Holding (payload : pydict)   (* holds [_LOCK]; statement not yet run *)
| Executed (payload : pydict)  (* statement run; not yet committed *)
| Committed                    (* committed; still holds [_LOCK] *)
| Unwinding (e : exn)          (* statement raised; still holds [_LOCK] *)
| Returned
| Raised (e : exn).

Definition holds_lock (p : pc) : bool :=
  match p with
  | Holding _ | Executed _ | Committed | Unwinding _ => true
  | _ => false
  end.

(** What the threads share: [_LOCK], the process state as the connection
    sees it, the committed database, and the order of the commits (latest
    first). *)
Record shared : Type := {
  _LOCK : option nat;
  view : process;
  disk : Db;
  commits : list nat
}.

(** The steps of a put: build the payload, take the lock, run the
    statement, commit, release. *)
Definition put_step
    (i : nat) (payload : result pydict) (statement : pydict -> M unit)
    (p : pc) (sh : shared) : option (pc * shared) :=
  match p with
  | Called =>
      match _CONN (view sh), payload with
      | None, _ => None
      | Some _, Ok d => Some (Waiting d, sh)
      | Some _, Raise e => Some (Raised e, sh)
      end
  | Waiting d =>
      match _LOCK sh with
      | None =>
          Some (Holding d,
                {| _LOCK := Some i; view := view sh; disk := disk sh;
                   commits := commits sh |})
      | Some _ => None
      end
  | Holding d =>
      match statement d (view sh) with
      | (Ok _, v) =>
          Some (Executed d,
                {| _LOCK := _LOCK sh; view := v; disk := disk sh;
                   commits := commits sh |})
      | (Raise e, v) =>
          Some (Unwinding e,
                {| _LOCK := _LOCK sh; view := v; disk := disk sh;
                   commits := commits sh |})
      end
  | Executed d =>
      Some (Committed,
            {| _LOCK := _LOCK sh; view := view sh; disk := store (view sh);
               commits := i :: commits sh |})
  | Committed =>
      Some (Returned,
            {| _LOCK := None; view := view sh; disk := disk sh;
               commits := commits sh |})
  | Unwinding e =>
      Some (Raised e,
            {| _LOCK := None; view := view sh; disk := disk sh;
               commits := commits sh |})
  | Returned | Raised _ => None
  end.

(** A lookup reads through the connection and takes no lock. *)
Definition get_step (p : pc) (sh : shared) : option (pc * shared) :=
  match p, _CONN (view sh) with
  | Called, Some _ => Some (Returned, sh)
  | _, _ => None
  end.

(** The next step of thread [i], which is making the call [c]; [None] when
    the thread is blocked or has finished. *)
Definition thread_step (i : nat) (c : call) (p : pc) (sh : shared)
    : option (pc * shared) :=
  match c with
  | GetWork _ | GetSdg _ _ => get_step p sh
  | PutWork row raw_record utcnow =>
      put_step i (work_payload row raw_record utcnow) work_statement p sh
  | PutSdg openalex_id model sdg_response sdg_formatted sdg_note utcnow =>
      put_step i
        (sdg_payload openalex_id model sdg_response sdg_formatted sdg_note utcnow)
        sdg_statement p sh
  end.

Fixpoint update {A : Type} (l : list A) (i : nat) (x : A) : list A :=
  match l, i with
  | [], _ => []
  | _ :: l', O => x :: l'
  | a :: l', S i' => a :: update l' i' x
  end.

Record config : Type := {
  threads : list (call * pc);
  sh : shared
}.

(** The scheduler lets any thread that can move take its next step. *)
Inductive step : config -> config -> Prop :=
| step_thread (i : nat) (c : call) (p p' : pc) (ts : list (call * pc))
              (s s' : shared) :
    nth_error ts i = Some (c, p) ->
    thread_step i c p s = Some (p', s') ->
    step {| threads := ts; sh := s |}
         {| threads := update ts i (c, p'); sh := s' |}.

Inductive steps : config -> config -> Prop :=
| steps_refl (cfg : config) : steps cfg cfg
| steps_step (cfg cfg' cfg'' : config) :
    steps cfg cfg' -> step cfg' cfg'' -> steps cfg cfg''.

(** The threads have just made their calls on a process in state [st]. *)
Definition initial (calls : list call) (st : process) : config :=
  {| threads := map (fun c => (c, Called)) calls;
     sh := {| _LOCK := None; view := st; disk := store st; commits := [] |} |}.

(** The run in which the threads step in the order [schedule]. *)
Fixpoint run_schedule (schedule : list nat) (cfg : config) : option config :=
  match schedule with
  | [] => Some cfg
  | i :: rest =>
      match nth_error (threads cfg) i with
      | None => None
      | Some (c, p) =>
          match thread_step i c p (sh cfg) with
          | None => None
          | Some (p', s') =>
              run_schedule rest
                {| threads := update (threads cfg) i (c, p'); sh := s' |}
          end
      end
  end.

(** A key of one of the two caches. *)
Inductive cache_key : Type :=
| WorkKey (k : string)
| SdgKey (k m : string).

(** The key a put writes to, when it is a string. *)
Definition put_key (c : call) : option cache_key :=
  match c with
  | PutWork row _ _ =>
      match dict_get row "openalex_id" with
      | PyStr k => Some (WorkKey k)
      | _ => None
      end
  | PutSdg openalex_id model _ _ _ _ =>
      Some (SdgKey (strip openalex_id) (strip model))
  | _ => None
  end.

Definition call_payload (c : call) : result pydict :=
  match c with
  | PutWork row raw_record utcnow => work_payload row raw_record utcnow
  | PutSdg openalex_id model sdg_response sdg_formatted sdg_note utcnow =>
      sdg_payload openalex_id model sdg_response sdg_formatted sdg_note utcnow
  | _ => Ok []
  end.


(** A process that has connected to a new database. *)
Definition opened : process := snd (_get_conn fresh).

(** Two threads classify the same work under the same model. *)
Definition two_puts : list call :=
  [ PutSdg "W1" "model-a" response_a (PyStr "SDG 3") (PyStr EmptyString) sample_time;
    PutSdg " W1" "model-a " PyNone (PyStr "SDG 13") PyNone later_time ].

(** Both threads build their payloads; the second takes the lock first,
    writes and commits while the first waits; then the first does. *)
Definition second_then_first : list nat :=
  [0; 1; 1; 1; 1; 1; 0; 0; 0; 0]%nat.



(** *** Runs of arbitrary calls *)

(** The calls that have committed, in the order of their commits. *)
Definition committed_calls (calls : list call) (commits : list nat) : list call :=
  flat_map (fun i => match nth_error calls i with
                     | Some c => [c]
                     | None => []
                     end)
           (rev commits).

(** The process as a connection opened on the committed database sees it. *)
Definition on_disk (db : Db) : process :=
  {| _CONN := Some Connection; store := db |}.

Definition finished (p : pc) : bool :=
  match p with
  | Returned | Raised _ => true
  | _ => false
  end.

(** What holds of every configuration that threads making any [calls] can
    reach from a connected process in state [st0]. *)
Record serial (calls : list call) (st0 : process) (cfg : config) : Prop := {
  ser_calls : map fst (threads cfg) = calls;
  ser_connected : connected (view (sh cfg));
  ser_holder :
    forall i c p,
      nth_error (threads cfg) i = Some (c, p) -> holds_lock p = true ->
      _LOCK (sh cfg) = Some i;
  ser_lock :
    forall i, _LOCK (sh cfg) = Some i ->
              exists c p, nth_error (threads cfg) i = Some (c, p) /\
                          holds_lock p = true;
  ser_payload :
    forall i c p d,
      nth_error (threads cfg) i = Some (c, p) ->
      p = Waiting d \/ p = Holding d \/ p = Executed d ->
      call_payload c = Ok d;
  (* a lookup is a single step *)
  ser_lookup :
    forall i c p,
      nth_error (threads cfg) i = Some (c, p) -> is_lookup c = true ->
      p = Called \/ p = Returned;
  (* between statement and commit the connection sees the committed
     database with the call of the lock holder applied *)
  ser_executed :
    forall i c d,
      nth_error (threads cfg) i = Some (c, Executed d) ->
      view (sh cfg) = run_call c (on_disk (disk (sh cfg)));
  ser_clean :
    (forall i c d, nth_error (threads cfg) i <> Some (c, Executed d)) ->
    store (view (sh cfg)) = disk (sh cfg);
  (* the committed database is that of a sequential run *)
  ser_disk :
    on_disk (disk (sh cfg)) = run (committed_calls calls (commits (sh cfg))) st0;
  ser_once : NoDup (commits (sh cfg));
  ser_committed :
    forall i, In i (commits (sh cfg)) ->
              exists c p, nth_error (threads cfg) i = Some (c, p) /\
                          (p = Committed \/ p = Returned) /\
                          is_lookup c = false;
  ser_done :
    forall i c p,
      nth_error (threads cfg) i = Some (c, p) -> is_lookup c = false ->
      p = Committed \/ p = Returned -> In i (commits (sh cfg))
}.



(** Three threads: two puts on different caches and a lookup. *)
Definition mixed_calls : list call :=
  [ PutWork paper_a raw_a sample_time;
    GetWork "W1";
    PutSdg "W1" "model-a" response_a (PyStr "SDG 3") PyNone later_time ].

(** The first thread writes and commits while the third waits for the lock;
    the lookup runs in between. *)
Definition mixed_schedule : list nat :=
  [0; 2; 0; 1; 0; 0; 0; 2; 2; 2; 2]%nat.

(** The same run, stopped when the first thread has run its statement and
    not yet committed. *)
Definition mixed_prefix : list nat := [0; 2; 0; 1; 0]%nat.

(** How many steps a thread at [p] has left at most. *)
Definition remaining (p : pc) : nat :=
  match p with
  | Called => 5
  | Waiting _ => 4
  | Holding _ => 3
  | Executed _ => 2
  | Committed | Unwinding _ => 1
  | Returned | Raised _ => 0
  end.

Definition total_remaining (cfg : config) : nat :=
  list_sum (map (fun cp : call * pc => remaining (snd cp)) (threads cfg)).

End Threads.

Import Py Sqlite CacheDb Threads.

(** * Properties *)

(** ** The Python library on examples *)

Example strip_padded : strip "  W1 " = "W1".
Proof. reflexivity. Qed.

Example json_nested :
  json_dumps (PyDict [("a", PyInt 1); ("b", PyList [PyBool true; PyNone; PyStr "x"])])
  = Ok ("{" ++ json_string "a" ++ ": 1, " ++ json_string "b" ++ ": [true, null, " ++ json_string "x" ++ "]}").
Proof. reflexivity. Qed.

Example iso_example :
  isoformat_seconds {| year := 2024; month := 3; day := 7;
                          hour := 9; minute := 5; second := 0 |}
  = "2024-03-07T09:05:00".
Proof. reflexivity. Qed.

Example int_examples :
  int (PyStr " -1_0 ") = Ok (-10) /\ int (PyBool true) = Ok 1
  /\ int (PyStr "yes") = Raise ValueError.
Proof. repeat split. Qed.

(** [int] does not skip the separators that [str.strip] removes. *)
Example int_separator_example :
  strip (String (ascii_of_nat 28) "1") = "1" /\
  int (PyStr (String (ascii_of_nat 28) "1")) = Raise ValueError /\
  int (PyStr (String (ascii_of_nat 160) "1")) = Ok 1.
Proof. repeat split. Qed.

(** ** Strings *)

Lemma rstrip_idempotent (s : string) : rstrip (rstrip s) = rstrip s.
Proof.
  induction s as [|c s IH]; simpl; [reflexivity|].
  destruct (rstrip s) as [|c' r] eqn:E.
  - destruct (isspace c) eqn:Ec; simpl; [reflexivity|].
    now rewrite Ec.
  - simpl in IH |- *. now rewrite IH.
Qed.

Lemma lstrip_head (s : string) :
  lstrip s = EmptyString \/ exists c r, lstrip s = String c r /\ isspace c = false.
Proof.
  induction s as [|c s IH]; simpl; [now left|].
  destruct (isspace c) eqn:Ec; [exact IH|].
  right. now exists c, s.
Qed.

Lemma rstrip_head (c : ascii) (r : string) :
  isspace c = false -> exists r', rstrip (String c r) = String c r'.
Proof.
  intros Hc. simpl. destruct (rstrip r); [rewrite Hc|]; eauto.
Qed.

Lemma lstrip_fixed (c : ascii) (r : string) :
  isspace c = false -> lstrip (String c r) = String c r.
Proof. intros Hc. simpl. now rewrite Hc. Qed.

Lemma strip_idempotent (s : string) : strip (strip s) = strip s.
Proof.
  unfold strip.
  destruct (lstrip_head s) as [E | (c & r & E & Hc)]; rewrite E.
  - reflexivity.
  - destruct (rstrip_head c r Hc) as [r' E'].
    rewrite E', (lstrip_fixed c r' Hc), <- E'.
    apply rstrip_idempotent.
Qed.

(** ** SQLite values and rows *)

Lemma sql_eq_true (a b : SqlVal) :
  sql_eq a b = true -> a = b /\ a <> SqlNull.
Proof.
  destruct a, b; simpl; try discriminate.
  - intros H. apply Z.eqb_eq in H. now subst.
  - intros H. apply String.eqb_eq in H. now subst.
Qed.

Lemma sql_eq_text (v : SqlVal) (s : string) :
  sql_eq v (SqlText s) = true <-> v = SqlText s.
Proof.
  split.
  - intros H. now apply sql_eq_true in H.
  - intros ->. simpl. apply String.eqb_refl.
Qed.

Lemma sql_eq_refl (a : SqlVal) : a <> SqlNull -> sql_eq a a = true.
Proof.
  destruct a; simpl; intros H.
  - congruence.
  - apply Z.eqb_refl.
  - apply String.eqb_refl.
Qed.

Lemma apply_affinity_text (a : affinity) (s : string) :
  apply_affinity a (SqlText s) = SqlText s.
Proof. now destruct a. Qed.

Lemma apply_affinity_null (a : affinity) : apply_affinity a SqlNull = SqlNull.
Proof. now destruct a. Qed.

Lemma mem_In (c : string) (l : list string) : mem c l = true <-> In c l.
Proof.
  unfold mem. rewrite existsb_exists. split.
  - intros (x & Hx & E). apply String.eqb_eq in E. now subst.
  - intros H. exists c. split; [exact H | apply String.eqb_refl].
Qed.

Lemma mem_false (c : string) (l : list string) : mem c l = false <-> ~ In c l.
Proof.
  rewrite <- mem_In. destruct (mem c l); split; congruence.
Qed.

Lemma assoc_None {A : Type} (l : list (string * A)) (k : string) :
  assoc l k = None <-> ~ In k (map fst l).
Proof.
  induction l as [|[k' a] l IH]; simpl.
  - tauto.
  - destruct (String.eqb_spec k' k) as [->|Hne].
    + split; [discriminate | tauto].
    + rewrite IH. tauto.
Qed.

Lemma assoc_app {A : Type} (l1 l2 : list (string * A)) (k : string) :
  assoc (l1 ++ l2)%list k =
  match assoc l1 k with
  | Some a => Some a
  | None => assoc l2 k
  end.
Proof.
  induction l1 as [|[k' a] l1 IH]; simpl; [reflexivity|].
  now destruct (String.eqb k' k).
Qed.

(** Lookup in a row built column by column. *)
Lemma assoc_build {A : Type} (f : column -> A) (cols : list column) (c : column) :
  NoDup (map c_name cols) -> In c cols ->
  assoc (map (fun col => (c_name col, f col)) cols) (c_name c) = Some (f c).
Proof.
  induction cols as [|c0 cols IH]; simpl; [tauto|].
  intros Hnd [-> | Hin].
  - now rewrite String.eqb_refl.
  - inversion Hnd as [|? ? Hnotin Hnd']; subst.
    destruct (String.eqb_spec (c_name c0) (c_name c)) as [E|_].
    + exfalso. apply Hnotin. rewrite E. now apply in_map.
    + now apply IH.
Qed.

Lemma names_build {A : Type} (f : column -> A) (cols : list column) :
  map fst (map (fun col => (c_name col, f col)) cols) = map c_name cols.
Proof. rewrite map_map. reflexivity. Qed.

Lemma cell_extend (r : row) (n c : string) :
  cell (r ++ [(n, SqlNull)])%list c = cell r c.
Proof.
  unfold cell. rewrite assoc_app.
  destruct (assoc r c); [reflexivity|].
  simpl. now destruct (String.eqb n c).
Qed.

Lemma cell_new_column (r : row) (n : string) :
  ~ In n (map fst r) -> cell (r ++ [(n, SqlNull)])%list n = SqlNull.
Proof.
  intros H. rewrite cell_extend. unfold cell.
  apply assoc_None in H. now rewrite H.
Qed.

Lemma names_updated_row (set_cols : list string) (e old : row) :
  map fst (updated_row set_cols e old) = map fst old.
Proof. unfold updated_row. rewrite map_map. reflexivity. Qed.

Lemma cell_updated_row (set_cols : list string) (e old : row) (c : string) :
  In c (map fst old) ->
  cell (updated_row set_cols e old) c =
  if mem c set_cols then cell e c else cell old c.
Proof.
  unfold cell, updated_row.
  induction old as [|[k v] old IH]; simpl; [tauto|].
  intros Hin.
  destruct (String.eqb_spec k c) as [->|Hne]; [reflexivity|].
  apply IH. destruct Hin; congruence.
Qed.

Lemma cell_updated_row_absent (set_cols : list string) (e old : row) (c : string) :
  ~ In c (map fst old) ->
  cell (updated_row set_cols e old) c = cell old c.
Proof.
  intros H. unfold cell.
  assert (H' : ~ In c (map fst (updated_row set_cols e old)))
    by now rewrite names_updated_row.
  apply assoc_None in H, H'. now rewrite H, H'.
Qed.

(** ** Primary keys *)

Lemma keys_equal_eq (k1 k2 : list SqlVal) :
  keys_equal k1 k2 = true -> k1 = k2.
Proof.
  revert k2. induction k1 as [|a k1 IH]; intros [|b k2]; simpl;
    try discriminate; [reflexivity|].
  intros H. apply andb_prop in H as [Hab Hk].
  apply sql_eq_true in Hab as [-> _]. f_equal. now apply IH.
Qed.

Lemma keys_equal_cells (f g : string -> SqlVal) (pk : list string) :
  keys_equal (map f pk) (map g pk) = true ->
  forall c, In c pk -> f c = g c.
Proof.
  induction pk as [|c0 pk IH]; simpl; [tauto|].
  intros H c Hc. apply andb_prop in H as [H0 H].
  destruct Hc as [<- | Hc].
  - now apply sql_eq_true in H0.
  - now apply IH.
Qed.

Lemma conflicts_cells (pk : list string) (r1 r2 : row) :
  conflicts pk r1 r2 = true -> forall c, In c pk -> cell r1 c = cell r2 c.
Proof. apply keys_equal_cells. Qed.

(** Rows with the same key collide with the same rows. *)
Lemma conflicts_same_key (pk : list string) (r r' r0 : row) :
  key_of pk r' = key_of pk r -> conflicts pk r' r0 = conflicts pk r r0.
Proof. unfold conflicts. now intros ->. Qed.

Lemma conflicts_trans (pk : list string) (r1 r2 r3 : row) :
  conflicts pk r1 r2 = true -> conflicts pk r3 r2 = true ->
  conflicts pk r1 r3 = true.
Proof.
  unfold conflicts. intros H12 H32.
  rewrite (keys_equal_eq _ _ H32). exact H12.
Qed.

(** An update on conflict leaves the key of the row as it was. *)
Lemma key_of_updated_row (pk set_cols : list string) (e old : row) :
  conflicts pk old e = true ->
  key_of pk (updated_row set_cols e old) = key_of pk old.
Proof.
  intros H. unfold key_of. apply map_ext_in. intros c Hc.
  destruct (in_dec string_dec c (map fst old)) as [Hin | Hout].
  - rewrite cell_updated_row by exact Hin.
    destruct (mem c set_cols); [|reflexivity].
    symmetry. now apply (conflicts_cells pk).
  - now apply cell_updated_row_absent.
Qed.

Lemma update_conflicting_Some
    (pk set_cols : list string) (e : row) (rows rows' : list row) :
  update_conflicting pk set_cols e rows = Some rows' ->
  exists l1 r l2,
    rows = (l1 ++ r :: l2)%list /\
    rows' = (l1 ++ updated_row set_cols e r :: l2)%list /\
    conflicts pk r e = true.
Proof.
  revert rows'. induction rows as [|r rows IH]; simpl; [discriminate|].
  intros rows'. destruct (conflicts pk r e) eqn:Hc.
  - intros [= <-]. now exists [], r, rows.
  - destruct (update_conflicting pk set_cols e rows) as [rs'|]; [|discriminate].
    intros [= <-]. destruct (IH rs' eq_refl) as (l1 & r1 & l2 & -> & -> & H).
    now exists (r :: l1), r1, l2.
Qed.

Lemma update_conflicting_None
    (pk set_cols : list string) (e : row) (rows : list row) :
  update_conflicting pk set_cols e rows = None ->
  Forall (fun r => conflicts pk r e = false) rows.
Proof.
  induction rows as [|r rows IH]; simpl; [constructor|].
  destruct (conflicts pk r e) eqn:Hc; [discriminate|].
  destruct (update_conflicting pk set_cols e rows); [discriminate|].
  intros _. constructor; [exact Hc | now apply IH].
Qed.

(** What a successful upsert does to a table: the schema stays, and either
    the one row with the key of the new row is updated in place, or no row
    has that key and the new row is appended. *)
Lemma upsert_spec
    (target set_cols : list string) (cells : list (string * SqlVal))
    (t t' : table) :
  upsert target set_cols cells t = Ok t' ->
  let new := inserted_row t cells in
  t_cols t' = t_cols t /\ t_pk t' = t_pk t /\
  ((exists l1 r l2,
      t_rows t = (l1 ++ r :: l2)%list /\
      t_rows t' = (l1 ++ updated_row set_cols new r :: l2)%list /\
      conflicts (t_pk t) r new = true)
   \/ (t_rows t' = (t_rows t ++ [new])%list /\
       Forall (fun r => conflicts (t_pk t) r new = false) (t_rows t))).
Proof.
  intros H new. unfold upsert in H.
  destruct (negb _); [discriminate|].
  destruct (violates_not_null _ _); [discriminate|].
  fold new in H.
  destruct (update_conflicting (t_pk t) set_cols new (t_rows t)) as [rows'|] eqn:E;
    injection H as <-; simpl; (split; [reflexivity|split; [reflexivity|]]).
  - left. now apply update_conflicting_Some in E.
  - right. split; [reflexivity|]. now apply update_conflicting_None in E.
Qed.

Lemma upsert_checks
    (target set_cols : list string) (cells : list (string * SqlVal))
    (t t' : table) :
  upsert target set_cols cells t = Ok t' ->
  forallb (has_column t) (map fst cells) = true /\
  forallb (has_column t) set_cols = true /\
  same_columns target (t_pk t) = true /\
  violates_not_null t (inserted_row t cells) = false.
Proof.
  unfold upsert, prepared. intros H.
  destruct (forallb (has_column t) (map fst cells)); [|discriminate].
  destruct (forallb (has_column t) set_cols); [|discriminate].
  destruct (same_columns target (t_pk t)); [|discriminate].
  simpl in H.
  destruct (violates_not_null t (inserted_row t cells)); [discriminate|].
  auto.
Qed.

Lemma filter_none {A : Type} (P : A -> bool) (l : list A) :
  Forall (fun x => P x = false) l -> filter P l = [].
Proof.
  induction 1 as [|x l Hx _ IH]; simpl; [reflexivity|].
  now rewrite Hx.
Qed.

Lemma filter_singleton {A : Type} (P : A -> bool) (l : list A) (x : A) :
  (length (filter P l) <= 1)%nat -> In x l -> P x = true -> filter P l = [x].
Proof.
  intros Hlen Hin Hx.
  assert (Hf : In x (filter P l)) by (apply filter_In; auto).
  destruct (filter P l) as [|y [|z l']]; simpl in *.
  - tauto.
  - destruct Hf as [-> | []]. reflexivity.
  - lia.
Qed.

(** Replacing a row by one that a predicate cannot tell from it. *)
Lemma filter_replace {A : Type} (P : A -> bool) (l1 l2 : list A) (x y : A) :
  P y = P x ->
  length (filter P (l1 ++ y :: l2)) = length (filter P (l1 ++ x :: l2)).
Proof.
  intros E. rewrite !filter_app, !length_app. simpl. rewrite E.
  now destruct (P x).
Qed.

Lemma upsert_keys_unique
    (target set_cols : list string) (cells : list (string * SqlVal))
    (t t' : table) :
  keys_unique t -> upsert target set_cols cells t = Ok t' -> keys_unique t'.
Proof.
  intros Hu H r0.
  destruct (upsert_spec _ _ _ _ _ H) as (_ & Hpk & [(l1 & r & l2 & E & E' & Hc) | (E' & Hno)]);
    rewrite Hpk, E'.
  - rewrite (filter_replace (fun x => conflicts (t_pk t) x r0) l1 l2 r).
    + rewrite <- E. apply Hu.
    + apply conflicts_same_key. now apply key_of_updated_row.
  - rewrite filter_app, length_app. simpl.
    destruct (conflicts (t_pk t) (inserted_row t cells) r0) eqn:Hn; simpl.
    + rewrite filter_none; [simpl; lia|].
      eapply Forall_impl; [|exact Hno]. simpl. intros x Hx.
      destruct (conflicts (t_pk t) x r0) eqn:Hx0; [|reflexivity].
      rewrite <- Hx. symmetry. eapply conflicts_trans; eauto.
    + specialize (Hu r0). lia.
Qed.

Lemma names_inserted_row (t : table) (cells : list (string * SqlVal)) :
  map fst (inserted_row t cells) = col_names t.
Proof. unfold inserted_row. apply names_build. Qed.

Lemma upsert_rows_aligned
    (target set_cols : list string) (cells : list (string * SqlVal))
    (t t' : table) :
  rows_aligned t -> upsert target set_cols cells t = Ok t' -> rows_aligned t'.
Proof.
  unfold rows_aligned, col_names. intros Ha H.
  destruct (upsert_spec _ _ _ _ _ H) as (Hcols & _ & [(l1 & r & l2 & E & E' & _) | (E' & _)]);
    rewrite Hcols, E'.
  - rewrite E in Ha. apply Forall_app in Ha as [H1 H2].
    inversion H2 as [|? ? Hr H2']; subst.
    apply Forall_app. split; [exact H1|].
    constructor; [|exact H2']. now rewrite names_updated_row.
  - apply Forall_app. split; [exact Ha|].
    constructor; [apply names_inserted_row | constructor].
Qed.

(** A successful upsert keeps a table well formed. *)
Lemma upsert_table_ok
    (decl : list column) (pk target set_cols : list string)
    (cells : list (string * SqlVal)) (t t' : table) :
  table_ok decl pk t -> upsert target set_cols cells t = Ok t' ->
  table_ok decl pk t'.
Proof.
  intros [Hn Hd Hnn Hpk Hr Hk] H.
  destruct (upsert_spec _ _ _ _ _ H) as (Hcols & Hpk' & _).
  constructor.
  - unfold col_names. now rewrite Hcols.
  - now rewrite Hcols.
  - now rewrite Hcols.
  - congruence.
  - eapply upsert_rows_aligned; eauto.
  - eapply upsert_keys_unique; eauto.
Qed.

(** After a successful upsert exactly one row holds the key of the new row,
    and it carries the new values in the key columns and in the columns of
    the [SET] clause. *)
Lemma upsert_lookup
    (target set_cols : list string) (cells : list (string * SqlVal))
    (t t' : table) :
  keys_unique t -> rows_aligned t ->
  upsert target set_cols cells t = Ok t' ->
  let new := inserted_row t cells in
  conflicts (t_pk t) new new = true ->
  exists r',
    filter (fun r => conflicts (t_pk t) r new) (t_rows t') = [r'] /\
    forall c, In c set_cols \/ In c (t_pk t) -> cell r' c = cell new c.
Proof.
  intros Hu Ha H new Hnew.
  pose proof (upsert_keys_unique _ _ _ _ _ Hu H new) as Hone.
  destruct (upsert_checks _ _ _ _ _ H) as (_ & Hset & _ & _).
  destruct (upsert_spec _ _ _ _ _ H) as (_ & Hpk & [(l1 & r & l2 & E & E' & Hc) | (E' & _)]);
    fold new in E'; rewrite Hpk in Hone.
  - fold new in Hc. exists (updated_row set_cols new r). split.
    + apply filter_singleton; [exact Hone | |].
      * rewrite E'. apply in_or_app. right. now left.
      * rewrite (conflicts_same_key (t_pk t) r); [exact Hc|].
        now apply key_of_updated_row.
    + intros c Hcols.
      assert (Hr : map fst r = col_names t).
      { unfold rows_aligned in Ha. rewrite E in Ha.
        apply Forall_app in Ha as [_ Ha]. now inversion Ha. }
      destruct (mem c set_cols) eqn:Hm.
      * rewrite cell_updated_row, Hm; [reflexivity|].
        rewrite Hr. rewrite forallb_forall in Hset.
        apply mem_In. apply Hset. now apply mem_In.
      * destruct Hcols as [Hcs | Hcpk]; [apply mem_In in Hcs; congruence|].
        transitivity (cell r c); [|now apply (conflicts_cells (t_pk t))].
        destruct (in_dec string_dec c (map fst r)) as [Hin | Hout].
        -- now rewrite cell_updated_row, Hm.
        -- now apply cell_updated_row_absent.
  - exists new. split; [|reflexivity].
    apply filter_singleton; [exact Hone | | exact Hnew].
    rewrite E'. apply in_or_app. right. now left.
Qed.

(** Rows under other keys are not touched by an upsert. *)
Lemma upsert_frame
    (target set_cols : list string) (cells : list (string * SqlVal))
    (t t' : table) (P : row -> bool) :
  upsert target set_cols cells t = Ok t' ->
  (forall r r', key_of (t_pk t) r' = key_of (t_pk t) r -> P r' = P r) ->
  P (inserted_row t cells) = false ->
  filter P (t_rows t') = filter P (t_rows t).
Proof.
  intros H Hkey Hnew.
  destruct (upsert_spec _ _ _ _ _ H) as (_ & _ & [(l1 & r & l2 & E & E' & Hc) | (E' & _)]);
    rewrite E'.
  - rewrite E, !filter_app. simpl.
    assert (Hr : P r = false).
    { rewrite <- Hnew. apply Hkey. now apply keys_equal_eq. }
    rewrite (Hkey r (updated_row set_cols (inserted_row t cells) r)), Hr;
      [reflexivity|].
    now apply key_of_updated_row.
  - rewrite filter_app. simpl. rewrite Hnew. apply app_nil_r.
Qed.

(** The value a declared column takes in the row proposed by an insert. *)
Lemma cell_inserted_row (t : table) (cells : list (string * SqlVal)) (c : column) :
  NoDup (col_names t) -> In c (t_cols t) ->
  cell (inserted_row t cells) (c_name c) =
  match assoc cells (c_name c) with
  | Some v => apply_affinity (c_affinity c) v
  | None => SqlNull
  end.
Proof.
  intros Hn Hin. unfold cell, inserted_row.
  now rewrite (assoc_build _ (t_cols t) c Hn Hin).
Qed.

(** ** Schema initialisation *)

Lemma has_declared (decl : list column) (pk : list string) (t : table) (c : column) :
  table_ok decl pk t -> In c decl -> has_column t (c_name c) = true.
Proof.
  intros Hok Hin. apply mem_In. unfold col_names. apply in_map.
  now apply (ok_decl _ _ _ Hok).
Qed.

Lemma declared_present
    (decl : list column) (pk : list string) (t : table) (names : list string) :
  table_ok decl pk t -> incl names (map c_name decl) ->
  forallb (has_column t) names = true.
Proof.
  intros Hok Hincl. apply forallb_forall. intros n Hn.
  apply Hincl, in_map_iff in Hn as (c & <- & Hc).
  now apply (has_declared decl pk).
Qed.

Lemma key_of_with_affiliations (pk : list string) (r : row) :
  key_of pk (with_affiliations r) = key_of pk r.
Proof.
  unfold key_of, with_affiliations. apply map_ext. intros c.
  apply cell_extend.
Qed.

Lemma new_table_ok (decl : list column) (pk : list string) :
  NoDup (map c_name decl) ->
  table_ok decl pk {| t_cols := decl; t_pk := pk; t_rows := [] |}.
Proof.
  intros Hn. constructor; simpl; auto.
  - apply incl_refl.
  - constructor.
  - intros r0. simpl. lia.
Qed.

Lemma works_columns_NoDup : NoDup (map c_name works_columns).
Proof.
  simpl. repeat (constructor; [simpl; intuition discriminate|]). constructor.
Qed.

Lemma sdg_results_columns_NoDup : NoDup (map c_name sdg_results_columns).
Proof.
  simpl. repeat (constructor; [simpl; intuition discriminate|]). constructor.
Qed.

Lemma works_columns_split (c : column) :
  In c works_columns ->
  In c legacy_works_columns \/ c = text_column "institution_affiliations_json".
Proof.
  simpl. intros H.
  repeat (destruct H as [<- | H]; [tauto|]). contradiction.
Qed.

Lemma legacy_in_works (c : column) :
  In c legacy_works_columns -> In c works_columns.
Proof. unfold legacy_works_columns. intros H. now apply filter_In in H. Qed.

(** A legacy table that already has the newer column is a current one. *)
Lemma legacy_table_current (t : table) :
  table_ok legacy_works_columns ["openalex_id"] t ->
  In (text_column "institution_affiliations_json") (t_cols t) ->
  table_ok works_columns ["openalex_id"] t.
Proof.
  intros [Hn Hd Hnn Hpk Hr Hk] Hin. constructor; auto.
  - intros c Hc. destruct (works_columns_split c Hc) as [Hl | ->]; auto.
  - intros c Hc Hnot. apply legacy_in_works. now apply Hnn.
Qed.

(** Adding the newer column to a legacy table gives a current one. *)
Lemma migrated_table_ok (t : table) :
  table_ok legacy_works_columns ["openalex_id"] t ->
  has_column t "institution_affiliations_json" = false ->
  table_ok works_columns ["openalex_id"]
    {| t_cols := (t_cols t ++ [text_column "institution_affiliations_json"])%list;
       t_pk := t_pk t;
       t_rows := map with_affiliations (t_rows t) |}.
Proof.
  intros [Hn Hd Hnn Hpk Hr Hk] Hno. apply mem_false in Hno.
  constructor; simpl; auto.
  - unfold col_names. simpl. rewrite map_app. simpl.
    apply NoDup_app; [exact Hn | repeat constructor; simpl; tauto |].
    intros a Ha [<- | []]. contradiction.
  - intros c Hc. apply in_or_app.
    destruct (works_columns_split c Hc) as [Hl | ->]; [left; auto | right; now left].
  - intros c Hc Hnot. apply in_app_or in Hc as [Hc | [<- | []]].
    + apply legacy_in_works. now apply Hnn.
    + discriminate.
  - unfold rows_aligned, col_names in *. simpl.
    rewrite Forall_map. eapply Forall_impl; [|exact Hr]. simpl.
    intros r Er. unfold with_affiliations. rewrite !map_app, Er. reflexivity.
  - unfold keys_unique in *. simpl. intros r0.
    rewrite filter_map_swap, length_map.
    rewrite (filter_ext _ (fun r => conflicts (t_pk t) r r0)); [apply Hk|].
    intros r. apply conflicts_same_key, key_of_with_affiliations.
Qed.

(** The first three statements of [_init_schema] create what is missing;
    what remains is the check for the newer column. *)
Lemma init_schema_run
    (conn : connection) (c : option connection)
    (w s : option table) (i : bool) :
  let tw := create_table_if_not_exists works_columns ["openalex_id"] w in
  let ts := create_table_if_not_exists sdg_results_columns
              ["openalex_id"; "model"] s in
  i = true \/ has_column ts "model" = true ->
  _init_schema conn
    {| _CONN := c;
       store := {| works := w; sdg_results := s; idx_sdg_results_model := i |} |}
  = (if negb (has_column tw "institution_affiliations_json")
     then execute_on_works
            (add_column (text_column "institution_affiliations_json"))
     else ret tt)
      {| _CONN := c;
         store := {| works := Some tw; sdg_results := Some ts;
                     idx_sdg_results_model := true |} |}.
Proof.
  intros tw ts Hidx.
  cbv [_init_schema bind get_store set_store create_index_if_not_exists
       query_works lift set_works set_sdg_results store works sdg_results
       idx_sdg_results_model _CONN].
  fold tw. fold ts.
  destruct i; [reflexivity|].
  destruct Hidx as [Hi | Hmodel]; [discriminate|]. now rewrite Hmodel.
Qed.

(** On a store the module can work on, [_init_schema] succeeds and leaves
    the current schema.  No row is added or dropped; rows of [works] are at
    most extended with the newer column. *)
Lemma init_schema_ok (conn : connection) (c : option connection) (db : Db) :
  store_ready db ->
  exists db',
    _init_schema conn {| _CONN := c; store := db |}
    = (Ok tt, {| _CONN := c; store := db' |}) /\
    store_current db' /\
    rows_of (sdg_results db') = rows_of (sdg_results db) /\
    (rows_of (works db') = rows_of (works db) \/
     rows_of (works db') = map with_affiliations (rows_of (works db))).
Proof.
  destruct db as [w s i]. unfold store_ready, store_ok. simpl.
  intros [[Hw Hs] Hcase].
  set (tw := create_table_if_not_exists works_columns ["openalex_id"] w).
  set (ts := create_table_if_not_exists sdg_results_columns ["openalex_id"; "model"] s).
  assert (Hnc : names_column tw "institution_affiliations_json" = true ->
                has_column tw "institution_affiliations_json" = true).
  { subst tw. destruct w; simpl; [exact Hcase | reflexivity]. }
  assert (Hts : table_ok sdg_results_columns ["openalex_id"; "model"] ts).
  { subst ts. destruct s; simpl; [exact Hs|].
    apply new_table_ok, sdg_results_columns_NoDup. }
  assert (Hrs : rows_of (Some ts) = rows_of s) by (subst ts; now destruct s).
  assert (Hmodel : has_column ts "model" = true).
  { apply (has_declared _ _ _ {| c_name := "model"; c_affinity := TEXT; c_notnull := true |} Hts).
    simpl. tauto. }
  assert (Htw : table_ok legacy_works_columns ["openalex_id"] tw /\
                (has_column tw "institution_affiliations_json" = true ->
                 In (text_column "institution_affiliations_json") (t_cols tw))).
  { subst tw. destruct w; simpl; [exact Hw|]. split.
    - pose proof (new_table_ok works_columns ["openalex_id"] works_columns_NoDup)
        as [Hn Hd Hnn Hpk Hr Hk].
      constructor; auto.
      + intros c0 Hc0. now apply legacy_in_works.
      + simpl. intros c0 Hc0 Hnot. exfalso.
        repeat (destruct Hc0 as [<- | Hc0]; [discriminate|]). contradiction.
    - intros _. simpl. tauto. }
  assert (Hrw : rows_of (Some tw) = rows_of w) by (subst tw; now destruct w).
  destruct Htw as [Htw Haff].
  pose proof (init_schema_run conn c w s i (or_intror Hmodel)) as Hrun.
  cbv zeta in Hrun. fold tw in Hrun. fold ts in Hrun.
  rewrite Hrun.
  destruct (has_column tw "institution_affiliations_json") eqn:Hhas;
    cbv [negb execute_on_works ret bind get_store set_store lift set_works
         store works sdg_results idx_sdg_results_model _CONN].
  - exists {| works := Some tw; sdg_results := Some ts; idx_sdg_results_model := true |}.
    split; [reflexivity|]. split; [|split; [exact Hrs | left; exact Hrw]].
    exists tw, ts. simpl.
    split; [reflexivity|]. split; [reflexivity|]. split; [reflexivity|].
    split; [|exact Hts]. apply legacy_table_current; auto.
  - unfold add_column. cbn [c_name c_notnull text_column].
    destruct (names_column tw "institution_affiliations_json");
      [now specialize (Hnc eq_refl) |]. simpl.
    eexists. split; [reflexivity|]. simpl.
    split; [|split; [exact Hrs | right; now rewrite <- Hrw]].
    eexists _, ts. simpl.
    split; [reflexivity|]. split; [reflexivity|]. split; [reflexivity|].
    split; [|exact Hts]. now apply migrated_table_ok.
Qed.

(** ** Acquiring the connection *)

Lemma get_conn_connected (st : process) :
  connected st -> _get_conn st = (Ok Connection, st).
Proof. intros [Hc _]. unfold _get_conn. now rewrite Hc. Qed.

Lemma connected_ok (st : process) : connected st -> process_ok st.
Proof. intros [Hc Hs]. unfold process_ok. now rewrite Hc. Qed.

Lemma connected_ready (st : process) : connected st -> process_ready st.
Proof. intros [Hc Hs]. unfold process_ready. now rewrite Hc. Qed.

Lemma process_ready_ok (st : process) : process_ready st -> process_ok st.
Proof.
  unfold process_ready, process_ok. destruct (_CONN st); [tauto |].
  now intros [H _].
Qed.

(** A name that a table has as written is one that SQLite finds. *)
Lemma nocase_eqb_refl (a : string) : nocase_eqb a a = true.
Proof. induction a as [| x a IH]; simpl; [reflexivity |]. now rewrite Ascii.eqb_refl. Qed.

Lemma has_column_names (t : table) (c : string) :
  has_column t c = true -> names_column t c = true.
Proof.
  unfold has_column, names_column, mem. rewrite !existsb_exists.
  intros (x & Hin & Hx). apply String.eqb_eq in Hx. subst x.
  exists c. split; [exact Hin | apply nocase_eqb_refl].
Qed.

(** The first call connects and migrates; later calls find the state as it
    is. *)
Lemma get_conn_ok (st : process) :
  process_ready st ->
  exists st1,
    _get_conn st = (Ok Connection, st1) /\ connected st1 /\
    (_CONN st <> None -> st1 = st) /\
    rows_of (sdg_results (store st1)) = rows_of (sdg_results (store st)) /\
    (rows_of (works (store st1)) = rows_of (works (store st)) \/
     rows_of (works (store st1))
     = map with_affiliations (rows_of (works (store st)))).
Proof.
  unfold process_ready. destruct st as [[[]|] db]; simpl; intros H.
  - exists {| _CONN := Some Connection; store := db |}.
    repeat split; auto.
  - destruct (init_schema_ok Connection (Some Connection) db H)
      as (db' & Hrun & Hcur & Hs & Hw).
    exists {| _CONN := Some Connection; store := db' |}.
    unfold _get_conn, bind, ret. simpl. rewrite Hrun.
    repeat split; auto. congruence.
Qed.

(** A computation returns only if its first step does. *)
Lemma bind_returns {A B : Type} (m : M A) (k : A -> M B)
    (st st' : process) (b : B) :
  bind m k st = (Ok b, st') ->
  exists a st1, m st = (Ok a, st1) /\ k a st1 = (Ok b, st').
Proof.
  unfold bind. destruct (m st) as [[a | e] st1]; [| discriminate].
  intros H. now exists a, st1.
Qed.

(** On a store whose [works] table has the newer column in another case
    only, the migration raises: when [_get_conn] returns, the store was
    ready. *)
Lemma get_conn_ready (st st1 : process) (conn : connection) :
  process_ok st -> _get_conn st = (Ok conn, st1) -> process_ready st.
Proof.
  unfold process_ok, process_ready, _get_conn.
  destruct st as [[c |] db]; simpl; [tauto |].
  intros Hok H. split; [exact Hok |].
  destruct db as [w s i]. simpl. destruct w as [t |]; [| exact I].
  intros Hnc.
  destruct (has_column t "institution_affiliations_json") eqn:Hhas;
    [reflexivity |]. exfalso.
  destruct Hok as [_ Hs]. simpl in Hs.
  set (ts := create_table_if_not_exists sdg_results_columns
               ["openalex_id"; "model"] s).
  assert (Hts : table_ok sdg_results_columns ["openalex_id"; "model"] ts).
  { subst ts. destruct s; simpl; [exact Hs |].
    apply new_table_ok, sdg_results_columns_NoDup. }
  assert (Hmodel : has_column ts "model" = true).
  { apply (has_declared _ _ _
             {| c_name := "model"; c_affinity := TEXT; c_notnull := true |} Hts).
    simpl. tauto. }
  apply bind_returns in H as (u & st2 & H & _).
  pose proof (init_schema_run Connection (Some Connection) (Some t) s i
                (or_intror Hmodel)) as Hrun.
  cbv zeta in Hrun. cbn [create_table_if_not_exists] in Hrun.
  rewrite Hrun, Hhas in H.
  cbv [negb execute_on_works bind get_store lift store works add_column] in H.
  cbn [c_name text_column] in H. rewrite Hnc in H. discriminate.
Qed.

Lemma get_cached_work_ready
    (openalex_id : string) (st st' : process) (o : option pydict) :
  process_ok st -> get_cached_work openalex_id st = (Ok o, st') ->
  process_ready st.
Proof.
  intros Hok H. apply bind_returns in H as (c & st1 & H & _).
  exact (get_conn_ready st st1 c Hok H).
Qed.

Lemma upsert_work_ready
    (row : pydict) (raw_record : PyVal) (utcnow : datetime) (st st' : process) :
  process_ok st -> upsert_work row raw_record utcnow st = (Ok tt, st') ->
  process_ready st.
Proof.
  intros Hok H. apply bind_returns in H as (c & st1 & H & _).
  exact (get_conn_ready st st1 c Hok H).
Qed.

Lemma get_cached_sdg_result_ready
    (openalex_id model : string) (st st' : process) (o : option pydict) :
  process_ok st -> get_cached_sdg_result openalex_id model st = (Ok o, st') ->
  process_ready st.
Proof.
  intros Hok H. apply bind_returns in H as (c & st1 & H & _).
  exact (get_conn_ready st st1 c Hok H).
Qed.

Lemma upsert_sdg_result_ready
    (openalex_id model : string) (sdg_response sdg_formatted sdg_note : PyVal)
    (utcnow : datetime) (st st' : process) :
  process_ok st ->
  upsert_sdg_result openalex_id model sdg_response sdg_formatted sdg_note utcnow st
  = (Ok tt, st') ->
  process_ready st.
Proof.
  intros Hok H. apply bind_returns in H as (c & st1 & H & _).
  exact (get_conn_ready st st1 c Hok H).
Qed.

(** ** Lookups on a connected process *)

(** Rewrites with the presence of a declared column. *)
Ltac has_col Hok c :=
  let H := fresh "Hcol" in
  pose proof (has_declared _ _ _ c Hok) as H;
  simpl in H; rewrite H by tauto; clear H.

Lemma works_key_filter (t : table) (k : string) (rows : list row) :
  filter (matches t [("openalex_id", SqlText k)]) rows
  = filter (fun r => sql_eq (cell r "openalex_id") (SqlText k)) rows.
Proof.
  apply filter_ext. intros r. unfold matches. simpl.
  rewrite apply_affinity_text. apply andb_true_r.
Qed.

Lemma sdg_key_filter (t : table) (k m : string) (rows : list row) :
  filter (matches t [("openalex_id", SqlText k); ("model", SqlText m)]) rows
  = filter (fun r => sql_eq (cell r "openalex_id") (SqlText k)
                     && sql_eq (cell r "model") (SqlText m)) rows.
Proof.
  apply filter_ext. intros r. unfold matches. simpl.
  rewrite !apply_affinity_text. now rewrite andb_true_r.
Qed.

Lemma get_cached_work_connected (openalex_id : string) (st : process) :
  connected st ->
  get_cached_work openalex_id st
  = (Ok (option_map dict_of_row
           (fetchone (works_rows_with (strip openalex_id) (store st)))), st).
Proof.
  intros Hc. pose proof (get_conn_connected st Hc) as Hrun.
  destruct Hc as [_ (tw & ts & Hw & _ & _ & Hok & _)].
  unfold get_cached_work, bind. rewrite Hrun.
  unfold query_works, bind, get_store, lift, ret. rewrite Hw.
  unfold select_where. simpl map. simpl forallb.
  has_col Hok (text_column "openalex_id").
  simpl. rewrite works_key_filter. unfold works_rows_with. now rewrite Hw.
Qed.

Lemma hd_error_map {A B : Type} (f : A -> B) (l : list A) :
  hd_error (map f l) = option_map f (hd_error l).
Proof. now destruct l. Qed.

Lemma get_cached_sdg_result_connected (openalex_id model : string) (st : process) :
  connected st ->
  get_cached_sdg_result openalex_id model st
  = (Ok (option_map (fun r => dict_of_row (sdg_projection r))
           (fetchone (sdg_rows_with (strip openalex_id) (strip model) (store st)))),
     st).
Proof.
  intros Hc. pose proof (get_conn_connected st Hc) as Hrun.
  destruct Hc as [_ (tw & ts & _ & Hs & _ & _ & Hok)].
  unfold get_cached_sdg_result, bind. rewrite Hrun.
  unfold query_sdg_results, bind, get_store, lift, ret. rewrite Hs.
  unfold select_cols_where, select_where. simpl map. simpl forallb.
  has_col Hok (text_column "sdg_response").
  has_col Hok (text_column "sdg_formatted").
  has_col Hok (text_column "sdg_note").
  has_col Hok (text_column "classified_at").
  has_col Hok {| c_name := "openalex_id"; c_affinity := TEXT; c_notnull := true |}.
  has_col Hok {| c_name := "model"; c_affinity := TEXT; c_notnull := true |}.
  simpl andb. cbv iota. rewrite sdg_key_filter.
  unfold fetchone. rewrite hd_error_map.
  unfold sdg_rows_with. rewrite Hs. simpl rows_of.
  now destruct (hd_error _).
Qed.

(** ** Payloads *)

Lemma bind_payload_assoc (payload : pydict) (values : list (string * SqlVal)) :
  bind_payload payload = Ok values ->
  forall k v, assoc payload k = Some v ->
  exists b, bind_param v = Ok b /\ assoc values k = Some b.
Proof.
  unfold bind_payload. revert values.
  induction payload as [|[k0 v0] payload IH]; simpl; intros values H k v;
    [discriminate|].
  destruct (bind_param v0) as [b0|e] eqn:Eb; [|discriminate].
  destruct (rmap _ payload) as [bs|e] eqn:Er; [|discriminate].
  injection H as <-. simpl.
  destruct (String.eqb k0 k).
  - intros [= <-]. now exists b0.
  - now apply IH.
Qed.


Lemma work_payload_Ok
    (row : pydict) (raw_record : PyVal) (utcnow : datetime) (payload : pydict) :
  work_payload row raw_record utcnow = Ok payload ->
  exists is_oa raw_json,
    flag_value (dict_get row "is_oa") is_oa /\
    raw_json_value raw_record raw_json /\
    payload =
      [ ("openalex_id", dict_get row "openalex_id");
        ("title", dict_get row "title");
        ("publication_date", dict_get row "publication_date");
        ("doi", dict_get row "doi");
        ("type", dict_get row "type");
        ("language", dict_get row "language");
        ("is_oa", is_oa);
        ("oa_status", dict_get row "oa_status");
        ("authors", dict_get row "authors");
        ("institutions", dict_get row "institutions");
        ("institution_affiliations_json",
          dict_get row "institution_affiliations_json");
        ("abstract", dict_get row "abstract");
        ("raw_json", raw_json);
        ("updated_at", PyStr (isoformat_seconds utcnow)) ].
Proof.
  unfold work_payload. intros H.
  destruct (is_not_None (dict_get row "is_oa")) eqn:Hf.
  - destruct (int (dict_get row "is_oa")) as [z|e] eqn:Hz; [|discriminate].
    assert (Hnn : dict_get row "is_oa" <> PyNone)
      by (intros E; rewrite E in Hf; discriminate).
    destruct (truthy raw_record) eqn:Ht.
    + destruct (json_dumps raw_record) as [j|e] eqn:Hj; [|discriminate].
      injection H as <-. exists (PyInt z), (PyStr j).
      split; [now constructor|]. split; [now constructor | reflexivity].
    + injection H as <-. exists (PyInt z), PyNone.
      split; [now constructor|]. split; [now constructor | reflexivity].
  - assert (Hn : dict_get row "is_oa" = PyNone)
      by (destruct (dict_get row "is_oa"); try discriminate; reflexivity).
    destruct (truthy raw_record) eqn:Ht.
    + destruct (json_dumps raw_record) as [j|e] eqn:Hj; [|discriminate].
      injection H as <-. exists PyNone, (PyStr j).
      split; [now constructor|]. split; [now constructor | reflexivity].
    + injection H as <-. exists PyNone, PyNone.
      split; [now constructor|]. split; [now constructor | reflexivity].
Qed.

Lemma sdg_payload_Ok
    (openalex_id model : string) (sdg_response sdg_formatted sdg_note : PyVal)
    (utcnow : datetime) (payload : pydict) :
  sdg_payload openalex_id model sdg_response sdg_formatted sdg_note utcnow
  = Ok payload ->
  exists response,
    response_value sdg_response response /\
    payload =
      [ ("openalex_id", PyStr (strip openalex_id));
        ("model", PyStr (strip model));
        ("sdg_response", response);
        ("sdg_formatted", sdg_formatted);
        ("sdg_note", sdg_note);
        ("classified_at", PyStr (isoformat_seconds utcnow)) ].
Proof.
  unfold sdg_payload. intros H.
  destruct (is_not_None sdg_response) eqn:Hf.
  - destruct (json_dumps sdg_response) as [j|e] eqn:Hj; [|discriminate].
    injection H as <-. exists (PyStr j). split; [|reflexivity].
    constructor; [|exact Hj]. intros E. rewrite E in Hf. discriminate.
  - injection H as <-. exists PyNone. split; [|reflexivity].
    constructor. destruct sdg_response; try discriminate; reflexivity.
Qed.

(** ** Writes on a connected process *)

Lemma upsert_work_connected
    (row : pydict) (raw_record : PyVal) (utcnow : datetime) (st : process) :
  connected st ->
  exists tw,
    works (store st) = Some tw /\
    table_ok works_columns ["openalex_id"] tw /\
    upsert_work row raw_record utcnow st
    = match work_payload row raw_record utcnow with
      | Raise e => (Raise e, st)
      | Ok payload =>
          match bind_payload payload with
          | Raise e => (Raise e, st)
          | Ok values =>
              match upsert ["openalex_id"] (map fst payload) values tw with
              | Ok tw' =>
                  (Ok tt, {| _CONN := _CONN st; store := set_works tw' (store st) |})
              | Raise e => (Raise e, st)
              end
          end
      end.
Proof.
  intros Hc. pose proof (get_conn_connected st Hc) as Hrun.
  destruct Hc as [_ (tw & ts & Hw & _ & _ & Hok & _)].
  exists tw. split; [exact Hw|]. split; [exact Hok|].
  unfold upsert_work, bind. rewrite Hrun. unfold lift.
  destruct (work_payload row raw_record utcnow) as [payload|e] eqn:Hp; [|reflexivity].
  unfold work_statement, execute_on_works, bind, get_store, lift, set_store.
  rewrite Hw. unfold execute_upsert.
  assert (Hprep : prepared ["openalex_id"] (map fst payload) (map fst payload) tw
                  = true).
  { assert (Hnames : map fst payload = map c_name works_columns).
    { destruct (work_payload_Ok _ _ _ _ Hp) as (f & j & _ & _ & ->). reflexivity. }
    rewrite Hnames. unfold prepared.
    rewrite (declared_present works_columns ["openalex_id"] tw _ Hok (incl_refl _)).
    now rewrite (ok_pk _ _ _ Hok). }
  rewrite Hprep.
  destruct (bind_payload payload) as [values|e]; [|reflexivity].
  now destruct (upsert ["openalex_id"] (map fst payload) values tw).
Qed.

Lemma upsert_sdg_result_connected
    (openalex_id model : string) (sdg_response sdg_formatted sdg_note : PyVal)
    (utcnow : datetime) (st : process) :
  connected st ->
  exists ts,
    sdg_results (store st) = Some ts /\
    table_ok sdg_results_columns ["openalex_id"; "model"] ts /\
    upsert_sdg_result openalex_id model sdg_response sdg_formatted sdg_note utcnow st
    = match sdg_payload openalex_id model sdg_response sdg_formatted sdg_note utcnow with
      | Raise e => (Raise e, st)
      | Ok payload =>
          match bind_payload payload with
          | Raise e => (Raise e, st)
          | Ok values =>
              match upsert ["openalex_id"; "model"]
                      ["sdg_response"; "sdg_formatted"; "sdg_note"; "classified_at"]
                      values ts with
              | Ok ts' =>
                  (Ok tt, {| _CONN := _CONN st; store := set_sdg_results ts' (store st) |})
              | Raise e => (Raise e, st)
              end
          end
      end.
Proof.
  intros Hc. pose proof (get_conn_connected st Hc) as Hrun.
  destruct Hc as [_ (tw & ts & _ & Hs & _ & _ & Hok)].
  exists ts. split; [exact Hs|]. split; [exact Hok|].
  unfold upsert_sdg_result, bind. rewrite Hrun. unfold lift.
  destruct (sdg_payload _ _ _ _ _ _) as [payload|e] eqn:Hp; [|reflexivity].
  unfold sdg_statement, execute_on_sdg_results, bind, get_store, lift, set_store.
  rewrite Hs. unfold execute_upsert.
  assert (Hprep : prepared ["openalex_id"; "model"]
                    ["sdg_response"; "sdg_formatted"; "sdg_note"; "classified_at"]
                    (map fst payload) ts = true).
  { assert (Hnames : map fst payload = map c_name sdg_results_columns).
    { destruct (sdg_payload_Ok _ _ _ _ _ _ _ Hp) as (resp & _ & ->). reflexivity. }
    rewrite Hnames. unfold prepared.
    rewrite (declared_present sdg_results_columns ["openalex_id"; "model"] ts _
               Hok (incl_refl _)).
    rewrite (declared_present sdg_results_columns ["openalex_id"; "model"] ts
               ["sdg_response"; "sdg_formatted"; "sdg_note"; "classified_at"] Hok)
      by (intros x Hx; simpl in Hx |- *; tauto).
    now rewrite (ok_pk _ _ _ Hok). }
  rewrite Hprep.
  destruct (bind_payload payload) as [values|e]; [|reflexivity].
  now destruct (upsert _ _ values ts).
Qed.

Lemma connected_set_works (st : process) (tw' : table) :
  connected st -> table_ok works_columns ["openalex_id"] tw' ->
  connected {| _CONN := _CONN st; store := set_works tw' (store st) |}.
Proof.
  intros [Hc (tw & ts & Hw & Hs & Hi & Hokw & Hoks)] Hok'.
  split; [exact Hc|]. exists tw', ts. simpl. auto.
Qed.

Lemma connected_set_sdg_results (st : process) (ts' : table) :
  connected st -> table_ok sdg_results_columns ["openalex_id"; "model"] ts' ->
  connected {| _CONN := _CONN st; store := set_sdg_results ts' (store st) |}.
Proof.
  intros [Hc (tw & ts & Hw & Hs & Hi & Hokw & Hoks)] Hok'.
  split; [exact Hc|]. exists tw, ts'. simpl. auto.
Qed.

(** Whatever its outcome, a write leaves a connected process connected. *)
Lemma upsert_work_keeps_connected
    (row : pydict) (raw_record : PyVal) (utcnow : datetime) (st : process) :
  connected st -> connected (snd (upsert_work row raw_record utcnow st)).
Proof.
  intros Hc.
  destruct (upsert_work_connected row raw_record utcnow st Hc) as (tw & Hw & Hok & ->).
  destruct (work_payload _ _ _) as [payload|e]; [|exact Hc].
  destruct (bind_payload payload) as [values|e]; [|exact Hc].
  destruct (upsert _ _ values tw) as [tw'|e] eqn:E; [|exact Hc].
  simpl. apply connected_set_works; [exact Hc|].
  eapply upsert_table_ok; eauto.
Qed.

Lemma upsert_sdg_result_keeps_connected
    (openalex_id model : string) (sdg_response sdg_formatted sdg_note : PyVal)
    (utcnow : datetime) (st : process) :
  connected st ->
  connected (snd (upsert_sdg_result openalex_id model sdg_response
                    sdg_formatted sdg_note utcnow st)).
Proof.
  intros Hc.
  destruct (upsert_sdg_result_connected openalex_id model sdg_response
              sdg_formatted sdg_note utcnow st Hc) as (ts & Hs & Hok & ->).
  destruct (sdg_payload _ _ _ _ _ _) as [payload|e]; [|exact Hc].
  destruct (bind_payload payload) as [values|e]; [|exact Hc].
  destruct (upsert _ _ values ts) as [ts'|e] eqn:E; [|exact Hc].
  simpl. apply connected_set_sdg_results; [exact Hc|].
  eapply upsert_table_ok; eauto.
Qed.

(** ** What a write stores *)

Lemma works_conflicts (r new : row) (k : string) :
  cell new "openalex_id" = SqlText k ->
  conflicts ["openalex_id"] r new = sql_eq (cell r "openalex_id") (SqlText k).
Proof.
  intros E. unfold conflicts, key_of. simpl. rewrite E. apply andb_true_r.
Qed.

Lemma sdg_conflicts (r new : row) (k m : string) :
  cell new "openalex_id" = SqlText k -> cell new "model" = SqlText m ->
  conflicts ["openalex_id"; "model"] r new
  = sql_eq (cell r "openalex_id") (SqlText k) && sql_eq (cell r "model") (SqlText m).
Proof.
  intros Ek Em. unfold conflicts, key_of. simpl. rewrite Ek, Em.
  now rewrite andb_true_r.
Qed.

(** The effect of a successful [upsert_work] on a connected process: the
    row under the stored key holds the bound values of the payload, and
    rows under other keys are as before. *)
Lemma upsert_work_effect
    (row : pydict) (raw_record : PyVal) (utcnow : datetime) (st st' : process) :
  connected st ->
  upsert_work row raw_record utcnow st = (Ok tt, st') ->
  exists payload values,
    work_payload row raw_record utcnow = Ok payload /\
    bind_payload payload = Ok values /\
    connected st' /\
    sdg_results (store st') = sdg_results (store st) /\
    (forall k,
        stored values (text_column "openalex_id") = SqlText k ->
        exists r,
          works_rows_with k (store st') = [r] /\
          forall c, In c works_columns -> cell r (c_name c) = stored values c) /\
    (forall k,
        stored values (text_column "openalex_id") <> SqlText k ->
        works_rows_with k (store st') = works_rows_with k (store st)).
Proof.
  intros Hc H.
  pose proof (upsert_work_keeps_connected row raw_record utcnow st Hc) as Hc'.
  rewrite H in Hc'. simpl in Hc'.
  destruct (upsert_work_connected row raw_record utcnow st Hc) as (tw & Hw & Hok & E).
  rewrite E in H. clear E.
  destruct (work_payload row raw_record utcnow) as [payload|e] eqn:Hp; [|discriminate].
  destruct (bind_payload payload) as [values|e] eqn:Hv; [|discriminate].
  destruct (upsert _ _ values tw) as [tw'|e] eqn:Hu; [|discriminate].
  injection H as <-.
  exists payload, values. split; [reflexivity|]. split; [exact Hv|].
  split; [exact Hc'|]. split; [reflexivity|].
  destruct Hok as [Hn Hd Hnn Hpk Hr Hk].
  assert (Hnames : map fst payload = map c_name works_columns).
  { destruct (work_payload_Ok _ _ _ _ Hp) as (f & j & _ & _ & ->). reflexivity. }
  assert (Hid : cell (inserted_row tw values) "openalex_id"
                = stored values (text_column "openalex_id")).
  { apply (cell_inserted_row tw values (text_column "openalex_id") Hn).
    apply Hd. simpl. tauto. }
  unfold works_rows_with. simpl. rewrite Hw. simpl. split.
  - intros k Ek. rewrite <- Hid in Ek.
    destruct (upsert_lookup _ _ _ _ _ Hk Hr Hu) as (r & Hone & Hcells).
    { rewrite Hpk, (works_conflicts _ _ k Ek), Ek. apply String.eqb_refl. }
    exists r. split.
    + rewrite <- Hone. apply filter_ext. intros x.
      rewrite Hpk. symmetry. now apply works_conflicts.
    + intros c Hin. rewrite Hcells.
      * apply (cell_inserted_row tw values c Hn). now apply Hd.
      * left. rewrite Hnames. now apply in_map.
  - intros k Hne. rewrite <- Hid in Hne.
    apply (upsert_frame _ _ _ _ _ _ Hu).
    + rewrite Hpk. unfold key_of. simpl. intros r r' [= ->]. reflexivity.
    + destruct (sql_eq _ (SqlText k)) eqn:Eq; [|reflexivity].
      apply sql_eq_text in Eq. contradiction.
Qed.

Lemma upsert_sdg_result_effect
    (openalex_id model : string) (sdg_response sdg_formatted sdg_note : PyVal)
    (utcnow : datetime) (st st' : process) :
  connected st ->
  upsert_sdg_result openalex_id model sdg_response sdg_formatted sdg_note utcnow st
  = (Ok tt, st') ->
  exists payload values,
    sdg_payload openalex_id model sdg_response sdg_formatted sdg_note utcnow
    = Ok payload /\
    bind_payload payload = Ok values /\
    connected st' /\
    works (store st') = works (store st) /\
    (exists r,
        sdg_rows_with (strip openalex_id) (strip model) (store st') = [r] /\
        forall c, In c sdg_results_columns -> cell r (c_name c) = stored values c) /\
    (forall k m,
        (k, m) <> (strip openalex_id, strip model) ->
        sdg_rows_with k m (store st') = sdg_rows_with k m (store st)).
Proof.
  intros Hc H.
  pose proof (upsert_sdg_result_keeps_connected openalex_id model sdg_response
                sdg_formatted sdg_note utcnow st Hc) as Hc'.
  rewrite H in Hc'. simpl in Hc'.
  destruct (upsert_sdg_result_connected openalex_id model sdg_response
              sdg_formatted sdg_note utcnow st Hc) as (ts & Hs & Hok & E).
  rewrite E in H. clear E.
  destruct (sdg_payload _ _ _ _ _ _) as [payload|e] eqn:Hp; [|discriminate].
  destruct (bind_payload payload) as [values|e] eqn:Hv; [|discriminate].
  destruct (upsert _ _ values ts) as [ts'|e] eqn:Hu; [|discriminate].
  injection H as <-.
  exists payload, values. split; [reflexivity|]. split; [exact Hv|].
  split; [exact Hc'|]. split; [reflexivity|].
  destruct Hok as [Hn Hd Hnn Hpk Hr Hk].
  destruct (sdg_payload_Ok _ _ _ _ _ _ _ Hp) as (resp & _ & Epay).
  assert (Hcell : forall c, In c sdg_results_columns ->
                    cell (inserted_row ts values) (c_name c) = stored values c).
  { intros c Hin. apply (cell_inserted_row ts values c Hn). now apply Hd. }
  assert (Hid : cell (inserted_row ts values) "openalex_id"
                = SqlText (strip openalex_id)).
  { etransitivity;
      [apply (Hcell {| c_name := "openalex_id"; c_affinity := TEXT; c_notnull := true |});
       simpl; tauto|].
    unfold stored. simpl.
    destruct (bind_payload_assoc _ _ Hv "openalex_id" (PyStr (strip openalex_id)))
      as (b & Hb & ->); [now rewrite Epay|].
    simpl in Hb. now injection Hb as <-. }
  assert (Hm : cell (inserted_row ts values) "model" = SqlText (strip model)).
  { etransitivity;
      [apply (Hcell {| c_name := "model"; c_affinity := TEXT; c_notnull := true |});
       simpl; tauto|].
    unfold stored. simpl.
    destruct (bind_payload_assoc _ _ Hv "model" (PyStr (strip model)))
      as (b & Hb & ->); [now rewrite Epay|].
    simpl in Hb. now injection Hb as <-. }
  unfold sdg_rows_with. simpl. rewrite Hs. simpl. split.
  - destruct (upsert_lookup _ _ _ _ _ Hk Hr Hu) as (r & Hone & Hcells).
    { rewrite Hpk, (sdg_conflicts _ _ _ _ Hid Hm), Hid, Hm. simpl.
      now rewrite !String.eqb_refl. }
    exists r. split.
    + rewrite <- Hone. apply filter_ext. intros x.
      rewrite Hpk. symmetry. now apply sdg_conflicts.
    + intros c Hin. rewrite Hcells; [now apply Hcell|].
      rewrite Hpk. simpl in Hin. simpl.
      repeat (destruct Hin as [<- | Hin]; [simpl; tauto|]). contradiction.
  - intros k m Hne.
    apply (upsert_frame _ _ _ _ _ _ Hu).
    + rewrite Hpk. unfold key_of. simpl. intros r r' [= -> ->]. reflexivity.
    + rewrite Hid, Hm. simpl.
      destruct (String.eqb_spec (strip openalex_id) k) as [<-|]; [|reflexivity].
      destruct (String.eqb_spec (strip model) m) as [<-|]; [|reflexivity].
      contradiction.
Qed.

(** ** Writes that cannot fail *)




(** ** From any process state to a connected one *)

(** A function that starts with [_get_conn] behaves on a process as it does
    on the connected process that [_get_conn] leaves. *)
Lemma enter {A : Type} (body : connection -> M A) (st st1 : process) :
  _get_conn st = (Ok Connection, st1) -> connected st1 ->
  (conn <- _get_conn ;; body conn) st = (conn <- _get_conn ;; body conn) st1.
Proof.
  intros Hrun Hc. unfold bind.
  now rewrite Hrun, (get_conn_connected st1 Hc).
Qed.

Lemma dict_get_of_row (r : row) (c : string) :
  dict_get (dict_of_row r) c = py_of_sql (cell r c).
Proof.
  unfold cell, dict_of_row. induction r as [|[k v] r IH]; simpl; [reflexivity|].
  now destruct (String.eqb k c).
Qed.

Lemma filter_with_affiliations (P : string -> SqlVal -> bool) (rows : list row) :
  filter (fun r => P "openalex_id" (cell r "openalex_id"))
         (map with_affiliations rows)
  = map with_affiliations
        (filter (fun r => P "openalex_id" (cell r "openalex_id")) rows).
Proof.
  rewrite filter_map_swap. f_equal. apply filter_ext. intros r.
  unfold with_affiliations. now rewrite cell_extend.
Qed.

(** Connecting does not add rows under a key. *)
Lemma get_conn_keeps_absent (st st1 : process) (k : string) :
  (rows_of (works (store st1)) = rows_of (works (store st)) \/
   rows_of (works (store st1)) = map with_affiliations (rows_of (works (store st)))) ->
  works_rows_with k (store st) = [] -> works_rows_with k (store st1) = [].
Proof.
  unfold works_rows_with. intros [-> | ->]; [tauto|].
  intros H.
  rewrite (filter_with_affiliations (fun _ v => sql_eq v (SqlText k))), H.
  reflexivity.
Qed.

Lemma get_cached_work_enter (openalex_id : string) (st st1 : process) :
  _get_conn st = (Ok Connection, st1) -> connected st1 ->
  get_cached_work openalex_id st = get_cached_work openalex_id st1.
Proof. intros H Hc. exact (enter _ st st1 H Hc). Qed.

Lemma get_cached_sdg_result_enter (openalex_id model : string) (st st1 : process) :
  _get_conn st = (Ok Connection, st1) -> connected st1 ->
  get_cached_sdg_result openalex_id model st
  = get_cached_sdg_result openalex_id model st1.
Proof. intros H Hc. exact (enter _ st st1 H Hc). Qed.

Lemma upsert_work_enter
    (row : pydict) (raw_record : PyVal) (utcnow : datetime) (st st1 : process) :
  _get_conn st = (Ok Connection, st1) -> connected st1 ->
  upsert_work row raw_record utcnow st = upsert_work row raw_record utcnow st1.
Proof. intros H Hc. exact (enter _ st st1 H Hc). Qed.

Lemma upsert_sdg_result_enter
    (openalex_id model : string) (sdg_response sdg_formatted sdg_note : PyVal)
    (utcnow : datetime) (st st1 : process) :
  _get_conn st = (Ok Connection, st1) -> connected st1 ->
  upsert_sdg_result openalex_id model sdg_response sdg_formatted sdg_note utcnow st
  = upsert_sdg_result openalex_id model sdg_response sdg_formatted sdg_note
      utcnow st1.
Proof. intros H Hc. exact (enter _ st st1 H Hc). Qed.

(** ** Reading a write back *)

(** After a successful [upsert_work] whose key is the string [k], exactly
    one row is stored under [k]; each declared column of it holds the bound
    value of the payload entry of the same name, under the column's
    affinity. *)
Lemma upsert_work_stores
    (row : pydict) (raw_record : PyVal) (utcnow : datetime)
    (st st' : process) (k : string) :
  process_ok st ->
  upsert_work row raw_record utcnow st = (Ok tt, st') ->
  dict_get row "openalex_id" = PyStr k ->
  connected st' /\
  exists r payload,
    works_rows_with k (store st') = [r] /\
    work_payload row raw_record utcnow = Ok payload /\
    row_holds works_columns payload r.
Proof.
  intros Hok H Hk.
  destruct (get_conn_ok st (upsert_work_ready _ _ _ _ _ Hok H))
    as (st1 & Hrun & Hc & _).
  rewrite (upsert_work_enter _ _ _ st st1 Hrun Hc) in H.
  destruct (upsert_work_effect _ _ _ _ _ Hc H)
    as (payload & values & Hp & Hv & Hc' & _ & Hrow & _).
  split; [exact Hc'|].
  assert (Hkey : stored values (text_column "openalex_id") = SqlText k).
  { destruct (work_payload_Ok _ _ _ _ Hp) as (f & j & _ & _ & Epay).
    destruct (bind_payload_assoc _ _ Hv "openalex_id" (PyStr k)) as (b & Hb & Hb').
    - rewrite Epay. simpl. now rewrite Hk.
    - unfold stored. simpl in *. rewrite Hb'. now injection Hb as <-. }
  destruct (Hrow k Hkey) as (r & Hone & Hcells).
  exists r, payload. split; [exact Hone|]. split; [exact Hp|].
  intros c v Hin Hassoc.
  destruct (bind_payload_assoc _ _ Hv _ _ Hassoc) as (b & Hb & Hb').
  exists b. split; [exact Hb|].
  rewrite (Hcells c Hin). unfold stored. now rewrite Hb'.
Qed.

Lemma upsert_sdg_result_stores
    (openalex_id model : string) (sdg_response sdg_formatted sdg_note : PyVal)
    (utcnow : datetime) (st st' : process) :
  process_ok st ->
  upsert_sdg_result openalex_id model sdg_response sdg_formatted sdg_note utcnow st
  = (Ok tt, st') ->
  connected st' /\
  exists r payload,
    sdg_rows_with (strip openalex_id) (strip model) (store st') = [r] /\
    sdg_payload openalex_id model sdg_response sdg_formatted sdg_note utcnow
    = Ok payload /\
    row_holds sdg_results_columns payload r.
Proof.
  intros Hok H.
  destruct (get_conn_ok st (upsert_sdg_result_ready _ _ _ _ _ _ _ _ Hok H))
    as (st1 & Hrun & Hc & _).
  rewrite (upsert_sdg_result_enter _ _ _ _ _ _ st st1 Hrun Hc) in H.
  destruct (upsert_sdg_result_effect _ _ _ _ _ _ _ _ Hc H)
    as (payload & values & Hp & Hv & Hc' & _ & (r & Hone & Hcells) & _).
  split; [exact Hc'|].
  exists r, payload. split; [exact Hone|]. split; [exact Hp|].
  intros c v Hin Hassoc.
  destruct (bind_payload_assoc _ _ Hv _ _ Hassoc) as (b & Hb & Hb').
  exists b. split; [exact Hb|].
  rewrite (Hcells c Hin). unfold stored. now rewrite Hb'.
Qed.








(** ** Calls that leave a key alone *)

(** A write raises without touching the state, or returns. *)
Lemma upsert_work_outcome
    (row : pydict) (raw_record : PyVal) (utcnow : datetime) (st : process) :
  connected st ->
  (exists e, upsert_work row raw_record utcnow st = (Raise e, st)) \/
  (exists st', upsert_work row raw_record utcnow st = (Ok tt, st')).
Proof.
  intros Hc.
  destruct (upsert_work_connected row raw_record utcnow st Hc) as (tw & _ & _ & ->).
  destruct (work_payload _ _ _) as [payload|e]; [|left; eauto].
  destruct (bind_payload payload) as [values|e]; [|left; eauto].
  destruct (upsert _ _ values tw) as [tw'|e]; [right | left]; eauto.
Qed.

Lemma upsert_sdg_result_outcome
    (openalex_id model : string) (sdg_response sdg_formatted sdg_note : PyVal)
    (utcnow : datetime) (st : process) :
  connected st ->
  (exists e,
      upsert_sdg_result openalex_id model sdg_response sdg_formatted sdg_note
        utcnow st = (Raise e, st)) \/
  (exists st',
      upsert_sdg_result openalex_id model sdg_response sdg_formatted sdg_note
        utcnow st = (Ok tt, st')).
Proof.
  intros Hc.
  destruct (upsert_sdg_result_connected openalex_id model sdg_response
              sdg_formatted sdg_note utcnow st Hc) as (ts & _ & _ & ->).
  destruct (sdg_payload _ _ _ _ _ _) as [payload|e]; [|left; eauto].
  destruct (bind_payload payload) as [values|e]; [|left; eauto].
  destruct (upsert _ _ values ts) as [ts'|e]; [right | left]; eauto.
Qed.

(** Every call, whatever its outcome, leaves a process state the module
    can work on: the hypothesis [process_ready] of the properties below
    holds throughout the life of a process that starts on a database it
    can open. *)
Lemma run_call_ready (c : call) (st : process) :
  process_ready st -> process_ready (run_call c st).
Proof.
  intros Hok.
  destruct (get_conn_ok st Hok) as (st1 & Hrun & Hc & _).
  apply connected_ready.
  destruct c as [id | row raw utcnow | id model | id model resp fmt note utcnow];
    simpl.
  - now rewrite (get_cached_work_enter _ st st1 Hrun Hc),
      (get_cached_work_connected _ st1 Hc).
  - rewrite (upsert_work_enter _ _ _ st st1 Hrun Hc).
    now apply upsert_work_keeps_connected.
  - now rewrite (get_cached_sdg_result_enter _ _ st st1 Hrun Hc),
      (get_cached_sdg_result_connected _ _ st1 Hc).
  - rewrite (upsert_sdg_result_enter _ _ _ _ _ _ st st1 Hrun Hc).
    now apply upsert_sdg_result_keeps_connected.
Qed.

Lemma run_ready (calls : list call) (st : process) :
  process_ready st -> process_ready (run calls st).
Proof.
  revert st. induction calls as [|c calls IH]; intros st Hok; simpl;
    [exact Hok|].
  now apply IH, run_call_ready.
Qed.



(** ** Misses *)

Lemma lookup_absent_work (st : process) (openalex_id : string) :
  process_ready st ->
  exists o st',
    get_cached_work openalex_id st = (Ok o, st') /\
    (works_rows_with (strip openalex_id) (store st) = [] -> o = None).
Proof.
  intros Hok.
  destruct (get_conn_ok st Hok) as (st1 & Hrun & Hc & _ & Hs & Hw).
  rewrite (get_cached_work_enter _ st st1 Hrun Hc),
    (get_cached_work_connected _ st1 Hc).
  eexists _, st1. split; [reflexivity|].
  intros Hnone. now rewrite (get_conn_keeps_absent st st1 _ Hw Hnone).
Qed.

Lemma lookup_absent_sdg (st : process) (openalex_id model : string) :
  process_ready st ->
  exists o st',
    get_cached_sdg_result openalex_id model st = (Ok o, st') /\
    (sdg_rows_with (strip openalex_id) (strip model) (store st) = [] -> o = None).
Proof.
  intros Hok.
  destruct (get_conn_ok st Hok) as (st1 & Hrun & Hc & _ & Hs & Hw).
  rewrite (get_cached_sdg_result_enter _ _ st st1 Hrun Hc),
    (get_cached_sdg_result_connected _ _ st1 Hc).
  eexists _, st1. split; [reflexivity|].
  unfold sdg_rows_with. rewrite Hs. now intros ->.
Qed.

(** Lookups ignore whitespace around their keys. *)
Lemma lookups_trim (openalex_id model : string) (st : process) :
  get_cached_work (strip openalex_id) st = get_cached_work openalex_id st /\
  get_cached_sdg_result (strip openalex_id) (strip model) st
  = get_cached_sdg_result openalex_id model st.
Proof.
  unfold get_cached_work, get_cached_sdg_result. now rewrite !strip_idempotent.
Qed.

(** ** Migration and failures *)

Lemma Forall2_with_affiliations (rows : list row) :
  Forall (fun r => ~ In "institution_affiliations_json" (map fst r)) rows ->
  Forall2 (fun r r' =>
             map fst r' = (map fst r ++ ["institution_affiliations_json"])%list /\
             cell r' "institution_affiliations_json" = SqlNull /\
             forall col, cell r' col = cell r col)
          rows (map with_affiliations rows).
Proof.
  induction 1 as [|r rows Hr _ IH]; simpl; constructor; [|exact IH].
  unfold with_affiliations. split; [|split].
  - now rewrite map_app.
  - now apply cell_new_column.
  - intros col. apply cell_extend.
Qed.

Lemma work_payload_raises
    (row : pydict) (raw_record : PyVal) (utcnow : datetime) (e : exn) :
  truthy raw_record = true -> json_dumps raw_record = Raise e ->
  exists e',
    work_payload row raw_record utcnow = Raise e' /\
    (forall f, flag_value (dict_get row "is_oa") f -> e' = e).
Proof.
  intros Ht Hj. unfold work_payload. rewrite Ht, Hj.
  destruct (is_not_None (dict_get row "is_oa")) eqn:Hn.
  - destruct (int (dict_get row "is_oa")) as [z|e0] eqn:Hz.
    + exists e. auto.
    + exists e0. split; [reflexivity|].
      intros f [Hnone | z Hnn Hz']; [|congruence].
      rewrite Hnone in Hn. discriminate.
  - exists e. auto.
Qed.

Lemma sdg_payload_raises
    (openalex_id model : string) (sdg_response sdg_formatted sdg_note : PyVal)
    (utcnow : datetime) (e : exn) :
  sdg_response <> PyNone -> json_dumps sdg_response = Raise e ->
  sdg_payload openalex_id model sdg_response sdg_formatted sdg_note utcnow
  = Raise e.
Proof.
  intros Hnn Hj. unfold sdg_payload. rewrite Hj.
  assert (E : is_not_None sdg_response = true)
    by (destruct sdg_response eqn:E0; try reflexivity; congruence).
  now rewrite E.
Qed.

(** ** Concurrent puts *)

Lemma nth_error_update {A : Type} (l : list A) (i j : nat) (x0 x : A) :
  nth_error l i = Some x0 ->
  nth_error (update l i x) j = if Nat.eqb j i then Some x else nth_error l j.
Proof.
  revert i j. induction l as [|a l IH]; intros [|i] [|j]; simpl;
    try discriminate; try reflexivity.
  intros H. now apply IH.
Qed.

Lemma map_fst_update {A B : Type} (l : list (A * B)) (i : nat) (a : A) (b b' : B) :
  nth_error l i = Some (a, b) -> map fst (update l i (a, b')) = map fst l.
Proof.
  revert i. induction l as [|x l IH]; intros [|i]; simpl; try discriminate.
  - now intros [= ->].
  - intros H. f_equal. now apply IH.
Qed.

Lemma nth_error_map_fst {A B : Type} (l : list (A * B)) (i : nat) (a : A) (b : B) :
  nth_error l i = Some (a, b) -> nth_error (map fst l) i = Some a.
Proof. intros H. rewrite nth_error_map, H. reflexivity. Qed.

(** On a connected process a put is its payload followed by its statement. *)
Lemma upsert_work_statement
    (row : pydict) (raw_record : PyVal) (utcnow : datetime) (d : pydict)
    (v : process) :
  connected v -> work_payload row raw_record utcnow = Ok d ->
  upsert_work row raw_record utcnow v = work_statement d v.
Proof.
  intros Hc Hp. unfold upsert_work, bind.
  rewrite (get_conn_connected v Hc). unfold lift. now rewrite Hp.
Qed.

Lemma upsert_sdg_result_statement
    (openalex_id model : string) (sdg_response sdg_formatted sdg_note : PyVal)
    (utcnow : datetime) (d : pydict) (v : process) :
  connected v ->
  sdg_payload openalex_id model sdg_response sdg_formatted sdg_note utcnow = Ok d ->
  upsert_sdg_result openalex_id model sdg_response sdg_formatted sdg_note utcnow v
  = sdg_statement d v.
Proof.
  intros Hc Hp. unfold upsert_sdg_result, bind.
  rewrite (get_conn_connected v Hc). unfold lift. now rewrite Hp.
Qed.


Section Interleaving.

Variables (calls : list call) (key : cache_key) (st0 : process).
Hypothesis Hputs : forall c, In c calls -> put_key c = Some key.


(** Splits a fact about thread [j] of the new configuration into the case
    of the thread that stepped and the case of another thread. *)
Ltac thread Hupd Hj :=
  rewrite Hupd in Hj;
  match type of Hj with
  | (if Nat.eqb ?j ?i then _ else _) = _ =>
      destruct (Nat.eqb_spec j i) as [-> | ?]
  end.

(** The thread that stepped is where the step left it. *)
Ltac stepped Hupd :=
  rewrite Hupd, Nat.eqb_refl; reflexivity.

(** No thread that was outside the statement has entered it. *)
Ltac still_clean Hupd Hnone Hnth i :=
  let j := fresh "j" in
  let cj := fresh "cj" in
  let d := fresh "d" in
  let Hj := fresh "Hj" in
  intros j cj d Hj; apply (Hnone j cj d); rewrite Hupd;
  destruct (Nat.eqb_spec j i) as [-> | _]; [congruence | exact Hj].



End Interleaving.

Lemma steps_first (cfg cfg' cfg'' : config) :
  step cfg cfg' -> steps cfg' cfg'' -> steps cfg cfg''.
Proof.
  intros H Hs. induction Hs as [cfg' | cfg' cfg1 cfg2 _ IH Hlast].
  - eapply steps_step; [apply steps_refl | exact H].
  - eapply steps_step; [now apply IH | exact Hlast].
Qed.

(** A schedule that can be run is a run of the threads. *)
Lemma run_schedule_steps (schedule : list nat) (cfg cfg' : config) :
  run_schedule schedule cfg = Some cfg' -> steps cfg cfg'.
Proof.
  revert cfg. induction schedule as [|i rest IH]; intros cfg; simpl.
  - intros [= <-]. apply steps_refl.
  - destruct (nth_error (threads cfg) i) as [[c p]|] eqn:Hnth; [|discriminate].
    destruct (thread_step i c p (sh cfg)) as [[p' s']|] eqn:Hstep; [|discriminate].
    intros H. eapply steps_first; [|apply IH; exact H].
    destruct cfg as [ts s]. now apply (step_thread i c p p').
Qed.

(** A put that runs alone in the thread model does what the function does:
    it ends in the state that the call leaves, with the lock free, having
    returned if the call returns and raised if it raises. *)
Lemma solo_put_agrees (c : call) (key : cache_key) (st : process) :
  connected st -> put_key c = Some key ->
  exists schedule cfg p,
    run_schedule schedule (initial [c] st) = Some cfg /\
    threads cfg = [(c, p)] /\
    view (sh cfg) = run_call c st /\ _LOCK (sh cfg) = None /\
    match p with
    | Returned => disk (sh cfg) = store (run_call c st)
    | Raised e => disk (sh cfg) = store st /\ run_call c st = st
    | _ => False
    end.
Proof.
  intros Hc Hkey.
  assert (Hconn : _CONN st = Some Connection) by apply Hc.
  assert (Hrun : exists payload statement,
             (forall p s, thread_step 0 c p s = put_step 0 payload statement p s) /\
             run_call c st
             = match payload with
               | Ok d => snd (statement d st)
               | Raise _ => st
               end /\
             (forall d e v, payload = Ok d -> statement d st = (Raise e, v) -> v = st)).
  { destruct c as [id | row raw utcnow | id model | id model resp fmt note utcnow];
      simpl in Hkey; try discriminate.
    - exists (work_payload row raw utcnow), work_statement.
      split; [reflexivity|]. split.
      + simpl. destruct (work_payload row raw utcnow) as [d|e] eqn:Hp.
        * now rewrite (upsert_work_statement row raw utcnow d st Hc Hp).
        * destruct (upsert_work_connected row raw utcnow st Hc) as (tw & _ & _ & ->).
          now rewrite Hp.
      + intros d e v Hp Hs.
        rewrite <- (upsert_work_statement row raw utcnow d st Hc Hp) in Hs.
        destruct (upsert_work_outcome row raw utcnow st Hc) as [[e0 E] | [st' E]];
          rewrite E in Hs; congruence.
    - exists (sdg_payload id model resp fmt note utcnow), sdg_statement.
      split; [reflexivity|]. split.
      + simpl. destruct (sdg_payload id model resp fmt note utcnow) as [d|e] eqn:Hp.
        * now rewrite (upsert_sdg_result_statement id model resp fmt note utcnow
                         d st Hc Hp).
        * destruct (upsert_sdg_result_connected id model resp fmt note utcnow st Hc)
            as (ts & _ & _ & ->).
          now rewrite Hp.
      + intros d e v Hp Hs.
        rewrite <- (upsert_sdg_result_statement id model resp fmt note utcnow
                      d st Hc Hp) in Hs.
        destruct (upsert_sdg_result_outcome id model resp fmt note utcnow st Hc)
          as [[e0 E] | [st' E]]; rewrite E in Hs; congruence. }
  destruct Hrun as (payload & statement & Hstep & Hcall & Hraise).
  destruct payload as [d|e].
  - destruct (statement d st) as [[u|e] v] eqn:Hs.
    + exists [0; 0; 0; 0; 0]%nat. eexists. exists Returned.
      simpl. rewrite !Hstep. simpl. rewrite Hconn. simpl.
      rewrite !Hstep. simpl. rewrite !Hstep. simpl. rewrite Hs. simpl.
      rewrite !Hstep. simpl. rewrite !Hstep. simpl.
      split; [reflexivity|]. simpl. rewrite Hcall. auto.
    + exists [0; 0; 0; 0]%nat. eexists. exists (Raised e).
      simpl. rewrite !Hstep. simpl. rewrite Hconn. simpl.
      rewrite !Hstep. simpl. rewrite !Hstep. simpl. rewrite Hs. simpl.
      rewrite !Hstep. simpl.
      split; [reflexivity|]. simpl. rewrite Hcall.
      rewrite (Hraise d e v eq_refl Hs). auto.
  - exists [0]%nat. eexists. exists (Raised e).
    simpl. rewrite !Hstep. simpl. rewrite Hconn. simpl.
    split; [reflexivity|]. simpl. rewrite Hcall. auto.
Qed.

(** ** Sample stores *)

Lemma fresh_ready : process_ready fresh.
Proof. vm_compute. tauto. Qed.

Lemma cased_db_ok : store_ok cased_db.
Proof.
  split; [|exact I]. split.
  - constructor.
    + simpl. repeat (constructor; [simpl; intuition discriminate|]). constructor.
    + intros c Hc. apply in_or_app. now left.
    + simpl. intros c0 Hc0 Hnot. exfalso.
      repeat (destruct Hc0 as [<- | Hc0]; [discriminate|]). contradiction.
    + reflexivity.
    + repeat constructor.
    + intros r0. simpl. destruct (conflicts _ _ _); simpl; lia.
  - intros H. discriminate H.
Qed.

(** The migration compares the names that [table_info] reports as they are
    written, [ALTER TABLE] as SQLite does.  On [cased_db] the first call of
    any of the four functions therefore raises ("duplicate column name");
    the tables and the index that were created before stay, and so does
    the connection, so that later lookups return. *)
Example cased_db_cannot_be_opened :
  let st := {| _CONN := None; store := cased_db |} in
  process_ok st /\ ~ process_ready st /\
  fst (_get_conn st) = Raise Sqlite3Error /\
  fst (get_cached_work "W1" st) = Raise Sqlite3Error /\
  fst (upsert_sdg_result "W1" "model-a" PyNone PyNone PyNone sample_time st)
  = Raise Sqlite3Error /\
  _CONN (snd (_get_conn st)) = Some Connection /\
  (exists d, fst (get_cached_work "W1" (snd (_get_conn st))) = Ok (Some d)) /\
  fst (get_cached_sdg_result "W1" "model-a" (snd (_get_conn st))) = Ok None.
Proof.
  intros st. split; [exact cased_db_ok |]. split.
  - intros [_ H]. specialize (H eq_refl). discriminate H.
  - repeat split. eexists. reflexivity.
Qed.

(** * The claims *)




(** C2, evaluated.  [upsert_work] stores the identifier as it is given,
    whitespace included, while [get_cached_work] trims the identifier it
    looks up: a work written under [" W1 "] is stored under [" W1 "] and is
    found neither by [get_cached_work(" W1 ")] nor by
    [get_cached_work("W1")].  The classification cache trims on both sides:
    a result written under [" W1 "] is found under ["W1"]. *)
Lemma upsert_work_keeps_whitespace :
  let st' := snd (upsert_work paper_padded PyNone sample_time fresh) in
  fst (upsert_work paper_padded PyNone sample_time fresh) = Ok tt /\
  length (works_rows_with " W1 " (store st')) = 1%nat /\
  works_rows_with "W1" (store st') = [] /\
  fst (get_cached_work " W1 " st') = Ok None /\
  fst (get_cached_work "W1" st') = Ok None /\
  fst (get_cached_sdg_result "W1" "model-a"
         (snd (upsert_sdg_result " W1 " " model-a" PyNone (PyStr "SDG 3")
                 (PyStr EmptyString) sample_time fresh)))
  = Ok (Some [ ("sdg_response", PyNone); ("sdg_formatted", PyStr "SDG 3");
               ("sdg_note", PyStr EmptyString);
               ("classified_at", PyStr (isoformat_seconds sample_time)) ]).
Proof. repeat split. Qed.

(** C3.  A second [upsert_work] under the same identifier replaces the row:
    afterwards exactly one row is stored under the identifier, every column
    of the module's schema holds the value bound from the payload of the
    second write, and so a field that the second write omits or gives as
    [None] (the raw payload included) is NULL, whatever the first write
    stored.  Lookups of that identifier return this row. *)
Theorem second_put_overwrites
    (st st1 st2 : process) (row1 row2 : pydict) (raw1 raw2 : PyVal)
    (now1 now2 : datetime) (k : string) :
  process_ok st ->
  dict_get row1 "openalex_id" = PyStr k ->
  dict_get row2 "openalex_id" = PyStr k ->
  upsert_work row1 raw1 now1 st = (Ok tt, st1) ->
  upsert_work row2 raw2 now2 st1 = (Ok tt, st2) ->
  exists r payload,
    works_rows_with k (store st2) = [r] /\
    work_payload row2 raw2 now2 = Ok payload /\
    row_holds works_columns payload r /\
    (forall c, In c ("is_oa" :: text_fields) ->
               dict_get row2 c = PyNone -> cell r c = SqlNull) /\
    (truthy raw2 = false -> cell r "raw_json" = SqlNull) /\
    (forall openalex_id, strip openalex_id = k ->
       get_cached_work openalex_id st2 = (Ok (Some (dict_of_row r)), st2)).
Proof.
  intros Hok Hk1 Hk2 Hput1 Hput2.
  destruct (upsert_work_stores _ _ _ _ _ _ Hok Hput1 Hk1) as (Hc1 & _).
  destruct (upsert_work_stores _ _ _ _ _ _ (connected_ok _ Hc1) Hput2 Hk2)
    as (Hc2 & r & payload & Hone & Hp & Hcells).
  exists r, payload. split; [exact Hone|]. split; [exact Hp|].
  split; [exact Hcells|].
  destruct (work_payload_Ok _ _ _ _ Hp) as (f & j & Hf & Hj & Epay).
  split; [|split].
  - intros c Hin Hnone.
    assert (Hcol : exists col, In col works_columns /\ c_name col = c /\
                               assoc payload c = Some PyNone).
    { rewrite Epay. simpl in Hin.
      destruct Hin as [<- | Hin].
      - eexists. split; [do 6 right; left; reflexivity|]. split; [reflexivity|].
        simpl. destruct Hf as [_ | z Hnn _]; [reflexivity | now elim Hnn].
      - repeat (destruct Hin as [<- | Hin];
                [match goal with
                 | |- exists col, _ /\ c_name col = ?n /\ _ =>
                     exists (text_column n)
                 end;
                 split; [simpl; tauto|];
                 split; [reflexivity|]; simpl; now rewrite Hnone|]).
        contradiction. }
    destruct Hcol as (col & Hcol & <- & Hassoc).
    destruct (Hcells col PyNone Hcol Hassoc) as (b & Hb & ->).
    simpl in Hb. injection Hb as <-. apply apply_affinity_null.
  - intros Hfalsy.
    destruct (Hcells (text_column "raw_json") j) as (b & Hb & Hcell);
      [simpl; tauto | now rewrite Epay |].
    simpl in Hcell. rewrite Hcell.
    destruct Hj as [_ | j' Ht _]; [|congruence].
    simpl in Hb. now injection Hb as <-.
  - intros openalex_id <-.
    rewrite (get_cached_work_connected _ st2 Hc2), Hone. reflexivity.
Qed.

Lemma second_put_overwrites_witness :
  exists r payload,
    works_rows_with "W1"
      (store (snd (upsert_work paper_a_revised PyNone later_time
                     (snd (upsert_work paper_a raw_a sample_time fresh))))) = [r] /\
    work_payload paper_a_revised PyNone later_time = Ok payload /\
    cell r "title" = SqlText "Paper A revised" /\
    cell r "is_oa" = SqlNull /\ cell r "authors" = SqlNull /\
    cell r "raw_json" = SqlNull.
Proof.
  destruct (second_put_overwrites fresh
              (snd (upsert_work paper_a raw_a sample_time fresh))
              (snd (upsert_work paper_a_revised PyNone later_time
                      (snd (upsert_work paper_a raw_a sample_time fresh))))
              paper_a paper_a_revised raw_a PyNone sample_time later_time "W1")
    as (r & payload & Hone & Hp & Hcells & Hnull & Hraw & _).
  - vm_compute. split; exact I.
  - reflexivity.
  - reflexivity.
  - reflexivity.
  - reflexivity.
  - exists r, payload. split; [exact Hone|]. split; [exact Hp|].
    split.
    + destruct (Hcells (text_column "title") (PyStr "Paper A revised"))
        as (b & Hb & Hcell).
      * simpl. tauto.
      * vm_compute in Hp. injection Hp as <-. reflexivity.
      * simpl in Hb, Hcell. rewrite Hcell. now injection Hb as <-.
    + split; [|split].
      * apply Hnull; [simpl; tauto | reflexivity].
      * apply Hnull; [simpl; tauto | reflexivity].
      * apply Hraw. reflexivity.
Defined.



(** C4 as stated fails for pairs that differ in surrounding whitespace
    only: no put was made for the pair [("W1", "model-a")], only one for the
    different pair [(" W1", "model-a ")], and still the get for
    [("W1", "model-a")] returns that put's result instead of [None]. *)
Lemma sdg_get_put_counterexample :
  (" W1", "model-a ") <> ("W1", "model-a") /\
  fst (get_cached_sdg_result "W1" "model-a" fresh) = Ok None /\
  fst (upsert_sdg_result " W1" "model-a " response_a (PyStr "SDG 3") PyNone
         sample_time fresh) = Ok tt /\
  fst (get_cached_sdg_result "W1" "model-a"
         (snd (upsert_sdg_result " W1" "model-a " response_a (PyStr "SDG 3")
                 PyNone sample_time fresh)))
  = Ok (Some [ ("sdg_response", PyStr response_a_json);
               ("sdg_formatted", PyStr "SDG 3");
               ("sdg_note", PyNone);
               ("classified_at", PyStr (isoformat_seconds sample_time)) ]).
Proof. split; [discriminate |]. repeat split. Qed.



(** C5 as stated fails for model identifiers that differ in surrounding
    whitespace only: the puts for the models ["model-a"] and [" model-a"]
    both return, and they leave one row, not two. *)
Lemma composite_key_unique_counterexample :
  "model-a" <> " model-a" /\
  fst (upsert_sdg_result "W1" "model-a" response_a (PyStr "SDG 3")
         (PyStr EmptyString) sample_time fresh) = Ok tt /\
  fst (upsert_sdg_result "W1" " model-a" PyNone (PyStr "SDG 13") PyNone later_time
         (snd (upsert_sdg_result "W1" "model-a" response_a (PyStr "SDG 3")
                 (PyStr EmptyString) sample_time fresh))) = Ok tt /\
  length (rows_of (sdg_results
            (store (snd (upsert_sdg_result "W1" " model-a" PyNone (PyStr "SDG 13")
                           PyNone later_time
                           (snd (upsert_sdg_result "W1" "model-a" response_a
                                   (PyStr "SDG 3") (PyStr EmptyString) sample_time
                                   fresh)))))))
  = 1%nat.
Proof. split; [discriminate |]. repeat split. Qed.

(** C6.  Schema initialisation is idempotent and migrates additively.  On a
    store that already has the current schema [_init_schema] returns and
    leaves the store exactly as it was.  On a store whose [works] table
    lacks [institution_affiliations_json] (SQLite finds no column of that
    name, in whatever case) it returns, appends that column to the table,
    and keeps the rows of both tables: each row of [works] reads NULL in
    the new column and reads in every column what it read before. *)
Theorem init_schema_idempotent
    (conn : connection) (c : option connection) (db : Db) :
  (store_current db ->
   _init_schema conn {| _CONN := c; store := db |}
   = (Ok tt, {| _CONN := c; store := db |})) /\
  (store_ok db ->
   forall tw,
     works db = Some tw ->
     names_column tw "institution_affiliations_json" = false ->
     exists tw' ts',
       _init_schema conn {| _CONN := c; store := db |}
       = (Ok tt, {| _CONN := c;
                    store := {| works := Some tw'; sdg_results := Some ts';
                                idx_sdg_results_model := true |} |}) /\
       t_cols tw' = (t_cols tw ++ [text_column "institution_affiliations_json"])%list /\
       t_pk tw' = t_pk tw /\
       Forall2 (fun r r' =>
                  map fst r' = (map fst r ++ ["institution_affiliations_json"])%list /\
                  cell r' "institution_affiliations_json" = SqlNull /\
                  forall col, cell r' col = cell r col)
               (t_rows tw) (t_rows tw') /\
       t_rows ts' = rows_of (sdg_results db)).
Proof.
  split.
  - intros (tw & ts & Hw & Hs & Hi & Hokw & Hoks).
    destruct db as [w s i]. simpl in Hw, Hs, Hi. subst w s i.
    rewrite (init_schema_run conn c (Some tw) (Some ts) true (or_introl eq_refl)).
    change (create_table_if_not_exists works_columns ["openalex_id"] (Some tw))
      with tw.
    change (create_table_if_not_exists sdg_results_columns
              ["openalex_id"; "model"] (Some ts)) with ts.
    pose proof (has_declared _ _ tw (text_column "institution_affiliations_json") Hokw)
      as Hhas.
    simpl in Hhas. rewrite Hhas by tauto. reflexivity.
  - intros [Hw Hs] tw Etw Hnc.
    assert (Hno : has_column tw "institution_affiliations_json" = false).
    { destruct (has_column tw "institution_affiliations_json") eqn:E;
        [| reflexivity].
      apply has_column_names in E. congruence. }
    destruct db as [w s i]. simpl in Hw, Hs, Etw. subst w.
    destruct Hw as [Hokw _].
    set (ts := create_table_if_not_exists sdg_results_columns
                 ["openalex_id"; "model"] s).
    assert (Hts : table_ok sdg_results_columns ["openalex_id"; "model"] ts).
    { subst ts. destruct s; simpl; [exact Hs|].
      apply new_table_ok, sdg_results_columns_NoDup. }
    assert (Hmodel : has_column ts "model" = true).
    { apply (has_declared _ _ _
               {| c_name := "model"; c_affinity := TEXT; c_notnull := true |} Hts).
      simpl. tauto. }
    rewrite (init_schema_run conn c (Some tw) s i (or_intror Hmodel)).
    change (create_table_if_not_exists works_columns ["openalex_id"] (Some tw))
      with tw.
    fold ts. rewrite Hno.
    cbv [negb execute_on_works ret bind get_store set_store lift set_works
         store works sdg_results idx_sdg_results_model _CONN].
    unfold add_column. cbn [c_name c_notnull text_column]. rewrite Hnc.
    cbn [orb].
    eexists _, ts. split; [reflexivity|]. cbn [t_cols t_pk t_rows].
    split; [reflexivity|]. split; [reflexivity|]. split.
    + apply Forall2_with_affiliations.
      eapply Forall_impl; [|exact (ok_rows _ _ _ Hokw)]. simpl.
      intros r ->. now apply mem_false.
    + subst ts. now destruct s.
Qed.

Lemma legacy_db_ok : store_ok legacy_db.
Proof.
  split; [|exact I]. split.
  - constructor.
    + simpl. repeat (constructor; [simpl; intuition discriminate|]). constructor.
    + apply incl_refl.
    + simpl. intros c0 Hc0 Hnot. exfalso.
      repeat (destruct Hc0 as [<- | Hc0]; [discriminate|]). contradiction.
    + reflexivity.
    + repeat constructor.
    + intros r0. simpl. destruct (conflicts _ _ _); simpl; lia.
  - intros H. discriminate H.
Qed.

Lemma legacy_db_ready : store_ready legacy_db.
Proof. split; [exact legacy_db_ok |]. intros H. discriminate H. Qed.

Lemma init_schema_idempotent_witness :
  (let db1 := store (snd (_init_schema Connection
                            {| _CONN := Some Connection; store := legacy_db |})) in
   _init_schema Connection {| _CONN := Some Connection; store := db1 |}
   = (Ok tt, {| _CONN := Some Connection; store := db1 |})) /\
  exists tw' ts',
    _init_schema Connection {| _CONN := Some Connection; store := legacy_db |}
    = (Ok tt, {| _CONN := Some Connection;
                 store := {| works := Some tw'; sdg_results := Some ts';
                             idx_sdg_results_model := true |} |}) /\
    t_cols tw'
    = (legacy_works_columns ++ [text_column "institution_affiliations_json"])%list /\
    t_pk tw' = ["openalex_id"] /\
    Forall2 (fun r r' =>
               map fst r' = (map fst r ++ ["institution_affiliations_json"])%list /\
               cell r' "institution_affiliations_json" = SqlNull /\
               forall col, cell r' col = cell r col)
            [legacy_row] (t_rows tw') /\
    t_rows ts' = [].
Proof.
  split.
  - intros db1.
    destruct (init_schema_idempotent Connection (Some Connection) db1) as [H _].
    apply H. subst db1.
    destruct (init_schema_ok Connection (Some Connection) legacy_db legacy_db_ready)
      as (db' & Hrun & Hcur & _).
    rewrite Hrun. exact Hcur.
  - destruct (init_schema_idempotent Connection (Some Connection) legacy_db)
      as [_ H].
    apply (H legacy_db_ok _ eq_refl eq_refl).
Defined.

(** C7.  A lookup miss is not an error.  In a process that holds its
    connection, or whose database file the module can open,
    [get_cached_work] and [get_cached_sdg_result] return normally (they do
    not raise), and when no row is stored under the trimmed key the value
    they return is [None]. *)
Theorem lookup_miss_is_absent (st : process) (openalex_id model : string) :
  process_ready st ->
  (exists o st',
      get_cached_work openalex_id st = (Ok o, st') /\
      (works_rows_with (strip openalex_id) (store st) = [] -> o = None)) /\
  (exists o st',
      get_cached_sdg_result openalex_id model st = (Ok o, st') /\
      (sdg_rows_with (strip openalex_id) (strip model) (store st) = [] ->
       o = None)).
Proof.
  intros Hok. split.
  - now apply lookup_absent_work.
  - now apply lookup_absent_sdg.
Qed.

Lemma lookup_miss_is_absent_witness :
  process_ready fresh /\
  (exists st', get_cached_work "W404" fresh = (Ok None, st')) /\
  (exists st', get_cached_sdg_result "W404" "model-a" fresh = (Ok None, st')).
Proof.
  split; [exact fresh_ready |].
  destruct (lookup_miss_is_absent fresh "W404" "model-a" fresh_ready)
    as [(o1 & st1 & H1 & Ho1) (o2 & st2 & H2 & Ho2)].
  rewrite (Ho1 eq_refl) in H1. rewrite (Ho2 eq_refl) in H2.
  split; [now exists st1 | now exists st2].
Defined.

(** C8.  When [json.dumps] fails on the payload of a put, the put raises and
    writes nothing.  In a process that holds its connection, or whose
    database file the module can open, the state it leaves is the one that
    acquiring the connection alone leaves (the state itself when the
    process is already connected), so every lookup afterwards returns what
    it would have returned without the put.  For [upsert_sdg_result] the
    exception is the one raised by the serialization; for [upsert_work] it
    is too, unless the conversion of [is_oa], which runs first, has already
    raised. *)
Theorem serialization_failure_writes_nothing
    (st : process) (row : pydict) (raw_record : PyVal)
    (openalex_id model : string) (sdg_response sdg_formatted sdg_note : PyVal)
    (utcnow : datetime) (e : exn) :
  process_ready st ->
  (truthy raw_record = true -> json_dumps raw_record = Raise e ->
   exists e' st',
     upsert_work row raw_record utcnow st = (Raise e', st') /\
     (forall f, flag_value (dict_get row "is_oa") f -> e' = e) /\
     _get_conn st = (Ok Connection, st') /\
     (_CONN st <> None -> st' = st) /\
     (forall k, get_cached_work k st' = get_cached_work k st) /\
     (forall k m, get_cached_sdg_result k m st' = get_cached_sdg_result k m st)) /\
  (sdg_response <> PyNone -> json_dumps sdg_response = Raise e ->
   exists st',
     upsert_sdg_result openalex_id model sdg_response sdg_formatted sdg_note
       utcnow st = (Raise e, st') /\
     _get_conn st = (Ok Connection, st') /\
     (_CONN st <> None -> st' = st) /\
     (forall k, get_cached_work k st' = get_cached_work k st) /\
     (forall k m, get_cached_sdg_result k m st' = get_cached_sdg_result k m st)).
Proof.
  intros Hok.
  destruct (get_conn_ok st Hok) as (st1 & Hrun & Hc & Hsame & _).
  assert (Hgw : forall k, get_cached_work k st1 = get_cached_work k st)
    by (intros k; symmetry; now apply get_cached_work_enter).
  assert (Hgs : forall k m,
             get_cached_sdg_result k m st1 = get_cached_sdg_result k m st)
    by (intros k m; symmetry; now apply get_cached_sdg_result_enter).
  split.
  - intros Ht Hj.
    destruct (work_payload_raises row raw_record utcnow e Ht Hj) as (e' & Hp & He).
    exists e', st1. split; [|auto].
    rewrite (upsert_work_enter _ _ _ st st1 Hrun Hc).
    destruct (upsert_work_connected row raw_record utcnow st1 Hc)
      as (tw & _ & _ & ->).
    now rewrite Hp.
  - intros Hnn Hj.
    exists st1. split; [|auto].
    rewrite (upsert_sdg_result_enter _ _ _ _ _ _ st st1 Hrun Hc).
    destruct (upsert_sdg_result_connected openalex_id model sdg_response
                sdg_formatted sdg_note utcnow st1 Hc) as (ts & _ & _ & ->).
    now rewrite (sdg_payload_raises _ _ _ _ _ _ e Hnn Hj).
Qed.

Lemma serialization_failure_writes_nothing_witness :
  (exists st',
      upsert_work paper_a raw_unserializable sample_time fresh
      = (Raise TypeError, st') /\
      _get_conn fresh = (Ok Connection, st') /\
      (forall k, get_cached_work k st' = get_cached_work k fresh) /\
      (forall k m, get_cached_sdg_result k m st' = get_cached_sdg_result k m fresh)) /\
  (exists st',
      upsert_sdg_result "W1" "model-a" raw_unserializable (PyStr "SDG 3")
        (PyStr EmptyString) sample_time fresh = (Raise TypeError, st') /\
      _get_conn fresh = (Ok Connection, st') /\
      (forall k, get_cached_work k st' = get_cached_work k fresh) /\
      (forall k m, get_cached_sdg_result k m st' = get_cached_sdg_result k m fresh)).
Proof.
  destruct (serialization_failure_writes_nothing fresh paper_a raw_unserializable
              "W1" "model-a" raw_unserializable (PyStr "SDG 3") (PyStr EmptyString)
              sample_time TypeError fresh_ready) as [Hw Hs].
  split.
  - destruct Hw as (e' & st' & Hput & He & Hconn & _ & Hgw & Hgs);
      [reflexivity | reflexivity |].
    assert (Hf : flag_value (dict_get paper_a "is_oa") (PyInt 1))
      by (apply flag_int; [discriminate | reflexivity]).
    rewrite (He _ Hf) in Hput. exists st'. auto.
  - destruct Hs as (st' & Hput & Hconn & _ & Hgw & Hgs);
      [discriminate | reflexivity |].
    exists st'. auto.
Defined.


Lemma opened_connected : connected opened.
Proof.
  destruct (get_conn_ok fresh fresh_ready) as (st1 & Hrun & Hc & _).
  unfold opened. now rewrite Hrun.
Qed.


(** In the run [second_then_first] the first thread commits last, so a
    lookup afterwards returns its result, although the second thread read
    the clock later. *)
Example last_commit_is_read_back :
  match run_schedule second_then_first (initial two_puts opened) with
  | Some cfg => fst (get_cached_sdg_result "W1" "model-a" (view (sh cfg)))
  | None => Ok None
  end
  = Ok (Some [ ("sdg_response", PyStr response_a_json);
               ("sdg_formatted", PyStr "SDG 3");
               ("sdg_note", PyStr EmptyString);
               ("classified_at", PyStr (isoformat_seconds sample_time)) ]).
Proof. vm_compute. reflexivity. Qed.

(** C10.  An empty dictionary is treated differently by the two caches.
    [upsert_work] tests its raw payload for truth, so with [raw_record = {}]
    the stored [raw_json] is NULL; [upsert_sdg_result] tests its response
    for [None], so with [sdg_response = {}] the stored [sdg_response] is the
    text of the empty JSON object. *)
Theorem empty_payload_asymmetry
    (st : process) (row : pydict) (openalex_id model : string)
    (sdg_formatted sdg_note : PyVal) (utcnow : datetime) :
  process_ok st ->
  (forall st' k,
      dict_get row "openalex_id" = PyStr k ->
      upsert_work row (PyDict []) utcnow st = (Ok tt, st') ->
      exists r, works_rows_with k (store st') = [r] /\
                cell r "raw_json" = SqlNull) /\
  (forall st',
      upsert_sdg_result openalex_id model (PyDict []) sdg_formatted sdg_note
        utcnow st = (Ok tt, st') ->
      exists r,
        sdg_rows_with (strip openalex_id) (strip model) (store st') = [r] /\
        cell r "sdg_response" = SqlText "{}").
Proof.
  intros Hok. split.
  - intros st' k Hk Hput.
    destruct (upsert_work_stores _ _ _ _ _ _ Hok Hput Hk)
      as (_ & r & payload & Hone & Hp & Hcells).
    exists r. split; [exact Hone|].
    destruct (work_payload_Ok _ _ _ _ Hp) as (f & j & _ & Hj & Epay).
    destruct (Hcells (text_column "raw_json") j) as (b & Hb & Hcell);
      [simpl; tauto | now rewrite Epay |].
    simpl in Hcell. rewrite Hcell.
    destruct Hj as [_ | j' Ht _]; [|discriminate].
    simpl in Hb. now injection Hb as <-.
  - intros st' Hput.
    destruct (upsert_sdg_result_stores _ _ _ _ _ _ _ _ Hok Hput)
      as (_ & r & payload & Hone & Hp & Hcells).
    exists r. split; [exact Hone|].
    destruct (sdg_payload_Ok _ _ _ _ _ _ _ Hp) as (resp & Hresp & Epay).
    destruct (Hcells (text_column "sdg_response") resp) as (b & Hb & Hcell);
      [simpl; tauto | now rewrite Epay |].
    simpl in Hcell. rewrite Hcell.
    destruct Hresp as [Hnone | j _ Hj]; [discriminate|].
    simpl in Hj. injection Hj as <-.
    simpl in Hb. now injection Hb as <-.
Qed.

Lemma empty_payload_asymmetry_witness :
  (exists r,
      works_rows_with "W1"
        (store (snd (upsert_work paper_a (PyDict []) sample_time fresh))) = [r] /\
      cell r "raw_json" = SqlNull) /\
  (exists r,
      sdg_rows_with "W1" "model-a"
        (store (snd (upsert_sdg_result "W1" "model-a" (PyDict [])
                       (PyStr "SDG 3") (PyStr EmptyString) sample_time fresh))) = [r] /\
      cell r "sdg_response" = SqlText "{}").
Proof.
  destruct (empty_payload_asymmetry fresh paper_a "W1" "model-a"
              (PyStr "SDG 3") (PyStr EmptyString) sample_time) as [Hw Hs].
  - vm_compute. split; exact I.
  - split.
    + apply (Hw _ "W1"); reflexivity.
    + apply (Hs _). reflexivity.
Defined.

(** * Further properties *)

Lemma fresh_ok : process_ok fresh.
Proof. vm_compute. split; exact I. Qed.

Lemma annotated_db_ok : store_ok annotated_db.
Proof.
  split; [| exact I]. split.
  - constructor.
    + simpl. repeat (constructor; [simpl; intuition discriminate |]). constructor.
    + intros c Hc. simpl in Hc. simpl.
      repeat (destruct Hc as [<- | Hc]; [tauto |]). contradiction.
    + simpl. intros c0 Hc0 Hnot. exfalso.
      repeat (destruct Hc0 as [<- | Hc0]; [discriminate |]). contradiction.
    + reflexivity.
    + repeat constructor.
    + intros r0. simpl. destruct (conflicts _ _ _); simpl; lia.
  - intros _. simpl. tauto.
Qed.

(** ** The connection is made once *)

Lemma keeps_conn_ret {A : Type} (a : A) : keeps_conn (ret a).
Proof. intros st. reflexivity. Qed.

Lemma keeps_conn_lift {A : Type} (r : result A) : keeps_conn (lift r).
Proof. intros st. reflexivity. Qed.

Lemma keeps_conn_get_store : keeps_conn get_store.
Proof. intros st. reflexivity. Qed.

Lemma keeps_conn_set_store (db : Db) : keeps_conn (set_store db).
Proof. intros st. reflexivity. Qed.

Lemma keeps_conn_bind {A B : Type} (m : M A) (k : A -> M B) :
  keeps_conn m -> (forall a, keeps_conn (k a)) -> keeps_conn (bind m k).
Proof.
  intros Hm Hk st. unfold bind. specialize (Hm st).
  destruct (m st) as [[a | e] st1]; simpl in *.
  - now rewrite Hk.
  - exact Hm.
Qed.

Create HintDb conn.
#[local] Hint Resolve keeps_conn_ret keeps_conn_lift keeps_conn_get_store
  keeps_conn_set_store : conn.

Lemma keeps_conn_execute_on_works (stmt : table -> result table) :
  keeps_conn (execute_on_works stmt).
Proof.
  unfold execute_on_works. apply keeps_conn_bind; auto with conn.
  intros db. destruct (works db); auto with conn.
  apply keeps_conn_bind; auto with conn.
Qed.

Lemma keeps_conn_query_works {A : Type} (q : table -> result A) :
  keeps_conn (query_works q).
Proof.
  unfold query_works. apply keeps_conn_bind; auto with conn.
  intros db. destruct (works db); auto with conn.
Qed.

Lemma keeps_conn_create_index : keeps_conn create_index_if_not_exists.
Proof.
  unfold create_index_if_not_exists. apply keeps_conn_bind; auto with conn.
  intros db. destruct (idx_sdg_results_model db); auto with conn.
  destruct (sdg_results db) as [t |]; auto with conn.
  destruct (has_column t "model"); auto with conn.
Qed.

Lemma keeps_conn_init_schema (conn : connection) : keeps_conn (_init_schema conn).
Proof.
  unfold _init_schema.
  repeat (apply keeps_conn_bind;
          [auto using keeps_conn_create_index, keeps_conn_query_works with conn
          | intros ?]).
  destruct (negb _); auto using keeps_conn_execute_on_works with conn.
Qed.

(** X1.  The connection is made once per process.  When [_get_conn]
    returns, the global [_CONN] holds the connection it returned, and every
    later call returns that same connection without touching the database:
    the schema is set up by the first call only. *)
Theorem get_conn_once (st st1 : process) (conn : connection) :
  _get_conn st = (Ok conn, st1) ->
  _CONN st1 = Some conn /\ _get_conn st1 = (Ok conn, st1).
Proof.
  intros H.
  assert (Hc : _CONN st1 = Some conn).
  { unfold _get_conn in H. destruct (_CONN st) as [c |] eqn:E.
    - injection H as <- <-. exact E.
    - pose proof (keeps_conn_bind _ (fun _ => ret Connection)
                    (keeps_conn_init_schema Connection)
                    (fun _ => keeps_conn_ret Connection)
                    {| _CONN := Some Connection; store := store st |}) as K.
      rewrite H in K. simpl in K. now destruct conn. }
  split; [exact Hc |]. unfold _get_conn. now rewrite Hc.
Qed.

Lemma get_conn_once_witness :
  _get_conn fresh = (Ok Connection, opened) /\
  _CONN opened = Some Connection /\ _get_conn opened = (Ok Connection, opened).
Proof.
  split; [reflexivity |].
  apply (get_conn_once fresh opened Connection). reflexivity.
Defined.

(** X2.  [_get_conn] assigns [_CONN] before it calls [_init_schema].  So
    when a call raises because the schema cannot be set up, it was the first
    call, and the global is assigned all the same: a later call does not run
    [_init_schema] again, it returns the connection with the schema as the
    failed attempt left it. *)
Theorem failed_init_is_not_retried (st st1 : process) (e : exn) :
  _get_conn st = (Raise e, st1) ->
  _CONN st = None /\ _CONN st1 = Some Connection /\
  _get_conn st1 = (Ok Connection, st1).
Proof.
  intros H. unfold _get_conn in H. destruct (_CONN st) as [c |] eqn:E.
  - discriminate.
  - pose proof (keeps_conn_bind _ (fun _ => ret Connection)
                  (keeps_conn_init_schema Connection)
                  (fun _ => keeps_conn_ret Connection)
                  {| _CONN := Some Connection; store := store st |}) as K.
    rewrite H in K. simpl in K.
    split; [reflexivity |]. split; [exact K |].
    unfold _get_conn. now rewrite K.
Qed.

Lemma failed_init_is_not_retried_witness :
  exists st1,
    _get_conn {| _CONN := None; store := foreign_db |} = (Raise Sqlite3Error, st1) /\
    _CONN st1 = Some Connection /\ _get_conn st1 = (Ok Connection, st1).
Proof.
  eexists. split; [reflexivity |].
  apply (failed_init_is_not_retried {| _CONN := None; store := foreign_db |} _ Sqlite3Error).
  reflexivity.
Defined.

(** ** Schema initialisation on any database *)

Lemma Forall2_same {A : Type} (R : A -> A -> Prop) (l : list A) :
  (forall a, R a a) -> Forall2 R l l.
Proof. intros H. induction l; constructor; auto. Qed.

Lemma Forall2_map_r {A B : Type} (R : A -> B -> Prop) (f : A -> B) (l : list A) :
  (forall a, R a (f a)) -> Forall2 R l (map f l).
Proof. intros H. induction l; simpl; constructor; auto. Qed.

Lemma has_column_added (t : table) (c : column) (name : string) :
  mem name (map c_name (t_cols t ++ [c])%list)
  = has_column t name || String.eqb name (c_name c).
Proof.
  unfold has_column, col_names, mem. rewrite map_app, existsb_app. simpl.
  now rewrite orb_false_r.
Qed.

(** X3.  [_init_schema] never drops or rewrites what a database already
    holds, whatever tables it finds.  When it returns: a table
    [sdg_results] that existed is unchanged; a table [works] that existed
    keeps its primary key, its rows in their order and every cell of every
    row, and its columns are the ones it had plus
    [institution_affiliations_json]. *)
Theorem init_schema_loses_nothing
    (conn : connection) (c : option connection) (db : Db) (st' : process) :
  _init_schema conn {| _CONN := c; store := db |} = (Ok tt, st') ->
  (forall ts, sdg_results db = Some ts -> sdg_results (store st') = Some ts) /\
  (forall tw,
      works db = Some tw ->
      exists tw',
        works (store st') = Some tw' /\ t_pk tw' = t_pk tw /\
        (forall name,
            has_column tw' name = true <->
            has_column tw name = true \/ name = "institution_affiliations_json") /\
        Forall2 (fun r r' => forall name, cell r' name = cell r name)
                (t_rows tw) (t_rows tw')).
Proof.
  destruct db as [w s i]. intros H.
  set (tw0 := create_table_if_not_exists works_columns ["openalex_id"] w).
  set (ts0 := create_table_if_not_exists sdg_results_columns
                ["openalex_id"; "model"] s).
  assert (Hidx : i = true \/ has_column ts0 "model" = true).
  { destruct i; [now left |]. right.
    destruct (has_column ts0 "model") eqn:Hm; [reflexivity |]. exfalso.
    cbv [_init_schema bind get_store set_store create_index_if_not_exists
         query_works lift set_works set_sdg_results store works sdg_results
         idx_sdg_results_model _CONN] in H.
    fold ts0 in H. rewrite Hm in H. discriminate. }
  pose proof (init_schema_run conn c w s i Hidx) as Hrun.
  cbv zeta in Hrun. fold tw0 in Hrun. fold ts0 in Hrun.
  rewrite Hrun in H. clear Hrun.
  destruct (has_column tw0 "institution_affiliations_json") eqn:Hhas;
    cbv [negb execute_on_works ret bind get_store set_store lift set_works
         store works sdg_results idx_sdg_results_model _CONN] in H.
  - injection H as <-. simpl. split.
    + intros ts Hs. subst s. reflexivity.
    + intros tw Hw. subst w. simpl in *. exists tw.
      split; [reflexivity |]. split; [reflexivity |]. split.
      * intros name. split; [tauto |]. intros [Hn | ->]; assumption.
      * apply Forall2_same. reflexivity.
  - unfold add_column in H. cbn [c_name c_notnull text_column] in H.
    destruct (names_column tw0 "institution_affiliations_json");
      [discriminate |].
    cbn [orb] in H. injection H as <-. simpl. split.
    + intros ts Hs. subst s. reflexivity.
    + intros tw Hw. subst w. simpl in *. eexists.
      split; [reflexivity |]. split; [reflexivity |]. split.
      * intros name. unfold has_column at 1. unfold col_names.
        cbn [t_cols]. rewrite has_column_added. cbn [c_name text_column].
        rewrite orb_true_iff, String.eqb_eq. tauto.
      * cbn [t_rows]. apply Forall2_map_r. intros r name. apply cell_extend.
Qed.

Lemma init_schema_loses_nothing_witness :
  exists st',
    _init_schema Connection {| _CONN := Some Connection; store := legacy_db |}
    = (Ok tt, st') /\
    exists tw',
      works (store st') = Some tw' /\ t_pk tw' = ["openalex_id"] /\
      (forall name,
          has_column tw' name = true <->
          mem name (map c_name legacy_works_columns) = true
          \/ name = "institution_affiliations_json") /\
      Forall2 (fun r r' => forall name, cell r' name = cell r name)
              [legacy_row] (t_rows tw').
Proof.
  eexists. split; [reflexivity |].
  destruct (init_schema_loses_nothing Connection (Some Connection) legacy_db _ eq_refl)
    as [_ H].
  apply (H _ eq_refl).
Defined.

(** ** One row per key, whatever is called *)








(** ** Lookups write nothing *)

Lemma get_cached_work_state (openalex_id : string) (st st1 : process) :
  _get_conn st = (Ok Connection, st1) -> connected st1 ->
  snd (get_cached_work openalex_id st) = st1.
Proof.
  intros Hrun Hc.
  now rewrite (get_cached_work_enter _ st st1 Hrun Hc),
    (get_cached_work_connected _ st1 Hc).
Qed.

Lemma get_cached_sdg_result_state (openalex_id model : string) (st st1 : process) :
  _get_conn st = (Ok Connection, st1) -> connected st1 ->
  snd (get_cached_sdg_result openalex_id model st) = st1.
Proof.
  intros Hrun Hc.
  now rewrite (get_cached_sdg_result_enter _ _ st st1 Hrun Hc),
    (get_cached_sdg_result_connected _ _ st1 Hc).
Qed.

Lemma lookup_connected (c : call) (st : process) :
  is_lookup c = true -> connected st -> run_call c st = st.
Proof.
  intros Hl Hc. pose proof (get_conn_connected st Hc) as Hrun.
  destruct c; try discriminate; simpl.
  - now apply get_cached_work_state.
  - now apply get_cached_sdg_result_state.
Qed.

Lemma lookups_connected (calls : list call) (st : process) :
  forallb is_lookup calls = true -> connected st -> run calls st = st.
Proof.
  induction calls as [| c calls IH]; simpl; [reflexivity |].
  rewrite andb_true_iff. intros [Hl Hls] Hc.
  rewrite (lookup_connected c st Hl Hc). now apply IH.
Qed.

(** X5.  Lookups write nothing.  A sequence of [get_cached_work] and
    [get_cached_sdg_result] calls leaves the process in the state that
    acquiring the connection alone leaves: on a process that already holds
    its connection the state is unchanged, on a first call, made on a
    database file that the module can open, the schema is set up and
    nothing else happens. *)
Theorem lookups_write_nothing (calls : list call) (st : process) :
  process_ready st -> forallb is_lookup calls = true -> calls <> [] ->
  _get_conn st = (Ok Connection, run calls st) /\
  (_CONN st <> None -> run calls st = st).
Proof.
  intros Hok Hl Hne.
  destruct (get_conn_ok st Hok) as (st1 & Hrun & Hc & Hsame & _).
  destruct calls as [| c calls]; [congruence |]. simpl in *.
  apply andb_true_iff in Hl as [Hl Hls].
  assert (H1 : run_call c st = st1).
  { destruct c; try discriminate; simpl.
    - now apply get_cached_work_state.
    - now apply get_cached_sdg_result_state. }
  rewrite H1. fold (run calls st1). rewrite (lookups_connected calls st1 Hls Hc).
  split; [exact Hrun | exact Hsame].
Qed.

Lemma lookups_write_nothing_witness :
  let st := {| _CONN := None; store := legacy_db |} in
  let calls := [GetWork " W1 "; GetSdg "W1" "model-a"; GetWork "W2"] in
  process_ready st /\ forallb is_lookup calls = true /\ calls <> [] /\
  _get_conn st = (Ok Connection, run calls st) /\
  (_CONN st <> None -> run calls st = st).
Proof.
  intros st calls.
  split; [exact legacy_db_ready |]. split; [reflexivity |]. split; [discriminate |].
  apply (lookups_write_nothing calls st).
  - exact legacy_db_ready.
  - reflexivity.
  - discriminate.
Defined.

(** ** What a put leaves alone *)

(** The answer of a lookup on a connected process is read off the rows
    under its key. *)
Lemma get_cached_work_answer (openalex_id : string) (st st' : process) :
  connected st -> connected st' ->
  works_rows_with (strip openalex_id) (store st')
  = works_rows_with (strip openalex_id) (store st) ->
  fst (get_cached_work openalex_id st') = fst (get_cached_work openalex_id st).
Proof.
  intros Hc Hc' Hrows.
  rewrite (get_cached_work_connected _ st' Hc'),
    (get_cached_work_connected _ st Hc). simpl. now rewrite Hrows.
Qed.




Lemma payload_key (row : pydict) (raw_record : PyVal) (utcnow : datetime)
    (payload : pydict) (values : list (string * SqlVal)) :
  work_payload row raw_record utcnow = Ok payload ->
  bind_payload payload = Ok values ->
  exists b,
    bind_param (dict_get row "openalex_id") = Ok b /\
    stored values (text_column "openalex_id") = apply_affinity TEXT b.
Proof.
  intros Hp Hv.
  destruct (work_payload_Ok _ _ _ _ Hp) as (f & j & _ & _ & ->).
  destruct (bind_payload_assoc _ _ Hv "openalex_id" (dict_get row "openalex_id")
              eq_refl) as (b & Hb & Ha).
  exists b. split; [exact Hb |]. unfold stored. cbn [c_name c_affinity text_column].
  now rewrite Ha.
Qed.






(** ** Puts that raise *)






(** ** Rows added and rows replaced *)

Lemma upsert_length
    (target set_cols : list string) (cells : list (string * SqlVal))
    (t t' : table) :
  upsert target set_cols cells t = Ok t' ->
  length (t_rows t')
  = (length (t_rows t)
     + match filter (fun r => conflicts (t_pk t) r (inserted_row t cells))
               (t_rows t) with
       | [] => 1
       | _ => 0
       end)%nat.
Proof.
  intros Hu. destruct (upsert_spec _ _ _ _ _ Hu) as (_ & _ & H). cbv zeta in H.
  destruct H as [(l1 & r & l2 & Hrows & Hrows' & Hconf) | [Hrows' Hnone]].
  - rewrite Hrows', Hrows.
    assert (Hin : In r (filter (fun r => conflicts (t_pk t) r (inserted_row t cells))
                          (l1 ++ r :: l2)%list)).
    { apply filter_In. split; [| exact Hconf]. apply in_or_app. right. now left. }
    destruct (filter _ (l1 ++ r :: l2)%list); [contradiction |].
    rewrite !length_app. simpl. lia.
  - rewrite Hrows', (filter_none _ _ Hnone), length_app. reflexivity.
Qed.

(** A successful [upsert_work] on a connected process, as a statement on
    table [works]. *)
Lemma upsert_work_table
    (row : pydict) (raw_record : PyVal) (utcnow : datetime) (st st' : process) :
  connected st ->
  upsert_work row raw_record utcnow st = (Ok tt, st') ->
  exists payload values tw tw' b,
    work_payload row raw_record utcnow = Ok payload /\
    bind_payload payload = Ok values /\
    works (store st) = Some tw /\
    table_ok works_columns ["openalex_id"] tw /\
    upsert ["openalex_id"] (map c_name works_columns) values tw = Ok tw' /\
    st' = {| _CONN := _CONN st; store := set_works tw' (store st) |} /\
    bind_param (dict_get row "openalex_id") = Ok b /\
    cell (inserted_row tw values) "openalex_id" = apply_affinity TEXT b /\
    forall r,
      conflicts ["openalex_id"] r (inserted_row tw values)
      = sql_eq (cell r "openalex_id") (apply_affinity TEXT b).
Proof.
  intros Hc H.
  destruct (upsert_work_connected row raw_record utcnow st Hc) as (tw & Hw & Hok & E).
  rewrite E in H. clear E.
  destruct (work_payload row raw_record utcnow) as [payload | e] eqn:Hp;
    [| discriminate].
  destruct (bind_payload payload) as [values | e] eqn:Hv; [| discriminate].
  destruct (upsert _ _ values tw) as [tw' | e] eqn:Hu; [| discriminate].
  injection H as <-.
  destruct (payload_key _ _ _ _ _ Hp Hv) as (b & Hb & Hst).
  assert (Hnames : map fst payload = map c_name works_columns).
  { destruct (work_payload_Ok _ _ _ _ Hp) as (f & j & _ & _ & ->). reflexivity. }
  rewrite Hnames in Hu.
  assert (Hid : cell (inserted_row tw values) "openalex_id"
                = apply_affinity TEXT b).
  { rewrite <- Hst.
    apply (cell_inserted_row tw values (text_column "openalex_id")
             (ok_names _ _ _ Hok)).
    apply (ok_decl _ _ _ Hok). simpl. tauto. }
  exists payload, values, tw, tw', b.
  repeat (split; [first [reflexivity | assumption] |]).
  intros r. unfold conflicts, key_of. cbn [map keys_equal].
  rewrite andb_true_r. now f_equal.
Qed.

Lemma upsert_sdg_result_table
    (openalex_id model : string) (sdg_response sdg_formatted sdg_note : PyVal)
    (utcnow : datetime) (st st' : process) :
  connected st ->
  upsert_sdg_result openalex_id model sdg_response sdg_formatted sdg_note utcnow st
  = (Ok tt, st') ->
  exists payload values ts ts',
    sdg_payload openalex_id model sdg_response sdg_formatted sdg_note utcnow
    = Ok payload /\
    bind_payload payload = Ok values /\
    sdg_results (store st) = Some ts /\
    table_ok sdg_results_columns ["openalex_id"; "model"] ts /\
    upsert ["openalex_id"; "model"]
      ["sdg_response"; "sdg_formatted"; "sdg_note"; "classified_at"] values ts
    = Ok ts' /\
    st' = {| _CONN := _CONN st; store := set_sdg_results ts' (store st) |} /\
    cell (inserted_row ts values) "openalex_id" = SqlText (strip openalex_id) /\
    cell (inserted_row ts values) "model" = SqlText (strip model) /\
    forall r,
      conflicts ["openalex_id"; "model"] r (inserted_row ts values)
      = sql_eq (cell r "openalex_id") (SqlText (strip openalex_id))
        && sql_eq (cell r "model") (SqlText (strip model)).
Proof.
  intros Hc H.
  destruct (upsert_sdg_result_connected openalex_id model sdg_response
              sdg_formatted sdg_note utcnow st Hc) as (ts & Hs & Hok & E).
  rewrite E in H. clear E.
  destruct (sdg_payload _ _ _ _ _ _) as [payload | e] eqn:Hp; [| discriminate].
  destruct (bind_payload payload) as [values | e] eqn:Hv; [| discriminate].
  destruct (upsert _ _ values ts) as [ts' | e] eqn:Hu; [| discriminate].
  injection H as <-.
  exists payload, values, ts, ts'.
  repeat (split; [first [reflexivity | assumption] |]).
  destruct (sdg_payload_Ok _ _ _ _ _ _ _ Hp) as (resp & _ & Epay).
  assert (Hcell : forall c, In c sdg_results_columns ->
                    cell (inserted_row ts values) (c_name c) = stored values c).
  { intros c Hin. apply (cell_inserted_row ts values c (ok_names _ _ _ Hok)).
    now apply (ok_decl _ _ _ Hok). }
  assert (Hid : cell (inserted_row ts values) "openalex_id"
                = SqlText (strip openalex_id)).
  { etransitivity;
      [apply (Hcell {| c_name := "openalex_id"; c_affinity := TEXT; c_notnull := true |});
       simpl; tauto |].
    unfold stored. simpl.
    destruct (bind_payload_assoc _ _ Hv "openalex_id" (PyStr (strip openalex_id)))
      as (b & Hb & ->); [now rewrite Epay |].
    simpl in Hb. now injection Hb as <-. }
  assert (Hm : cell (inserted_row ts values) "model" = SqlText (strip model)).
  { etransitivity;
      [apply (Hcell {| c_name := "model"; c_affinity := TEXT; c_notnull := true |});
       simpl; tauto |].
    unfold stored. simpl.
    destruct (bind_payload_assoc _ _ Hv "model" (PyStr (strip model)))
      as (b & Hb & ->); [now rewrite Epay |].
    simpl in Hb. now injection Hb as <-. }
  split; [exact Hid |]. split; [exact Hm |].
  intros r. now apply sdg_conflicts.
Qed.

(** Connecting keeps the rows of [works] under each key, up to the added
    column. *)
Lemma entered_rows (st st1 : process) (k : string) :
  (rows_of (works (store st1)) = rows_of (works (store st)) \/
   rows_of (works (store st1)) = map with_affiliations (rows_of (works (store st)))) ->
  works_rows_with k (store st1) = works_rows_with k (store st) \/
  works_rows_with k (store st1)
  = map with_affiliations (works_rows_with k (store st)).
Proof.
  unfold works_rows_with. intros [-> | ->]; [now left | right].
  apply (filter_with_affiliations (fun _ v => sql_eq v (SqlText k))).
Qed.

Lemma entered_length (st st1 : process) :
  (rows_of (works (store st1)) = rows_of (works (store st)) \/
   rows_of (works (store st1)) = map with_affiliations (rows_of (works (store st)))) ->
  length (rows_of (works (store st1))) = length (rows_of (works (store st))).
Proof. intros [-> | ->]; [reflexivity | apply length_map]. Qed.

Lemma entered_empty (st st1 : process) (k : string) :
  (rows_of (works (store st1)) = rows_of (works (store st)) \/
   rows_of (works (store st1)) = map with_affiliations (rows_of (works (store st)))) ->
  match works_rows_with k (store st1) with [] => 1 | _ => 0 end%nat
  = match works_rows_with k (store st) with [] => 1 | _ => 0 end%nat.
Proof.
  intros H. destruct (entered_rows st st1 k H) as [-> | ->]; [reflexivity |].
  now destruct (works_rows_with k (store st)).
Qed.

(** X11.  A put adds a row or replaces one, and never removes any.  After a
    successful [upsert_work] under a string identifier [k] the table
    [works] has one row more if no row was stored under [k], and as many
    rows as before otherwise; likewise for [upsert_sdg_result] and its
    trimmed pair. *)
Theorem put_adds_at_most_one_row
    (st st' : process) (row : pydict) (raw_record : PyVal) (utcnow : datetime)
    (openalex_id model : string) (sdg_response sdg_formatted sdg_note : PyVal)
    (k : string) :
  process_ok st ->
  (upsert_work row raw_record utcnow st = (Ok tt, st') ->
   dict_get row "openalex_id" = PyStr k ->
   length (rows_of (works (store st')))
   = (length (rows_of (works (store st)))
      + match works_rows_with k (store st) with [] => 1 | _ => 0 end)%nat) /\
  (upsert_sdg_result openalex_id model sdg_response sdg_formatted sdg_note utcnow st
   = (Ok tt, st') ->
   length (rows_of (sdg_results (store st')))
   = (length (rows_of (sdg_results (store st)))
      + match sdg_rows_with (strip openalex_id) (strip model) (store st) with
        | [] => 1
        | _ => 0
        end)%nat).
Proof.
  intros Hok. split.
  - intros Hput Hkey.
    destruct (get_conn_ok st (upsert_work_ready _ _ _ _ _ Hok Hput))
      as (st1 & Hrun & Hc & _ & Hs & Hw).
    rewrite (upsert_work_enter _ _ _ st st1 Hrun Hc) in Hput.
    destruct (upsert_work_table _ _ _ _ _ Hc Hput)
      as (payload & values & tw & tw' & b & _ & _ & Htw & Htok & Hu & -> & Hb & _ & Hconf).
    rewrite <- (entered_length st st1 Hw), <- (entered_empty st st1 k Hw).
    unfold works_rows_with. simpl. rewrite Htw. simpl.
    rewrite (upsert_length _ _ _ _ _ Hu), (ok_pk _ _ _ Htok).
    rewrite Hkey in Hb. injection Hb as <-. simpl in Hconf.
    now rewrite (filter_ext _ _ Hconf).
  - intros Hput.
    destruct (get_conn_ok st (upsert_sdg_result_ready _ _ _ _ _ _ _ _ Hok Hput))
      as (st1 & Hrun & Hc & _ & Hs & Hw).
    rewrite (upsert_sdg_result_enter _ _ _ _ _ _ st st1 Hrun Hc) in Hput.
    destruct (upsert_sdg_result_table _ _ _ _ _ _ _ _ Hc Hput)
      as (payload & values & ts & ts' & _ & _ & Hts & Htok & Hu & -> & _ & _ & Hconf).
    unfold sdg_rows_with. rewrite <- Hs. simpl. rewrite Hts. simpl.
    rewrite (upsert_length _ _ _ _ _ Hu), (ok_pk _ _ _ Htok).
    now rewrite (filter_ext _ _ Hconf).
Qed.

Lemma put_adds_at_most_one_row_witness :
  let st := run session fresh in
  process_ok st /\
  (exists st',
      upsert_work paper_a_revised PyNone later_time st = (Ok tt, st') /\
      length (rows_of (works (store st'))) = 1%nat) /\
  (exists st',
      upsert_work paper_b PyNone later_time st = (Ok tt, st') /\
      length (rows_of (works (store st'))) = 2%nat).
Proof.
  intros st.
  assert (Hok : process_ok st) by (apply process_ready_ok, run_ready, fresh_ready).
  split; [exact Hok |]. split.
  - eexists. split; [vm_compute; reflexivity |].
    refine (proj1 (put_adds_at_most_one_row st _ paper_a_revised PyNone later_time
                     "W1" "model-a" PyNone PyNone PyNone "W1" Hok) _ _);
      reflexivity.
  - eexists. split; [vm_compute; reflexivity |].
    refine (proj1 (put_adds_at_most_one_row st _ paper_b PyNone later_time
                     "W1" "model-a" PyNone PyNone PyNone "W2" Hok) _ _);
      reflexivity.
Defined.

(** ** Identifiers that are not strings *)

Lemma sql_eq_null (v : SqlVal) : sql_eq v SqlNull = false.
Proof. now destruct v. Qed.

(** X12.  [openalex_id] is a primary key that accepts NULL, and a NULL key
    never conflicts.  So every successful [upsert_work] whose [row] has no
    [openalex_id] (or has [None]) adds one more row, and no lookup is
    affected: such rows accumulate and cannot be read through
    [get_cached_work]. *)
Theorem missing_identifier_adds_a_row
    (st st' : process) (row : pydict) (raw_record : PyVal) (utcnow : datetime) :
  process_ok st ->
  dict_get row "openalex_id" = PyNone ->
  upsert_work row raw_record utcnow st = (Ok tt, st') ->
  length (rows_of (works (store st'))) = S (length (rows_of (works (store st)))) /\
  forall k, fst (get_cached_work k st') = fst (get_cached_work k st).
Proof.
  intros Hok Hkey Hput.
  destruct (get_conn_ok st (upsert_work_ready _ _ _ _ _ Hok Hput))
    as (st1 & Hrun & Hc & _ & _ & Hw).
  rewrite (upsert_work_enter _ _ _ st st1 Hrun Hc) in Hput.
  split.
  - destruct (upsert_work_table _ _ _ _ _ Hc Hput)
      as (payload & values & tw & tw' & b & _ & _ & Htw & Htok & Hu & -> & Hb & _ & Hconf).
    rewrite <- (entered_length st st1 Hw). simpl. rewrite Htw. simpl.
    rewrite (upsert_length _ _ _ _ _ Hu), (ok_pk _ _ _ Htok).
    rewrite Hkey in Hb. injection Hb as <-. simpl in Hconf.
    rewrite (filter_ext _ _ Hconf), filter_none; [lia |].
    apply Forall_forall. intros r _. apply sql_eq_null.
  - intros k.
    destruct (upsert_work_effect _ _ _ _ _ Hc Hput)
      as (payload & values & Hp & Hv & Hc' & _ & _ & Hframe).
    rewrite (get_cached_work_enter k st st1 Hrun Hc).
    apply get_cached_work_answer; auto. apply Hframe.
    destruct (payload_key _ _ _ _ _ Hp Hv) as (b & Hb & ->).
    rewrite Hkey in Hb. injection Hb as <-. discriminate.
Qed.

Lemma missing_identifier_adds_a_row_witness :
  let st := run [PutWork paper_anonymous PyNone sample_time] fresh in
  process_ok st /\ dict_get paper_anonymous "openalex_id" = PyNone /\
  exists st',
    upsert_work paper_anonymous PyNone sample_time st = (Ok tt, st') /\
    length (rows_of (works (store st'))) = 2%nat /\
    forall k, fst (get_cached_work k st') = fst (get_cached_work k st).
Proof.
  intros st.
  assert (Hok : process_ok st) by (apply process_ready_ok, run_ready, fresh_ready).
  split; [exact Hok |]. split; [reflexivity |].
  eexists. split; [vm_compute; reflexivity |].
  apply (missing_identifier_adds_a_row st _ paper_anonymous PyNone sample_time Hok);
    reflexivity.
Defined.

(** X13.  An identifier given as an integer is stored as its decimal text
    (the column has TEXT affinity): after the put, [get_cached_work] of
    that text finds the row and returns the identifier as a string. *)
Theorem integer_identifier_is_stored_as_text
    (st st' : process) (row : pydict) (raw_record : PyVal) (utcnow : datetime)
    (z : Z) (openalex_id : string) :
  process_ok st ->
  dict_get row "openalex_id" = PyInt z ->
  upsert_work row raw_record utcnow st = (Ok tt, st') ->
  strip openalex_id = str_of_int z ->
  exists d,
    get_cached_work openalex_id st' = (Ok (Some d), st') /\
    dict_get d "openalex_id" = PyStr (str_of_int z).
Proof.
  intros Hok Hkey Hput Hid.
  destruct (get_conn_ok st (upsert_work_ready _ _ _ _ _ Hok Hput))
    as (st1 & Hrun & Hc & _).
  rewrite (upsert_work_enter _ _ _ st st1 Hrun Hc) in Hput.
  destruct (upsert_work_effect _ _ _ _ _ Hc Hput)
    as (payload & values & Hp & Hv & Hc' & _ & Hrow & _).
  destruct (payload_key _ _ _ _ _ Hp Hv) as (b & Hb & Hst).
  rewrite Hkey in Hb. simpl in Hb.
  destruct ((int64_min <=? z) && (z <=? int64_max)); [| discriminate].
  injection Hb as <-. simpl in Hst.
  destruct (Hrow _ Hst) as (r & Hone & Hcells).
  exists (dict_of_row r).
  rewrite (get_cached_work_connected _ st' Hc'), Hid, Hone. simpl.
  split; [reflexivity |].
  rewrite dict_get_of_row.
  pose proof (Hcells (text_column "openalex_id")) as Hcell.
  cbn [c_name text_column] in Hcell. rewrite Hcell; [| simpl; tauto].
  now rewrite Hst.
Qed.

Lemma integer_identifier_is_stored_as_text_witness :
  process_ok fresh /\ strip " 42 " = str_of_int 42 /\
  exists st' d,
    upsert_work paper_numbered PyNone sample_time fresh = (Ok tt, st') /\
    get_cached_work " 42 " st' = (Ok (Some d), st') /\
    dict_get d "openalex_id" = PyStr (str_of_int 42).
Proof.
  split; [exact fresh_ok |]. split; [reflexivity |].
  eexists.
  assert (H : forall st' (Hput : upsert_work paper_numbered PyNone sample_time fresh
                                 = (Ok tt, st')),
             exists d,
               get_cached_work " 42 " st' = (Ok (Some d), st') /\
               dict_get d "openalex_id" = PyStr (str_of_int 42)).
  { intros st' Hput.
    apply (integer_identifier_is_stored_as_text fresh st' paper_numbered PyNone
             sample_time 42 " 42 " fresh_ok eq_refl Hput eq_refl). }
  destruct (H _ eq_refl) as (d & Hget & Hd).
  exists d. split; [reflexivity |]. split; assumption.
Defined.

(** ** What a lookup returns *)



(** X15.  In the classification cache a put and a get whose keys differ
    only in surrounding whitespace address the same row: after
    [upsert_sdg_result] for [(id1, m1)], a lookup of any [(id2, m2)] with
    the same trimmed forms returns the row that holds the put's payload. *)
Theorem sdg_keys_are_trimmed
    (st st' : process) (id1 m1 id2 m2 : string)
    (sdg_response sdg_formatted sdg_note : PyVal) (utcnow : datetime) :
  process_ok st ->
  strip id2 = strip id1 -> strip m2 = strip m1 ->
  upsert_sdg_result id1 m1 sdg_response sdg_formatted sdg_note utcnow st
  = (Ok tt, st') ->
  exists r payload,
    get_cached_sdg_result id2 m2 st'
    = (Ok (Some (dict_of_row (sdg_projection r))), st') /\
    sdg_payload id1 m1 sdg_response sdg_formatted sdg_note utcnow = Ok payload /\
    row_holds sdg_results_columns payload r.
Proof.
  intros Hok Hid Hm Hput.
  destruct (upsert_sdg_result_stores _ _ _ _ _ _ _ _ Hok Hput)
    as (Hc' & r & payload & Hone & Hp & Hholds).
  exists r, payload.
  rewrite (get_cached_sdg_result_connected _ _ st' Hc'), Hid, Hm, Hone.
  split; [reflexivity |]. split; assumption.
Qed.

Lemma sdg_keys_are_trimmed_witness :
  process_ok fresh /\ strip "W1 " = strip " W1" /\
  strip " model-a " = strip "model-a" /\
  exists st' r payload,
    upsert_sdg_result " W1" "model-a" response_a (PyStr "SDG 3") PyNone
      sample_time fresh = (Ok tt, st') /\
    get_cached_sdg_result "W1 " " model-a " st'
    = (Ok (Some (dict_of_row (sdg_projection r))), st') /\
    sdg_payload " W1" "model-a" response_a (PyStr "SDG 3") PyNone sample_time
    = Ok payload /\
    row_holds sdg_results_columns payload r.
Proof.
  split; [exact fresh_ok |]. split; [reflexivity |]. split; [reflexivity |].
  eexists.
  assert (H : forall st' (Hput : upsert_sdg_result " W1" "model-a" response_a
                                   (PyStr "SDG 3") PyNone sample_time fresh
                                 = (Ok tt, st')),
             exists r payload,
               get_cached_sdg_result "W1 " " model-a " st'
               = (Ok (Some (dict_of_row (sdg_projection r))), st') /\
               sdg_payload " W1" "model-a" response_a (PyStr "SDG 3") PyNone
                 sample_time = Ok payload /\
               row_holds sdg_results_columns payload r).
  { intros st' Hput.
    apply (sdg_keys_are_trimmed fresh st' " W1" "model-a" "W1 " " model-a "
             response_a (PyStr "SDG 3") PyNone sample_time fresh_ok eq_refl eq_refl
             Hput). }
  destruct (H _ eq_refl) as (r & payload & Hget & Hp & Hr).
  exists r, payload. split; [reflexivity |]. split; [exact Hget |]. split; assumption.
Defined.

(** ** Columns a put does not name *)

Lemma upsert_other_columns
    (target set_cols : list string) (cells : list (string * SqlVal))
    (t t' : table) (r0 r' : row) (c : string) :
  upsert target set_cols cells t = Ok t' ->
  filter (fun r => conflicts (t_pk t) r (inserted_row t cells)) (t_rows t) = [r0] ->
  filter (fun r => conflicts (t_pk t) r (inserted_row t cells)) (t_rows t') = [r'] ->
  ~ In c set_cols ->
  cell r' c = cell r0 c.
Proof.
  intros Hu H0 H' Hc.
  destruct (upsert_spec _ _ _ _ _ Hu) as (_ & _ & H). cbv zeta in H.
  destruct H as [(l1 & r & l2 & Hrows & Hrows' & Hconf) | [_ Hnone]].
  - assert (Hr : r = r0).
    { assert (Hin : In r (filter (fun r => conflicts (t_pk t) r (inserted_row t cells))
                            (t_rows t))).
      { apply filter_In. split; [| exact Hconf].
        rewrite Hrows. apply in_or_app. right. now left. }
      rewrite H0 in Hin. destruct Hin as [-> | []]. reflexivity. }
    assert (Hr' : updated_row set_cols (inserted_row t cells) r = r').
    { assert (Hin : In (updated_row set_cols (inserted_row t cells) r)
                      (filter (fun r => conflicts (t_pk t) r (inserted_row t cells))
                         (t_rows t'))).
      { apply filter_In. split.
        - rewrite Hrows'. apply in_or_app. right. now left.
        - rewrite <- Hconf. apply conflicts_same_key.
          now apply key_of_updated_row. }
      rewrite H' in Hin. destruct Hin as [-> | []]. reflexivity. }
    subst r0 r'.
    destruct (in_dec string_dec c (map fst r)) as [Hin | Hout].
    + rewrite (cell_updated_row _ _ _ _ Hin).
      apply mem_false in Hc. now rewrite Hc.
    + now apply cell_updated_row_absent.
  - rewrite (filter_none _ _ Hnone) in H0. discriminate.
Qed.

(** X16.  A put writes the columns it names and no others.  When the row
    under the key exists, [upsert_work] leaves every column outside the
    module's schema as it was, and [upsert_sdg_result] leaves every column
    other than the four of its [SET] clause as it was (the key columns and
    any column added by hand). *)
Theorem puts_keep_unnamed_columns
    (st st' : process) (row : pydict) (raw_record : PyVal) (utcnow : datetime)
    (openalex_id model : string) (sdg_response sdg_formatted sdg_note : PyVal)
    (k : string) (r0 : Sqlite.row) :
  process_ok st ->
  (dict_get row "openalex_id" = PyStr k ->
   works_rows_with k (store st) = [r0] ->
   upsert_work row raw_record utcnow st = (Ok tt, st') ->
   exists r',
     works_rows_with k (store st') = [r'] /\
     forall c, ~ In c (map c_name works_columns) -> cell r' c = cell r0 c) /\
  (sdg_rows_with (strip openalex_id) (strip model) (store st) = [r0] ->
   upsert_sdg_result openalex_id model sdg_response sdg_formatted sdg_note utcnow st
   = (Ok tt, st') ->
   exists r',
     sdg_rows_with (strip openalex_id) (strip model) (store st') = [r'] /\
     forall c,
       ~ In c ["sdg_response"; "sdg_formatted"; "sdg_note"; "classified_at"] ->
       cell r' c = cell r0 c).
Proof.
  intros Hok. split.
  - intros Hkey Hone Hput.
    destruct (get_conn_ok st (upsert_work_ready _ _ _ _ _ Hok Hput))
      as (st1 & Hrun & Hc & _ & Hs & Hw).
    rewrite (upsert_work_enter _ _ _ st st1 Hrun Hc) in Hput.
    destruct (upsert_work_effect _ _ _ _ _ Hc Hput)
      as (payload & values & Hp & Hv & _ & _ & Hrow & _).
    destruct (payload_key _ _ _ _ _ Hp Hv) as (b0 & Hb0 & Hst).
    rewrite Hkey in Hb0. injection Hb0 as <-. simpl in Hst.
    destruct (Hrow _ Hst) as (r' & Hone' & _).
    exists r'. split; [exact Hone' |].
    intros c Hc0.
    destruct (upsert_work_table _ _ _ _ _ Hc Hput)
      as (payload' & values' & tw & tw' & b & _ & _ & Htw & Htok & Hu & -> & Hb & _ & Hconf).
    rewrite Hkey in Hb. injection Hb as <-. simpl in Hconf.
    unfold works_rows_with in Hone'. simpl in Hone'.
    assert (H1 : exists r1, works_rows_with k (store st1) = [r1] /\
                            cell r1 c = cell r0 c).
    { destruct (entered_rows st st1 k Hw) as [E | E]; rewrite E, Hone.
      - now exists r0.
      - exists (with_affiliations r0). split; [reflexivity |].
        unfold with_affiliations. apply cell_extend. }
    destruct H1 as (r1 & Hone1 & <-).
    unfold works_rows_with in Hone1. rewrite Htw in Hone1. simpl in Hone1.
    apply (upsert_other_columns _ _ _ _ _ r1 r' c Hu); auto;
      rewrite (ok_pk _ _ _ Htok), (filter_ext _ _ Hconf); assumption.
  - intros Hone Hput.
    destruct (get_conn_ok st (upsert_sdg_result_ready _ _ _ _ _ _ _ _ Hok Hput))
      as (st1 & Hrun & Hc & _ & Hs & Hw).
    rewrite (upsert_sdg_result_enter _ _ _ _ _ _ st st1 Hrun Hc) in Hput.
    destruct (upsert_sdg_result_effect _ _ _ _ _ _ _ _ Hc Hput)
      as (payload & values & _ & _ & _ & _ & (r' & Hone' & _) & _).
    exists r'. split; [exact Hone' |].
    intros c Hc0.
    destruct (upsert_sdg_result_table _ _ _ _ _ _ _ _ Hc Hput)
      as (payload' & values' & ts & ts' & _ & _ & Hts & Htok & Hu & -> & _ & _ & Hconf).
    unfold sdg_rows_with in Hone, Hone'. rewrite <- Hs in Hone.
    rewrite Hts in Hone. simpl in Hone, Hone'.
    apply (upsert_other_columns _ _ _ _ _ r0 r' c Hu); auto;
      rewrite (ok_pk _ _ _ Htok), (filter_ext _ _ Hconf); assumption.
Qed.

Lemma puts_keep_unnamed_columns_witness :
  let st := {| _CONN := None; store := annotated_db |} in
  process_ok st /\ works_rows_with "W1" (store st) = [annotated_row] /\
  exists st' r',
    upsert_work paper_a_revised PyNone later_time st = (Ok tt, st') /\
    works_rows_with "W1" (store st') = [r'] /\
    forall c, ~ In c (map c_name works_columns) -> cell r' c = cell annotated_row c.
Proof.
  intros st.
  split; [exact annotated_db_ok |]. split; [reflexivity |].
  eexists.
  assert (H : forall st' (Hput : upsert_work paper_a_revised PyNone later_time st
                                 = (Ok tt, st')),
             exists r',
               works_rows_with "W1" (store st') = [r'] /\
               forall c, ~ In c (map c_name works_columns) ->
                         cell r' c = cell annotated_row c).
  { intros st' Hput.
    apply (proj1 (puts_keep_unnamed_columns st st' paper_a_revised PyNone later_time
                    "W1" "model-a" PyNone PyNone PyNone "W1" annotated_row
                    annotated_db_ok) eq_refl eq_refl Hput). }
  destruct (H _ eq_refl) as (r' & Hone & Hcells).
  exists r'. split; [reflexivity |]. split; assumption.
Defined.

(** ** Concurrent calls of any kind *)

Lemma connected_eta (v : process) : connected v -> on_disk (store v) = v.
Proof. destruct v as [c db]. intros [Hc _]. simpl in Hc. now subst c. Qed.

Lemma lookup_steps (i : nat) (c : call) :
  is_lookup c = true -> forall p s, thread_step i c p s = get_step p s.
Proof. destruct c; try discriminate; reflexivity. Qed.

(** A put, as the thread model runs it, is the call itself. *)
Lemma put_runs (i : nat) (c : call) :
  is_lookup c = false ->
  exists statement : pydict -> M unit,
    (forall p s, thread_step i c p s = put_step i (call_payload c) statement p s) /\
    (forall d v,
        connected v -> call_payload c = Ok d ->
        run_call c v = snd (statement d v) /\
        connected (snd (statement d v)) /\
        forall e, fst (statement d v) = Raise e -> snd (statement d v) = v).
Proof.
  destruct c as [id | row raw utcnow | id model | id model resp fmt note utcnow];
    try discriminate; intros _.
  - exists work_statement. split; [reflexivity |].
    intros d v Hc Hp. simpl in Hp.
    rewrite <- (upsert_work_statement row raw utcnow d v Hc Hp).
    split; [reflexivity |]. split.
    + now apply upsert_work_keeps_connected.
    + intros e He.
      destruct (upsert_work_outcome row raw utcnow v Hc) as [[e0 E] | [st' E]];
        rewrite E in *; [reflexivity | discriminate].
  - exists sdg_statement. split; [reflexivity |].
    intros d v Hc Hp. simpl in Hp.
    rewrite <- (upsert_sdg_result_statement id model resp fmt note utcnow d v Hc Hp).
    split; [reflexivity |]. split.
    + now apply upsert_sdg_result_keeps_connected.
    + intros e He.
      destruct (upsert_sdg_result_outcome id model resp fmt note utcnow v Hc)
        as [[e0 E] | [st' E]]; rewrite E in *; [reflexivity | discriminate].
Qed.

Lemma committed_calls_cons (calls : list call) (commits : list nat) (i : nat) (c : call) :
  nth_error calls i = Some c ->
  committed_calls calls (i :: commits) = (committed_calls calls commits ++ [c])%list.
Proof.
  intros H. unfold committed_calls. simpl. rewrite flat_map_app. simpl.
  now rewrite H.
Qed.

Lemma run_app (l1 l2 : list call) (st : process) :
  run (l1 ++ l2) st = run l2 (run l1 st).
Proof. apply fold_left_app. Qed.

Section Serial.

Variables (calls : list call) (st0 : process).

Lemma serial_initial : connected st0 -> serial calls st0 (initial calls st0).
Proof.
  intros Hc.
  assert (Hnth : forall i c p,
             nth_error (map (fun c => (c, Called)) calls) i = Some (c, p) ->
             p = Called).
  { intros i c p H. rewrite nth_error_map in H.
    destruct (nth_error calls i); simpl in H; congruence. }
  constructor; simpl.
  - rewrite map_map. simpl. apply map_id.
  - exact Hc.
  - intros i c p H Hh. rewrite (Hnth _ _ _ H) in Hh. discriminate.
  - discriminate.
  - intros i c p d H [E | [E | E]]; rewrite (Hnth _ _ _ H) in E; discriminate.
  - intros i c p H _. left. eauto.
  - intros i c d H. apply Hnth in H. discriminate.
  - reflexivity.
  - now apply connected_eta.
  - constructor.
  - intros i [].
  - intros i c p H _ [E | E]; rewrite (Hnth _ _ _ H) in E; discriminate.
Qed.

Ltac thread Hupd Hj :=
  rewrite Hupd in Hj;
  match type of Hj with
  | (if Nat.eqb ?j ?i then _ else _) = _ =>
      destruct (Nat.eqb_spec j i) as [-> | ?]
  end.

Ltac stepped Hupd :=
  rewrite Hupd, Nat.eqb_refl; reflexivity.

Ltac still_clean Hupd Hnone Hnth i :=
  let j := fresh "j" in
  let cj := fresh "cj" in
  let d := fresh "d" in
  let Hj := fresh "Hj" in
  intros j cj d Hj; apply (Hnone j cj d); rewrite Hupd;
  destruct (Nat.eqb_spec j i) as [-> | _]; [congruence | exact Hj].

(** A thread that has committed is found where it was, unless it is the
    thread that stepped. *)
Ltac others Hupd Hcomm Hnth i :=
  let j := fresh "j" in
  let Hin := fresh "Hin" in
  let cj := fresh "cj" in
  let pj := fresh "pj" in
  let Hj := fresh "Hj" in
  let Hp := fresh "Hp" in
  let Hl := fresh "Hl" in
  intros j Hin; destruct (Hcomm j Hin) as (cj & pj & Hj & Hp & Hl);
  rewrite Hupd; destruct (Nat.eqb_spec j i) as [-> | _];
  [rewrite Hnth in Hj; injection Hj as <- <- | exists cj, pj; auto].

Lemma serial_step (cfg cfg' : config) :
  serial calls st0 cfg -> step cfg cfg' -> serial calls st0 cfg'.
Proof.
  intros [Icalls Iconn Iholder Ilock Ipayload Ilookup Iexec Iclean Idisk Ionce
            Icomm Idone] Hstep.
  destruct Hstep as [i c p p' ts s s' Hnth Hts]. simpl in *.
  assert (Hcall : nth_error calls i = Some c).
  { rewrite <- Icalls. now apply (nth_error_map_fst ts i c p). }
  pose proof (fun j x => nth_error_update ts i j (c, p) x Hnth) as Hupd.
  pose proof (map_fst_update ts i c p p' Hnth) as Hmap.
  destruct (is_lookup c) eqn:Hkind.
  { (* a lookup *)
    rewrite (lookup_steps i c Hkind) in Hts. unfold get_step in Hts.
    destruct p; try discriminate.
    destruct (_CONN (view s)); [| discriminate]. injection Hts as <- <-.
    constructor; simpl.
    - congruence.
    - exact Iconn.
    - intros j cj pj Hj Hl. thread Hupd Hj; [| eauto].
      injection Hj as _ <-. discriminate.
    - intros j Hl. destruct (Ilock j Hl) as (cj & pj & Hj & Hl').
      exists cj, pj. split; [| exact Hl'].
      rewrite Hupd. destruct (Nat.eqb_spec j i) as [-> | _]; [| exact Hj].
      rewrite Hnth in Hj. injection Hj as <- <-. discriminate.
    - intros j cj pj d Hj Hd. thread Hupd Hj; [| eauto].
      injection Hj as _ <-. destruct Hd as [E | [E | E]]; discriminate.
    - intros j cj pj Hj Hl. thread Hupd Hj; [| eauto].
      injection Hj as _ <-. now right.
    - intros j cj d Hj. thread Hupd Hj; [discriminate | eauto].
    - intros Hnone. apply Iclean. still_clean Hupd Hnone Hnth i.
    - exact Idisk.
    - exact Ionce.
    - others Hupd Icomm Hnth i. congruence.
    - intros j cj pj Hj Hl Hd. thread Hupd Hj; [| eauto].
      injection Hj as <- _. congruence. }
  destruct (put_runs i c Hkind) as (statement & Hstep & Hst).
  rewrite Hstep in Hts. clear Hstep.
  destruct p as [|d|d|d| |e| |e]; simpl in Hts.
  - (* the payload is built, or building it raises *)
    destruct (_CONN (view s)); [| discriminate].
    assert (Hp' : holds_lock p' = false /\ (forall d, p' <> Executed d) /\
                  p' <> Committed /\ p' <> Returned /\
                  (forall d, p' = Waiting d \/ p' = Holding d \/ p' = Executed d ->
                             call_payload c = Ok d) /\ s' = s).
    { destruct (call_payload c) as [d | e]; injection Hts as <- <-;
        repeat split; try discriminate; intros d' [E | [E | E]]; congruence. }
    destruct Hp' as (Hh & Hne & Hnc & Hnr & Hpay & ->). clear Hts.
    constructor; simpl.
    + congruence.
    + exact Iconn.
    + intros j cj pj Hj Hl. thread Hupd Hj; [congruence | eauto].
    + intros j Hl. destruct (Ilock j Hl) as (cj & pj & Hj & Hl').
      exists cj, pj. split; [| exact Hl'].
      rewrite Hupd. destruct (Nat.eqb_spec j i) as [-> | _]; [| exact Hj].
      rewrite Hnth in Hj. injection Hj as <- <-. discriminate.
    + intros j cj pj d Hj Hd. thread Hupd Hj; [| eauto].
      injection Hj as <- <-. auto.
    + intros j cj pj Hj Hl. thread Hupd Hj; [| eauto].
      injection Hj as <- _. congruence.
    + intros j cj d Hj. thread Hupd Hj; [| eauto].
      injection Hj as _ E. now elim (Hne d).
    + intros Hnone. apply Iclean. still_clean Hupd Hnone Hnth i.
    + exact Idisk.
    + exact Ionce.
    + others Hupd Icomm Hnth i. destruct Hp; discriminate.
    + intros j cj pj Hj Hl Hd. thread Hupd Hj; [| eauto].
      injection Hj as _ <-. tauto.
  - (* the lock is taken *)
    destruct (_LOCK s) eqn:Hl; [discriminate |]. injection Hts as <- <-.
    constructor; simpl.
    + congruence.
    + exact Iconn.
    + intros j cj pj Hj Hh. thread Hupd Hj; [reflexivity |].
      pose proof (Iholder _ _ _ Hj Hh). congruence.
    + intros j [= <-]. exists c, (Holding d). split; [stepped Hupd | reflexivity].
    + intros j cj pj d' Hj Hd. thread Hupd Hj; [| eauto].
      injection Hj as <- <-.
      destruct Hd as [E | [E | E]]; try discriminate. injection E as <-.
      apply (Ipayload i c (Waiting d) d Hnth). auto.
    + intros j cj pj Hj Hk. thread Hupd Hj; [| eauto].
      injection Hj as <- _. congruence.
    + intros j cj d' Hj. thread Hupd Hj; [discriminate | eauto].
    + intros Hnone. apply Iclean. still_clean Hupd Hnone Hnth i.
    + exact Idisk.
    + exact Ionce.
    + others Hupd Icomm Hnth i. destruct Hp; discriminate.
    + intros j cj pj Hj Hk Hd. thread Hupd Hj; [| eauto].
      injection Hj as _ <-. destruct Hd; discriminate.
  - (* the statement runs *)
    pose proof (Ipayload i c (Holding d) d Hnth (or_intror (or_introl eq_refl)))
      as Hpay.
    pose proof (Iholder i c (Holding d) Hnth eq_refl) as Hli.
    destruct (Hst d (view s) Iconn Hpay) as (Hrun & Hc' & Hraise).
    assert (Hclean : store (view s) = disk s).
    { apply Iclean. intros j cj dj Hj.
      pose proof (Iholder j cj (Executed dj) Hj eq_refl) as Hlj.
      rewrite Hli in Hlj. injection Hlj as <-.
      rewrite Hnth in Hj. discriminate. }
    destruct (statement d (view s)) as [[u | e] v] eqn:Hs; injection Hts as <- <-;
      simpl in *.
    + constructor; simpl.
      * congruence.
      * exact Hc'.
      * intros j cj pj Hj Hh. thread Hupd Hj; [exact Hli | eauto].
      * intros j Hl. rewrite Hli in Hl. injection Hl as <-.
        exists c, (Executed d). split; [stepped Hupd | reflexivity].
      * intros j cj pj d' Hj Hd. thread Hupd Hj; [| eauto].
        injection Hj as <- <-.
        destruct Hd as [E | [E | E]]; try discriminate. now injection E as <-.
      * intros j cj pj Hj Hk. thread Hupd Hj; [| eauto].
        injection Hj as <- _. congruence.
      * intros j cj d' Hj. thread Hupd Hj.
        -- injection Hj as <- _. rewrite <- Hclean, (connected_eta _ Iconn).
           now rewrite Hrun.
        -- pose proof (Iholder j cj (Executed d') Hj eq_refl). congruence.
      * intros Hnone. exfalso. apply (Hnone i c d). stepped Hupd.
      * exact Idisk.
      * exact Ionce.
      * others Hupd Icomm Hnth i. destruct Hp; discriminate.
      * intros j cj pj Hj Hk Hd. thread Hupd Hj; [| eauto].
        injection Hj as _ <-. destruct Hd; discriminate.
    + pose proof (Hraise e eq_refl) as ->.
      constructor; simpl.
      * congruence.
      * exact Iconn.
      * intros j cj pj Hj Hh. thread Hupd Hj; [exact Hli | eauto].
      * intros j Hl. rewrite Hli in Hl. injection Hl as <-.
        exists c, (Unwinding e). split; [stepped Hupd | reflexivity].
      * intros j cj pj d' Hj Hd. thread Hupd Hj; [| eauto].
        injection Hj as _ <-. destruct Hd as [E | [E | E]]; discriminate.
      * intros j cj pj Hj Hk. thread Hupd Hj; [| eauto].
        injection Hj as <- _. congruence.
      * intros j cj d' Hj. thread Hupd Hj; [discriminate | eauto].
      * intros Hnone. apply Iclean. still_clean Hupd Hnone Hnth i.
      * exact Idisk.
      * exact Ionce.
      * others Hupd Icomm Hnth i. destruct Hp; discriminate.
      * intros j cj pj Hj Hk Hd. thread Hupd Hj; [| eauto].
        injection Hj as _ <-. destruct Hd; discriminate.
  - (* the commit *)
    pose proof (Iholder i c (Executed d) Hnth eq_refl) as Hli.
    pose proof (Iexec i c d Hnth) as Hview.
    injection Hts as <- <-.
    constructor; simpl.
    + congruence.
    + exact Iconn.
    + intros j cj pj Hj Hh. thread Hupd Hj; [exact Hli | eauto].
    + intros j Hl. rewrite Hli in Hl. injection Hl as <-.
      exists c, Committed. split; [stepped Hupd | reflexivity].
    + intros j cj pj d' Hj Hd. thread Hupd Hj; [| eauto].
      injection Hj as _ <-. destruct Hd as [E | [E | E]]; discriminate.
    + intros j cj pj Hj Hk. thread Hupd Hj; [| eauto].
      injection Hj as <- _. congruence.
    + intros j cj d' Hj. thread Hupd Hj; [discriminate |].
      pose proof (Iholder j cj (Executed d') Hj eq_refl). congruence.
    + reflexivity.
    + rewrite (committed_calls_cons calls (commits s) i c Hcall), run_app.
      simpl. rewrite <- Idisk, <- Hview. now apply connected_eta.
    + constructor; [| exact Ionce]. intros Hin.
      destruct (Icomm i Hin) as (ci & pi & Hi & Hp & _).
      rewrite Hnth in Hi. injection Hi as _ <-. destruct Hp; discriminate.
    + intros j [<- | Hin].
      * exists c, Committed. split; [stepped Hupd | auto].
      * destruct (Icomm j Hin) as (cj & pj & Hj & Hp & Hk).
        rewrite Hupd. destruct (Nat.eqb_spec j i) as [-> | _].
        -- rewrite Hnth in Hj. injection Hj as _ <-. destruct Hp; discriminate.
        -- exists cj, pj. auto.
    + intros j cj pj Hj Hk Hd. thread Hupd Hj; [now left | right; eauto].
  - (* the lock is released after the commit *)
    pose proof (Iholder i c Committed Hnth eq_refl) as Hli.
    injection Hts as <- <-.
    constructor; simpl.
    + congruence.
    + exact Iconn.
    + intros j cj pj Hj Hh. thread Hupd Hj.
      * injection Hj as _ <-. discriminate.
      * pose proof (Iholder _ _ _ Hj Hh). congruence.
    + discriminate.
    + intros j cj pj d' Hj Hd. thread Hupd Hj; [| eauto].
      injection Hj as _ <-. destruct Hd as [E | [E | E]]; discriminate.
    + intros j cj pj Hj Hk. thread Hupd Hj; [| eauto].
      injection Hj as <- _. congruence.
    + intros j cj d' Hj. thread Hupd Hj; [discriminate | eauto].
    + intros Hnone. apply Iclean. still_clean Hupd Hnone Hnth i.
    + exact Idisk.
    + exact Ionce.
    + intros j Hin. destruct (Icomm j Hin) as (cj & pj & Hj & Hp & Hk).
      rewrite Hupd. destruct (Nat.eqb_spec j i) as [-> | _].
      * rewrite Hnth in Hj. injection Hj as <- <-. exists c, Returned. auto.
      * exists cj, pj. auto.
    + intros j cj pj Hj Hk Hd. thread Hupd Hj; [| eauto].
      apply (Idone i c Committed Hnth Hkind). auto.
  - (* the lock is released after a failed statement *)
    pose proof (Iholder i c (Unwinding e) Hnth eq_refl) as Hli.
    injection Hts as <- <-.
    constructor; simpl.
    + congruence.
    + exact Iconn.
    + intros j cj pj Hj Hh. thread Hupd Hj.
      * injection Hj as _ <-. discriminate.
      * pose proof (Iholder _ _ _ Hj Hh). congruence.
    + discriminate.
    + intros j cj pj d' Hj Hd. thread Hupd Hj; [| eauto].
      injection Hj as _ <-. destruct Hd as [E | [E | E]]; discriminate.
    + intros j cj pj Hj Hk. thread Hupd Hj; [| eauto].
      injection Hj as <- _. congruence.
    + intros j cj d' Hj. thread Hupd Hj; [discriminate | eauto].
    + intros Hnone. apply Iclean. still_clean Hupd Hnone Hnth i.
    + exact Idisk.
    + exact Ionce.
    + others Hupd Icomm Hnth i. destruct Hp; discriminate.
    + intros j cj pj Hj Hk Hd. thread Hupd Hj; [| eauto].
      injection Hj as _ <-. destruct Hd; discriminate.
  - discriminate.
  - discriminate.
Qed.

Lemma serial_steps (cfg : config) :
  connected st0 -> steps (initial calls st0) cfg -> serial calls st0 cfg.
Proof.
  intros Hc Hsteps.
  remember (initial calls st0) as cfg0 eqn:E.
  induction Hsteps as [cfg | cfg cfg' cfg'' _ IH Hstep].
  - subst cfg. now apply serial_initial.
  - eapply serial_step; [| exact Hstep]. now apply IH.
Qed.

End Serial.

(** X17.  Concurrent calls are serialised by [_LOCK].  In every
    configuration that threads making any calls (puts on either cache, on
    any keys, and lookups) can reach from a connected process, the
    committed database is the one that the committed calls produce when run
    one after another in the order of their commits; a put commits at most
    once, and it has committed exactly when it is past its
    [conn.commit()]; once every thread has returned or raised, the
    connection sees that same database. *)
Theorem concurrent_calls_are_serial
    (calls : list call) (st0 : process) (cfg : config) :
  connected st0 -> steps (initial calls st0) cfg ->
  on_disk (disk (sh cfg)) = run (committed_calls calls (commits (sh cfg))) st0 /\
  NoDup (commits (sh cfg)) /\
  (forall i c p,
      nth_error (threads cfg) i = Some (c, p) -> is_lookup c = false ->
      (In i (commits (sh cfg)) <-> p = Committed \/ p = Returned)) /\
  ((forall c p, In (c, p) (threads cfg) -> finished p = true) ->
   view (sh cfg) = run (committed_calls calls (commits (sh cfg))) st0).
Proof.
  intros Hc Hsteps.
  destruct (serial_steps calls st0 cfg Hc Hsteps)
    as [Icalls Iconn Iholder Ilock Ipayload Ilookup Iexec Iclean Idisk Ionce
          Icomm Idone].
  split; [exact Idisk |]. split; [exact Ionce |]. split.
  - intros i c p Hnth Hkind. split.
    + intros Hin. destruct (Icomm i Hin) as (c' & p' & Hnth' & Hp & _).
      rewrite Hnth in Hnth'. now injection Hnth' as _ <-.
    + now apply (Idone i c p).
  - intros Hall. rewrite <- Idisk, <- Iclean; [now rewrite connected_eta |].
    intros i c d Hnth. apply nth_error_In, Hall in Hnth. discriminate.
Qed.

Lemma concurrent_calls_are_serial_witness :
  exists cfg,
    run_schedule mixed_schedule (initial mixed_calls opened) = Some cfg /\
    commits (sh cfg) = [2; 0]%nat /\
    on_disk (disk (sh cfg))
    = run (committed_calls mixed_calls (commits (sh cfg))) opened /\
    NoDup (commits (sh cfg)) /\
    (forall i c p,
        nth_error (threads cfg) i = Some (c, p) -> is_lookup c = false ->
        (In i (commits (sh cfg)) <-> p = Committed \/ p = Returned)) /\
    ((forall c p, In (c, p) (threads cfg) -> finished p = true) ->
     view (sh cfg) = run (committed_calls mixed_calls (commits (sh cfg))) opened).
Proof.
  eexists. split; [vm_compute; reflexivity |]. split; [reflexivity |].
  apply (concurrent_calls_are_serial mixed_calls opened _ opened_connected).
  apply (run_schedule_steps mixed_schedule). vm_compute. reflexivity.
Defined.

(** X18.  The statement and its commit are one critical section.  In every
    reachable configuration at most one thread is inside a [with _LOCK:]
    block, and whenever [_LOCK] is free everything the shared connection
    sees has been committed. *)
Theorem lock_covers_statement_and_commit
    (calls : list call) (st0 : process) (cfg : config) :
  connected st0 -> steps (initial calls st0) cfg ->
  (forall i j ci pi cj pj,
      nth_error (threads cfg) i = Some (ci, pi) ->
      nth_error (threads cfg) j = Some (cj, pj) ->
      holds_lock pi = true -> holds_lock pj = true -> i = j) /\
  (_LOCK (sh cfg) = None -> store (view (sh cfg)) = disk (sh cfg)).
Proof.
  intros Hc Hsteps.
  destruct (serial_steps calls st0 cfg Hc Hsteps)
    as [Icalls Iconn Iholder Ilock Ipayload Ilookup Iexec Iclean Idisk Ionce
          Icomm Idone].
  split.
  - intros i j ci pi cj pj Hi Hj Hli Hlj.
    pose proof (Iholder _ _ _ Hi Hli) as Ei.
    pose proof (Iholder _ _ _ Hj Hlj) as Ej. congruence.
  - intros Hfree. apply Iclean. intros i c d Hnth.
    pose proof (Iholder _ _ _ Hnth eq_refl). congruence.
Qed.

Lemma lock_covers_statement_and_commit_witness :
  exists cfg,
    run_schedule mixed_schedule (initial mixed_calls opened) = Some cfg /\
    _LOCK (sh cfg) = None /\
    (forall i j ci pi cj pj,
        nth_error (threads cfg) i = Some (ci, pi) ->
        nth_error (threads cfg) j = Some (cj, pj) ->
        holds_lock pi = true -> holds_lock pj = true -> i = j) /\
    (_LOCK (sh cfg) = None -> store (view (sh cfg)) = disk (sh cfg)).
Proof.
  eexists. split; [vm_compute; reflexivity |]. split; [reflexivity |].
  apply (lock_covers_statement_and_commit mixed_calls opened _ opened_connected).
  apply (run_schedule_steps mixed_schedule). vm_compute. reflexivity.
Defined.

Lemma remaining_update (ts : list (call * pc)) (i : nat) (c : call) (p p' : pc) :
  nth_error ts i = Some (c, p) ->
  (list_sum (map (fun cp : call * pc => remaining (snd cp)) (update ts i (c, p')))
   + remaining p
   = list_sum (map (fun cp : call * pc => remaining (snd cp)) ts) + remaining p')%nat.
Proof.
  revert i. induction ts as [| x ts IH]; intros [| i]; simpl; try discriminate.
  - intros [= ->]. simpl. lia.
  - intros H. specialize (IH i H). lia.
Qed.

Lemma thread_step_remaining (i : nat) (c : call) (p p' : pc) (s s' : shared) :
  thread_step i c p s = Some (p', s') -> (remaining p' < remaining p)%nat.
Proof.
  assert (Hput : forall payload statement,
             put_step i payload statement p s = Some (p', s') ->
             (remaining p' < remaining p)%nat).
  { intros payload statement H. destruct p; simpl in H; try discriminate.
    - destruct (_CONN (view s)); [| discriminate].
      destruct payload; injection H as <- _; simpl; lia.
    - destruct (_LOCK s); [discriminate |]. injection H as <- _. simpl. lia.
    - destruct (statement payload0 (view s)) as [[u | e] v];
        injection H as <- _; simpl; lia.
    - injection H as <- _. simpl. lia.
    - injection H as <- _. simpl. lia.
    - injection H as <- _. simpl. lia. }
  destruct c; simpl; eauto; unfold get_step;
    destruct p; try discriminate;
    destruct (_CONN (view s)); try discriminate;
    intros [= <- _]; simpl; lia.
Qed.

(** X19.  No call waits forever.  In every reachable configuration in which
    some thread has not finished, some thread can take a step ([_LOCK] is
    released on every path, also when the statement raises); the number of
    steps the threads still have to take, at most five for each call,
    decreases with every step. *)
Theorem calls_run_to_completion
    (calls : list call) (st0 : process) (cfg : config) :
  connected st0 -> steps (initial calls st0) cfg ->
  ((exists c p, In (c, p) (threads cfg) /\ finished p = false) ->
   exists cfg', step cfg cfg') /\
  (forall cfg', step cfg cfg' -> (total_remaining cfg' < total_remaining cfg)%nat) /\
  (total_remaining cfg <= 5 * length calls)%nat.
Proof.
  intros Hc Hsteps.
  destruct (serial_steps calls st0 cfg Hc Hsteps)
    as [Icalls Iconn Iholder Ilock Ipayload Ilookup Iexec Iclean Idisk Ionce
          Icomm Idone].
  assert (Hconn : _CONN (view (sh cfg)) = Some Connection) by apply Iconn.
  destruct cfg as [ts s]. simpl in *.
  split; [| split].
  - intros (c & p & Hin & Hfin).
    assert (Hgo : exists i c p,
               nth_error ts i = Some (c, p) /\
               exists p' s', thread_step i c p s = Some (p', s')).
    { destruct (_LOCK s) as [i |] eqn:Hl.
      - destruct (Ilock i eq_refl) as (ci & pi & Hi & Hh).
        destruct (is_lookup ci) eqn:Hk.
        { destruct (Ilookup i ci pi Hi Hk) as [-> | ->]; discriminate. }
        destruct (put_runs i ci Hk) as (statement & Hstep & _).
        exists i, ci, pi. split; [exact Hi |]. rewrite Hstep.
        destruct pi; try discriminate; simpl; eauto.
        destruct (statement payload (view s)) as [[u | e] v]; eauto.
      - apply In_nth_error in Hin. destruct Hin as [i Hi].
        exists i, c, p. split; [exact Hi |].
        destruct (is_lookup c) eqn:Hk.
        + rewrite (lookup_steps i c Hk). unfold get_step.
          destruct (Ilookup i c p Hi Hk) as [-> | ->]; [| discriminate].
          rewrite Hconn. eauto.
        + destruct (put_runs i c Hk) as (statement & Hstep & _).
          rewrite Hstep.
          destruct p; try discriminate; simpl;
            try (pose proof (Iholder i c _ Hi eq_refl); congruence).
          * rewrite Hconn. destruct (call_payload c); eauto.
          * rewrite Hl. eauto. }
    destruct Hgo as (i & c0 & p0 & Hi & p' & s' & Hstep).
    eexists. apply (step_thread i c0 p0 p' ts s s' Hi Hstep).
  - intros cfg' Hstep. inversion Hstep as [i c p p' ts0 s0 s' Hi Hts E0 E']; subst.
    unfold total_remaining. simpl.
    pose proof (remaining_update ts i c p p' Hi).
    pose proof (thread_step_remaining i c p p' s s' Hts). lia.
  - unfold total_remaining. simpl. rewrite <- Icalls, length_map.
    clear. induction ts as [| [c p] ts IH]; simpl; [lia |].
    assert (remaining p <= 5)%nat by (destruct p; simpl; lia). lia.
Qed.

Lemma calls_run_to_completion_witness :
  exists cfg,
    run_schedule mixed_prefix (initial mixed_calls opened) = Some cfg /\
    _LOCK (sh cfg) = Some 0%nat /\
    ((exists c p, In (c, p) (threads cfg) /\ finished p = false) ->
     exists cfg', step cfg cfg') /\
    (forall cfg', step cfg cfg' -> (total_remaining cfg' < total_remaining cfg)%nat) /\
    (total_remaining cfg <= 5 * length mixed_calls)%nat.
Proof.
  eexists. split; [vm_compute; reflexivity |]. split; [reflexivity |].
  apply (calls_run_to_completion mixed_calls opened _ opened_connected).
  apply (run_schedule_steps mixed_prefix). vm_compute. reflexivity.
Defined.

(** ** Repeating a put *)

Lemma cell_of_row (r : row) (c : string) (v : SqlVal) :
  NoDup (map fst r) -> In (c, v) r -> cell r c = v.
Proof.
  unfold cell. induction r as [| [k a] r IH]; simpl; [contradiction |].
  intros Hn [E | Hin].
  - injection E as -> ->. now rewrite String.eqb_refl.
  - inversion Hn as [| ? ? Hk Hn']; subst.
    destruct (String.eqb_spec k c) as [-> | _]; [| now apply IH].
    elim Hk. apply (in_map fst) in Hin. exact Hin.
Qed.

Lemma updated_row_fixed (set_cols : list string) (e r : row) :
  NoDup (map fst r) ->
  (forall c, In c set_cols -> In c (map fst r) -> cell e c = cell r c) ->
  updated_row set_cols e r = r.
Proof.
  intros Hn H. unfold updated_row. rewrite <- (map_id r) at 2.
  apply map_ext_in. intros [c v] Hin. simpl.
  destruct (mem c set_cols) eqn:Hm; [| reflexivity].
  rewrite H.
  - now rewrite (cell_of_row r c v Hn Hin).
  - now apply mem_In.
  - apply (in_map fst) in Hin. exact Hin.
Qed.

Lemma update_conflicting_fixed
    (pk set_cols : list string) (e : row) (rows : list row) :
  Exists (fun r => conflicts pk r e = true) rows ->
  Forall (fun r => conflicts pk r e = true -> updated_row set_cols e r = r) rows ->
  update_conflicting pk set_cols e rows = Some rows.
Proof.
  induction rows as [| r rows IH]; intros Hex Hall; [inversion Hex |].
  inversion Hall as [| ? ? Hr Hall']; subst. simpl.
  destruct (conflicts pk r e) eqn:Hc.
  - now rewrite Hr.
  - rewrite IH; [reflexivity | | exact Hall'].
    inversion Hex as [? ? H | ? ? H]; subst; [congruence | exact H].
Qed.

(** An upsert that has just run finds its own row and rewrites it with the
    values it already holds. *)
Lemma upsert_again
    (target set_cols : list string) (cells : list (string * SqlVal))
    (t t' : table) :
  NoDup (col_names t) -> rows_aligned t -> keys_unique t ->
  upsert target set_cols cells t = Ok t' ->
  conflicts (t_pk t) (inserted_row t cells) (inserted_row t cells) = true ->
  upsert target set_cols cells t' = Ok t'.
Proof.
  intros Hn Ha Hk Hu Hnew.
  destruct (upsert_spec _ _ _ _ _ Hu) as (Hcols & Hpk & _).
  destruct (upsert_checks _ _ _ _ _ Hu) as (H1 & H2 & H3 & H4).
  destruct (upsert_lookup _ _ _ _ _ Hk Ha Hu Hnew) as (r' & Hone & Hcells).
  pose proof (upsert_rows_aligned _ _ _ _ _ Ha Hu) as Ha'.
  assert (Hin' : In r' (t_rows t') /\
                 conflicts (t_pk t) r' (inserted_row t cells) = true).
  { apply (filter_In (fun r => conflicts (t_pk t) r (inserted_row t cells))).
    rewrite Hone. now left. }
  unfold upsert, prepared, has_column, col_names, violates_not_null, inserted_row.
  rewrite Hcols, Hpk.
  fold (col_names t). fold (has_column t). fold (inserted_row t cells).
  fold (violates_not_null t (inserted_row t cells)).
  rewrite H1, H2, H3, H4. simpl.
  rewrite update_conflicting_fixed.
  - destruct t'. simpl in *. now subst.
  - apply Exists_exists. exists r'. exact Hin'.
  - apply Forall_forall. intros r Hr Hc.
    assert (r = r').
    { assert (Hf : In r (filter (fun r => conflicts (t_pk t) r (inserted_row t cells))
                           (t_rows t'))) by (apply filter_In; auto).
      rewrite Hone in Hf. destruct Hf as [<- | []]. reflexivity. }
    subst r. apply updated_row_fixed.
    + unfold rows_aligned in Ha'. rewrite Forall_forall in Ha'.
      rewrite (Ha' r' Hr). unfold col_names. now rewrite Hcols.
    + intros c Hset _. symmetry. apply Hcells. now left.
Qed.

(** X20.  Puts are idempotent.  Repeating a successful put with the same
    arguments at the same clock reading returns and leaves the state exactly
    as the first put left it: [upsert_work] under a string identifier,
    [upsert_sdg_result] always. *)
Theorem repeated_put_changes_nothing
    (st st' : process) (row : pydict) (raw_record : PyVal) (utcnow : datetime)
    (openalex_id model : string) (sdg_response sdg_formatted sdg_note : PyVal)
    (k : string) :
  process_ok st ->
  (dict_get row "openalex_id" = PyStr k ->
   upsert_work row raw_record utcnow st = (Ok tt, st') ->
   upsert_work row raw_record utcnow st' = (Ok tt, st')) /\
  (upsert_sdg_result openalex_id model sdg_response sdg_formatted sdg_note utcnow st
   = (Ok tt, st') ->
   upsert_sdg_result openalex_id model sdg_response sdg_formatted sdg_note utcnow st'
   = (Ok tt, st')).
Proof.
  intros Hok. split.
  - intros Hkey Hput.
    destruct (get_conn_ok st (upsert_work_ready _ _ _ _ _ Hok Hput))
      as (st1 & Hrun & Hc & _).
    rewrite (upsert_work_enter _ _ _ st st1 Hrun Hc) in Hput.
    pose proof (upsert_work_keeps_connected row raw_record utcnow st1 Hc) as Hc'.
    rewrite Hput in Hc'. simpl in Hc'.
    destruct (upsert_work_table _ _ _ _ _ Hc Hput)
      as (payload & values & tw & tw' & b & Hp & Hv & Htw & Htok & Hu & -> & Hb
          & Hid & Hconf).
    rewrite Hkey in Hb. injection Hb as <-. simpl in Hid, Hconf.
    destruct (upsert_work_connected row raw_record utcnow _ Hc')
      as (tw2 & Htw2 & _ & ->).
    simpl in Htw2. injection Htw2 as <-.
    rewrite Hp, Hv.
    assert (Hnames : map fst payload = map c_name works_columns).
    { destruct (work_payload_Ok _ _ _ _ Hp) as (f & j & _ & _ & ->). reflexivity. }
    rewrite Hnames.
    rewrite (upsert_again _ _ _ tw tw' (ok_names _ _ _ Htok) (ok_rows _ _ _ Htok)
               (ok_keys _ _ _ Htok) Hu).
    + reflexivity.
    + rewrite (ok_pk _ _ _ Htok), Hconf, Hid. apply String.eqb_refl.
  - intros Hput.
    destruct (get_conn_ok st (upsert_sdg_result_ready _ _ _ _ _ _ _ _ Hok Hput))
      as (st1 & Hrun & Hc & _).
    rewrite (upsert_sdg_result_enter _ _ _ _ _ _ st st1 Hrun Hc) in Hput.
    pose proof (upsert_sdg_result_keeps_connected openalex_id model sdg_response
                  sdg_formatted sdg_note utcnow st1 Hc) as Hc'.
    rewrite Hput in Hc'. simpl in Hc'.
    destruct (upsert_sdg_result_table _ _ _ _ _ _ _ _ Hc Hput)
      as (payload & values & ts & ts' & Hp & Hv & Hts & Htok & Hu & -> & Hid & Hm
          & Hconf).
    destruct (upsert_sdg_result_connected openalex_id model sdg_response
                sdg_formatted sdg_note utcnow _ Hc')
      as (ts2 & Hts2 & _ & ->).
    simpl in Hts2. injection Hts2 as <-.
    rewrite Hp, Hv.
    rewrite (upsert_again _ _ _ ts ts' (ok_names _ _ _ Htok) (ok_rows _ _ _ Htok)
               (ok_keys _ _ _ Htok) Hu).
    + reflexivity.
    + rewrite (ok_pk _ _ _ Htok), Hconf, Hid, Hm. simpl.
      now rewrite !String.eqb_refl.
Qed.

Lemma repeated_put_changes_nothing_witness :
  process_ok fresh /\
  exists st',
    upsert_work paper_a raw_a sample_time fresh = (Ok tt, st') /\
    upsert_work paper_a raw_a sample_time st' = (Ok tt, st').
Proof.
  split; [exact fresh_ok |].
  eexists. split; [vm_compute; reflexivity |].
  apply (proj1 (repeated_put_changes_nothing fresh _ paper_a raw_a sample_time
                  "W1" "model-a" PyNone PyNone PyNone "W1" fresh_ok));
    reflexivity.
Defined.

(** ** The fields of a work *)

(** X21.  The open-access flag is stored as [int(is_oa)], whatever [is_oa]
    is: a put with [is_oa = None] is read back with [None], and a put with
    any other value that returns is read back with the integer that [int]
    gives for it (a text holding the digit one is read back as the
    integer 1). *)
Theorem flag_is_stored_as_int
    (st st' : process) (row : pydict) (raw_record : PyVal) (utcnow : datetime)
    (k openalex_id : string) :
  process_ok st ->
  dict_get row "openalex_id" = PyStr k -> strip openalex_id = k ->
  upsert_work row raw_record utcnow st = (Ok tt, st') ->
  exists d,
    get_cached_work openalex_id st' = (Ok (Some d), st') /\
    (dict_get row "is_oa" = PyNone -> dict_get d "is_oa" = PyNone) /\
    (dict_get row "is_oa" <> PyNone ->
     exists z, int (dict_get row "is_oa") = Ok z /\ dict_get d "is_oa" = PyInt z).
Proof.
  intros Hok Hkey Hid Hput.
  destruct (upsert_work_stores _ _ _ _ _ _ Hok Hput Hkey)
    as (Hc' & r & payload & Hone & Hp & Hholds).
  exists (dict_of_row r).
  rewrite (get_cached_work_connected _ st' Hc'), Hid, Hone. simpl.
  split; [reflexivity |].
  destruct (work_payload_Ok _ _ _ _ Hp) as (f & j & Hf & _ & ->).
  destruct (Hholds {| c_name := "is_oa"; c_affinity := INTEGER; c_notnull := false |}
              f) as (b & Hb & Hcell); [simpl; tauto | reflexivity |].
  cbn [c_name c_affinity] in Hcell. rewrite dict_get_of_row, Hcell.
  destruct Hf as [Hnone | z Hsome Hint].
  - injection Hb as <-. split; [reflexivity | congruence].
  - simpl in Hb.
    destruct ((int64_min <=? z) && (z <=? int64_max)); [| discriminate].
    injection Hb as <-. split; [congruence |]. intros _. now exists z.
Qed.

Lemma flag_is_stored_as_int_witness :
  process_ok fresh /\
  exists st' d,
    upsert_work paper_flag_text PyNone sample_time fresh = (Ok tt, st') /\
    get_cached_work "W1" st' = (Ok (Some d), st') /\
    (dict_get paper_flag_text "is_oa" = PyNone -> dict_get d "is_oa" = PyNone) /\
    (dict_get paper_flag_text "is_oa" <> PyNone ->
     exists z, int (dict_get paper_flag_text "is_oa") = Ok z /\
               dict_get d "is_oa" = PyInt z).
Proof.
  split; [exact fresh_ok |].
  eexists.
  assert (H : forall st' (Hput : upsert_work paper_flag_text PyNone sample_time fresh
                                 = (Ok tt, st')),
             exists d,
               get_cached_work "W1" st' = (Ok (Some d), st') /\
               (dict_get paper_flag_text "is_oa" = PyNone ->
                dict_get d "is_oa" = PyNone) /\
               (dict_get paper_flag_text "is_oa" <> PyNone ->
                exists z, int (dict_get paper_flag_text "is_oa") = Ok z /\
                          dict_get d "is_oa" = PyInt z)).
  { intros st' Hput.
    apply (flag_is_stored_as_int fresh st' paper_flag_text PyNone sample_time
             "W1" "W1" fresh_ok eq_refl eq_refl Hput). }
  destruct (H _ eq_refl) as (d & Hget & Hd).
  exists d. split; [reflexivity |]. split; assumption.
Defined.

(** X22.  [upsert_work] passes the fields of [row] to SQLite as they are:
    only [raw_record] is serialised.  A field that [sqlite3] cannot bind (a
    list, a dictionary, another object, an integer outside 64 bits) makes
    the put raise, and nothing is written: the put leaves the state that
    acquiring the connection leaves.  (The process holds its connection, or
    its database file is one the module can open.) *)
Theorem unbindable_field_is_rejected
    (st : process) (row : pydict) (raw_record : PyVal) (utcnow : datetime)
    (c : string) (e : exn) :
  process_ready st ->
  In c ("openalex_id" :: text_fields) ->
  bind_param (dict_get row c) = Raise e ->
  exists e' st',
    upsert_work row raw_record utcnow st = (Raise e', st') /\
    _get_conn st = (Ok Connection, st').
Proof.
  intros Hok Hin Hbind.
  destruct (get_conn_ok st Hok) as (st1 & Hrun & Hc & _).
  rewrite (upsert_work_enter _ _ _ st st1 Hrun Hc).
  destruct (upsert_work_connected row raw_record utcnow st1 Hc)
    as (tw & _ & _ & ->).
  destruct (work_payload row raw_record utcnow) as [payload | e1] eqn:Hp;
    [| now exists e1, st1].
  destruct (bind_payload payload) as [values | e1] eqn:Hv;
    [| now exists e1, st1].
  exfalso.
  destruct (work_payload_Ok _ _ _ _ Hp) as (f & j & _ & _ & ->).
  assert (Ha : assoc
                 [("openalex_id", dict_get row "openalex_id");
                  ("title", dict_get row "title");
                  ("publication_date", dict_get row "publication_date");
                  ("doi", dict_get row "doi"); ("type", dict_get row "type");
                  ("language", dict_get row "language"); ("is_oa", f);
                  ("oa_status", dict_get row "oa_status");
                  ("authors", dict_get row "authors");
                  ("institutions", dict_get row "institutions");
                  ("institution_affiliations_json",
                    dict_get row "institution_affiliations_json");
                  ("abstract", dict_get row "abstract"); ("raw_json", j);
                  ("updated_at", PyStr (isoformat_seconds utcnow))] c
                = Some (dict_get row c)).
  { simpl in Hin.
    repeat (destruct Hin as [<- | Hin]; [reflexivity |]). contradiction. }
  destruct (bind_payload_assoc _ _ Hv c _ Ha) as (b & Hb & _). congruence.
Qed.

Lemma unbindable_field_is_rejected_witness :
  process_ready fresh /\ In "authors" ("openalex_id" :: text_fields) /\
  bind_param (dict_get paper_a_listed "authors") = Raise Sqlite3Error /\
  exists e' st',
    upsert_work paper_a_listed raw_a sample_time fresh = (Raise e', st') /\
    _get_conn fresh = (Ok Connection, st').
Proof.
  split; [exact fresh_ready |].
  split; [simpl; tauto |]. split; [reflexivity |].
  apply (unbindable_field_is_rejected fresh paper_a_listed raw_a sample_time
           "authors" Sqlite3Error fresh_ready).
  - simpl. tauto.
  - reflexivity.
Defined.

(** ** Puts to different keys *)







